(** * Smart wallet front-end: the USDC transfer pipeline

    A shallow embedding of [src/app/page.tsx] (the React page with its
    [createAccount] and [transfer] handlers) and of the transfer service
    [transferUSDC] that the page calls, together with the parts of the
    JavaScript runtime and of the viem helpers that their results depend on. *)

From Stdlib Require Import ZArith Zpower List String Ascii Bool Lia.
From Stdlib Require Import Floats.SpecFloat.
Import ListNotations.

Local Open Scope string_scope.
Local Open Scope Z_scope.

(** ** Thrown values

    Every exception the pipeline meets carries a message, which is the only
    part the page reads ([(error as Error).message]). *)
Inductive js_error : Type :=
| RangeError (message : string)
| TypeError (message : string)
| SyntaxError (message : string)
| Rejected (message : string)  (* an error of a library or a refused request *).

Definition message (e : js_error) : string :=
  match e with
  | RangeError m | TypeError m | SyntaxError m | Rejected m => m
  end.

(** A call either yields a value or throws. *)
Inductive result (A : Type) : Type :=
| Ok (a : A)
| Err (e : js_error).
Arguments Ok {A} a.
Arguments Err {A} e.

(** ** JavaScript numbers

    A [Number] is an IEEE 754 binary64 value; the operations are the ones of
    the Standard Library's executable specification of binary floats. *)
Module JS.

Definition Number : Type := spec_float.
Definition prec : Z := 53.
Definition emax : Z := 1024.

Definition NaN : Number := S754_nan.

(** [Number(b)] for a bigint [b], and the value of an integer literal: the
    nearest double, ties to even. *)
Definition Number_of_BigInt (z : Z) : Number :=
  binary_normalize prec emax z 0 false.

(** The double nearest to [(-1)^neg * n / d], for [0 <= n] and [0 < d].  The
    quotient is taken with [1100 + log2 d] fractional bits, more than any
    binary64 rounding looks at, and a last sticky bit records a remainder. *)
Definition Number_of_ratio (neg : bool) (n d : Z) : Number :=
  let k := 1100 + Z.log2 d in
  let q := Z.shiftl n k / d in
  let sticky := if Z.shiftl n k mod d =? 0 then 0 else 1 in
  let m := 2 * q + sticky in
  binary_normalize prec emax (if neg then - m else m) (- k - 1) neg.

(** The double nearest to [(-1)^neg * m * 10^e]. *)
Definition Number_of_decimal (neg : bool) (m e : Z) : Number :=
  if 0 <=? e
  then binary_normalize prec emax (if neg then - (m * 10 ^ e) else m * 10 ^ e) 0 neg
  else Number_of_ratio neg m (10 ^ (- e)).

(** [x * y] on numbers. *)
Definition mul (x y : Number) : Number := SFmul prec emax x y.

(** [Math.max(x, y)]: NaN if either is NaN, and [+0] is larger than [-0]. *)
Definition Math_max (x y : Number) : Number :=
  match SFcompare x y with
  | None => NaN
  | Some Lt => y
  | Some Gt => x
  | Some Eq => match x with S754_zero true => y | _ => x end
  end.

(** The exponent of the double that holds a positive integer below
    [2^53]. *)
Definition exponent_of (p : positive) : Z := Zpos (digits2_pos p) - 53.

(** [BigInt(x)] for a number [x]: a RangeError unless [x] is an integer.
    The wording of the message is the engine's, which also prints the
    number; here the message leaves the number out. *)
Definition BigInt_of_Number (x : Number) : result Z :=
  let not_integer :=
    Err (RangeError "The number cannot be converted to a BigInt because it is not an integer") in
  match x with
  | S754_zero _ => Ok 0
  | S754_finite s m e =>
      if 0 <=? e then Ok (cond_Zopp s (Zpos m * 2 ^ e))
      else if Zpos m mod 2 ^ (- e) =? 0
           then Ok (cond_Zopp s (Zpos m / 2 ^ (- e)))
           else not_integer
  | S754_infinity _ | S754_nan => not_integer
  end.

(** *** Reading a decimal literal: [parseFloat] *)

Definition is_white (c : ascii) : bool :=
  let n := nat_of_ascii c in
  orb (Nat.eqb n 32) (andb (Nat.leb 9 n) (Nat.leb n 13)).

Definition digit_of (c : ascii) : option Z :=
  let n := Z.of_nat (nat_of_ascii c) in
  if andb (48 <=? n) (n <=? 57) then Some (n - 48) else None.

Fixpoint trim_start (s : string) : string :=
  match s with
  | String c r => if is_white c then trim_start r else s
  | EmptyString => s
  end.

(** Reads the longest run of decimal digits at the head of [s], continuing
    the value [acc]: the value, the number of digits read and the rest. *)
Fixpoint read_digits (s : string) (acc : Z) (count : Z) : Z * Z * string :=
  match s with
  | String c r =>
      match digit_of c with
      | Some d => read_digits r (10 * acc + d) (count + 1)
      | None => (acc, count, s)
      end
  | EmptyString => (acc, count, s)
  end.

Definition read_sign (s : string) : bool * string :=
  match s with
  | String "-" r => (true, r)
  | String "+" r => (false, r)
  | _ => (false, s)
  end.

(** The exponent part, when one is well formed at the head of [s]; it is
    not part of the literal otherwise. *)
Definition read_exponent (s : string) : Z :=
  match s with
  | String c r =>
      if orb (Ascii.eqb c "e") (Ascii.eqb c "E") then
        let '(neg, r') := read_sign r in
        let '(v, count, _) := read_digits r' 0 0 in
        if count =? 0 then 0 else if neg then - v else v
      else 0
  | EmptyString => 0
  end.

Definition starts_with (p s : string) : bool :=
  String.eqb (substring 0 (String.length p) s) p.

(** [parseFloat(s)]: leading white space is skipped, the longest prefix
    that is a decimal literal is read, and NaN is the answer when there is
    none. *)
Definition parseFloat (s : string) : Number :=
  let '(neg, s1) := read_sign (trim_start s) in
  if starts_with "Infinity" s1 then S754_infinity neg else
  let '(ip, icount, s2) := read_digits s1 0 0 in
  let '(m, fcount, s3) :=
    match s2 with
    | String "." r => read_digits r ip 0
    | _ => (ip, 0, s2)
    end in
  if (icount + fcount =? 0) then NaN
  else Number_of_decimal neg m (read_exponent s3 - fcount).

End JS.

(** ** Strings of the runtime *)
Module Str.

Definition lower (c : ascii) : ascii :=
  let n := nat_of_ascii c in
  if andb (Nat.leb 65 n) (Nat.leb n 90) then ascii_of_nat (n + 32) else c.

(** [s.toLowerCase()] on ASCII text. *)
Fixpoint toLowerCase (s : string) : string :=
  match s with
  | String c r => String (lower c) (toLowerCase r)
  | EmptyString => EmptyString
  end.

(** [s.slice(n)] for [0 <= n]. *)
Fixpoint slice (n : nat) (s : string) : string :=
  match n, s with
  | O, _ => s
  | S n', String _ r => slice n' r
  | S _, EmptyString => EmptyString
  end.

(** [s.slice(0, n)]. *)
Fixpoint take (n : nat) (s : string) : string :=
  match n, s with
  | S n', String c r => String c (take n' r)
  | _, _ => EmptyString
  end.

Fixpoint repeat0 (n : nat) : string :=
  match n with
  | O => EmptyString
  | S n' => String "0" (repeat0 n')
  end.

(** [s.padStart(n, '0')]. *)
Definition padStart0 (n : nat) (s : string) : string :=
  (repeat0 (n - String.length s) ++ s)%string.

(** [s.trimEnd()] on ASCII white space. *)
Fixpoint trim_end (s : string) : string :=
  match s with
  | String c r =>
      match trim_end r with
      | EmptyString => if JS.is_white c then EmptyString else String c EmptyString
      | r' => String c r'
      end
  | EmptyString => EmptyString
  end.

(** [s.replace(/(0+)$/, '')]: the trailing zeros are dropped. *)
Fixpoint strip_trailing_zeros (s : string) : string :=
  match s with
  | String c r =>
      match strip_trailing_zeros r with
      | EmptyString => if Ascii.eqb c "0" then EmptyString else String c EmptyString
      | r' => String c r'
      end
  | EmptyString => EmptyString
  end.

(** [s.replace('0x', '')] on a string whose only possible occurrence of
    [0x] is at its head, as in every hex string. *)
Definition strip_0x (s : string) : string :=
  match s with
  | String "0" (String "x" r) => r
  | _ => s
  end.

Definition digit_char (d : Z) : ascii :=
  ascii_of_nat (Z.to_nat (if d <? 10 then 48 + d else 87 + d)).

(** The value of a character as a digit, letters in either case; 16 for
    any other character. *)
Definition digit_value (c : ascii) : Z :=
  let n := Z.of_nat (nat_of_ascii c) in
  if andb (48 <=? n) (n <=? 57) then n - 48
  else if andb (97 <=? n) (n <=? 102) then n - 87
  else if andb (65 <=? n) (n <=? 70) then n - 55
  else 16.

(** The value of a digit of the given radix. *)
Definition digit_in (radix : Z) (c : ascii) : option Z :=
  let v := digit_value c in
  if v <? radix then Some v else None.

(** The value of [s] read as digits of the radix, if all of it is. *)
Fixpoint read_radix (radix : Z) (s : string) (acc : Z) : option Z :=
  match s with
  | String c r =>
      match digit_in radix c with
      | Some d => read_radix radix r (radix * acc + d)
      | None => None
      end
  | EmptyString => Some acc
  end.

(** The digits of [z >= 0] in the radix, most significant first, in front
    of [acc]. *)
Fixpoint digits_of_pos (fuel : nat) (radix : Z) (z : Z) (acc : string) : string :=
  match fuel with
  | O => acc
  | S fuel' =>
      let acc' := String (digit_char (z mod radix)) acc in
      if z <? radix then acc' else digits_of_pos fuel' radix (z / radix) acc'
  end.

(** [z.toString(radix)] for a bigint [z]. *)
Definition toString (radix : Z) (z : Z) : string :=
  let body := digits_of_pos (S (Z.to_nat (Z.log2 (Z.abs z)))) radix (Z.abs z) EmptyString in
  if z <? 0 then String "-" body else body.

End Str.

Module JSBigInt.

(** [BigInt(s)] for a string [s]: white space is trimmed, the empty string
    is zero, [0x], [0o] and [0b] introduce the other radices and only a
    decimal literal may carry a sign. *)
Definition of_string (s : string) : result Z :=
  let bad := Err (SyntaxError "Cannot convert the string to a BigInt") in
  let lift o := match o with Some z => Ok z | None => bad end in
  let nonempty radix r :=
    match r with EmptyString => bad | _ => lift (Str.read_radix radix r 0) end in
  match Str.trim_end (JS.trim_start s) with
  | EmptyString => Ok 0
  | String "0" (String c r) as t =>
      if orb (Ascii.eqb c "x") (Ascii.eqb c "X") then nonempty 16 r
      else if orb (Ascii.eqb c "o") (Ascii.eqb c "O") then nonempty 8 r
      else if orb (Ascii.eqb c "b") (Ascii.eqb c "B") then nonempty 2 r
      else lift (Str.read_radix 10 t 0)
  | String "-" r => match nonempty 10 r with Ok z => Ok (- z) | e => e end
  | String "+" r => nonempty 10 r
  | t => lift (Str.read_radix 10 t 0)
  end.

(** [BigInt(v)] where [v] is a string or [undefined]. *)
Definition of_optional_string (v : option string) : result Z :=
  match v with
  | Some s => of_string s
  | None => Err (TypeError "Cannot convert undefined to a BigInt")
  end.

End JSBigInt.

(** ** The viem helpers the transfer service calls

    Hex data and addresses are the strings the library passes around
    ([0x] followed by hex digits). *)
Definition Hex : Type := string.
Definition Address : Type := string.

Module Viem.

(** [hexToBigInt(hex)], that is [BigInt(hex)]. *)
Definition hexToBigInt (hex : option Hex) : result Z :=
  JSBigInt.of_optional_string hex.

Fixpoint all_hex (s : string) : bool :=
  match s with
  | String c r =>
      match Str.digit_in 16 c with Some _ => all_hex r | None => false end
  | EmptyString => true
  end.

(** [isAddress(a)]: [0x] and forty hex digits.  The checksum that the
    library also verifies on a mixed-case address is a keccak256 digest and
    is left out. *)
Definition isAddress (a : Address) : bool :=
  match a with
  | String "0" (String "x" r) => andb (Nat.eqb (String.length r) 40) (all_hex r)
  | _ => false
  end.

(** [numberToHex(value, { size })], unsigned: the digits of [value] in base
    sixteen, padded with zeros to [size] bytes; a value that does not fit is
    refused. *)
Definition numberToHex (size : nat) (value : Z) : result Hex :=
  if orb (value <? 0) (2 ^ (8 * Z.of_nat size) - 1 <? value)
  then Err (Rejected "Number is not in safe unsigned integer range")
  else Ok ("0x" ++ Str.padStart0 (2 * size) (Str.toString 16 value))%string.

(** The types and values [encodePacked] is applied to. *)
Inductive packed_type : Type :=
| T_uint (bits : nat)
| T_address
| T_bytes.

Inductive packed_value : Type :=
| V_number (z : Z)
| V_hex (h : Hex).

Definition encode (t : packed_type) (v : packed_value) : result Hex :=
  match t, v with
  | T_address, V_hex a =>
      if isAddress a then Ok (Str.toLowerCase a)
      else Err (Rejected "Address is invalid")
  | T_bytes, V_hex b => Ok b
  | T_uint bits, V_number z => numberToHex (bits / 8) z
  | _, _ => Err (TypeError "Value does not match its packed type")
  end.

Fixpoint encode_all (tvs : list (packed_type * packed_value)) : result (list Hex) :=
  match tvs with
  | [] => Ok []
  | (t, v) :: rest =>
      match encode t v with
      | Ok h => match encode_all rest with Ok hs => Ok (h :: hs) | Err e => Err e end
      | Err e => Err e
      end
  end.

(** [concatHex(values)]. *)
Definition concatHex (values : list Hex) : Hex :=
  ("0x" ++ fold_left (fun acc x => acc ++ Str.strip_0x x) values "")%string.

(** [encodePacked(types, values)]: each value in its tight encoding, one
    after the other. *)
Definition encodePacked (types : list packed_type) (values : list packed_value)
  : result Hex :=
  if negb (Nat.eqb (List.length types) (List.length values))
  then Err (Rejected "ABI encoding params/values length mismatch")
  else match encode_all (combine types values) with
       | Ok hs => Ok (concatHex hs)
       | Err e => Err e
       end.

(** [formatUnits(value, decimals)]. *)
Definition formatUnits (value : Z) (decimals : nat) : string :=
  let display := Str.toString 10 value in
  let negative := JS.starts_with "-" display in
  let display := if negative then Str.slice 1 display else display in
  let display := Str.padStart0 decimals display in
  let integer := Str.take (String.length display - decimals) display in
  let fraction := Str.slice (String.length display - decimals) display in
  let fraction := Str.strip_trailing_zeros fraction in
  ((if negative then "-" else "")
   ++ (match integer with EmptyString => "0" | _ => integer end)
   ++ (match fraction with EmptyString => "" | _ => "." ++ fraction end))%string.

End Viem.

(** ** Data of the wallet *)

(** What [createPublicClient] and [createBundlerClient] are given: the
    chain and, for the bundler, the endpoint. *)
Record Client : Type := mkClient {
  chain_id : Z;
  transport_url : option string
}.

Record BundlerClient : Type := mkBundler {
  bundler_client : Client;
  bundler_url : string
}.

(** The account [privateKeyToAccount] builds around a key. *)
Record LocalAccount : Type := mkLocal {
  local_address : Address;
  local_key : Hex
}.

(** A Kernel smart account: its counterfactual address and what it was
    derived from. *)
Record SmartAccount : Type := mkSmart {
  smart_address : Address;
  smart_owners : list LocalAccount;
  smart_version : string
}.

(** The contract handle [getContract] returns. *)
Record Contract : Type := mkContract {
  contract_client : Client;
  contract_address : Address;
  contract_abi : list string
}.

(** An EIP-2612 permit as typed data. *)
Record PermitMessage : Type := mkPermit {
  permit_owner : Address;
  permit_spender : Address;
  permit_value : Z;
  permit_nonce : Z;
  permit_deadline : Z
}.

Record PermitDomain : Type := mkDomain {
  domain_name : string;
  domain_version : string;
  domain_chainId : Z;
  domain_verifyingContract : Address
}.

Record TypedData : Type := mkTyped {
  typed_primaryType : string;
  typed_domain : PermitDomain;
  typed_message : PermitMessage
}.

(** What the permit helper reads from the token: its name and version for
    the domain, and the owner's nonce; the deadline is the helper's.  It
    belongs to the model of [eip2612Permit] below. *)
Record PermitContext : Type := mkContext {
  context_name : string;
  context_version : string;
  context_nonce : Z;
  context_deadline : Z
}.

(** One call of a user operation: [transfer(recipient, amount)]. *)
Record CallSpec : Type := mkCall {
  call_to : Address;
  call_abi : list string;
  call_functionName : string;
  call_args : string * Z
}.

(** The result of [client.call]. *)
Record CallReturn : Type := mkReturn { call_data : option Hex }.

Record GasPrice : Type := mkPrice {
  price_maxFeePerGas : Hex;
  price_maxPriorityFeePerGas : Hex
}.

Record GasEstimate : Type := mkEstimate {
  est_callGasLimit : Z;
  est_preVerificationGas : Z;
  est_verificationGasLimit : Z;
  est_paymasterPostOpGasLimit : option Z;
  est_paymasterVerificationGasLimit : option Z
}.

(** The user operation as given to the bundler, for estimation (no call
    limits yet) and for submission. *)
Record UserOperation : Type := mkUserOp {
  uo_account : SmartAccount;
  uo_calls : list CallSpec;
  uo_callGasLimit : option Z;
  uo_preVerificationGas : option Z;
  uo_verificationGasLimit : option Z;
  uo_paymaster : Address;
  uo_paymasterData : Hex;
  uo_paymasterVerificationGasLimit : option Z;
  uo_paymasterPostOpGasLimit : option Z;
  uo_maxFeePerGas : Z;
  uo_maxPriorityFeePerGas : Z
}.

Record TxReceipt : Type := mkTx {
  transactionHash : Hex;
  gasUsed : Z
}.

Record UserOperationReceipt : Type := mkReceipt {
  success : bool;
  actualGasUsed : Z;
  actualGasCost : Z;
  receipt : TxReceipt
}.

(** The credential the page caches. *)
Record AccountInfo : Type := mkAccount {
  address : Address;
  owner : Address;
  privateKey : Hex
}.

(** The page's state, one field per [useState]. *)
Record PageState : Type := mkPage {
  loading : bool;
  account : option AccountInfo;
  balance : string;
  recipientAddress : string;
  amount : string;
  status : string;
  usdcBalance : string
}.

Definition initial_page : PageState :=
  mkPage false None "" "" "" "" "0.00".

(** A value printed by [console.log]. *)
Inductive js_value : Type :=
| VString (s : string)
| VBigInt (z : Z)
| VBool (b : bool)
| VUndefined.

(** ** Effects

    What a handler does to the page and the console ([action]), and what it
    asks of the outside: the key generator, the RPC node, the bundler and
    the signer ([request], answered with a [response] or a rejection). *)
Inductive action : Type :=
| SetLoading (b : bool)
| SetAccount (a : option AccountInfo)
| SetRecipientAddress (s : string)
| SetAmount (s : string)
| SetStatus (s : string)
| ConsoleLog (args : list js_value).

Inductive request : Type :=
| GeneratePrivateKey
| ToEcdsaKernelSmartAccount (client : Client) (owners : list LocalAccount) (version : string)
| ReadPermitContext (token : Contract) (chainId : Z) (ownerAddress : Address)
| SignTypedData (signer : SmartAccount) (data : TypedData)
| EthCall (client : Client) (to : Address) (data : Hex)
| GetUserOperationGasPrice (bundler : BundlerClient)
| EstimateUserOperationGas (bundler : BundlerClient) (op : UserOperation)
| SendUserOperation (bundler : BundlerClient) (op : UserOperation)
| WaitForUserOperationReceipt (bundler : BundlerClient) (hash : Hex)
| BalanceOf (token : Contract) (holder : Address).

Definition response (q : request) : Type :=
  match q with
  | GeneratePrivateKey => Hex
  | ToEcdsaKernelSmartAccount _ _ _ => Address
  | ReadPermitContext _ _ _ => PermitContext
  | SignTypedData _ _ => Hex
  | EthCall _ _ _ => option CallReturn
  | GetUserOperationGasPrice _ => GasPrice
  | EstimateUserOperationGas _ _ => GasEstimate
  | SendUserOperation _ _ => Hex
  | WaitForUserOperationReceipt _ _ => UserOperationReceipt
  | BalanceOf _ _ => Z
  end.

(** A handler or service as the tree of its effects. *)
Inductive prog (R : Type) : Type :=
| Ret (r : R)
| Throw (e : js_error)
| Do (a : action) (k : prog R)
| Ask (q : request) (k : result (response q) -> prog R).
Arguments Ret {R} r.
Arguments Throw {R} e.
Arguments Do {R} a k.
Arguments Ask {R} q k.

Fixpoint bind {A B : Type} (p : prog A) (f : A -> prog B) : prog B :=
  match p with
  | Ret a => f a
  | Throw e => Throw e
  | Do a k => Do a (bind k f)
  | Ask q k => Ask q (fun r => bind (k r) f)
  end.

Declare Scope prog_scope.
Delimit Scope prog_scope with prog.
Notation "x <- p ;; q" := (bind p (fun x => q))
  (at level 100, p at next level, right associativity) : prog_scope.
Notation "p ;; q" := (bind p (fun _ => q))
  (at level 100, right associativity) : prog_scope.
Local Open Scope prog_scope.

(** [await] of a request: its answer, or its rejection thrown. *)
Definition await (q : request) : prog (response q) :=
  Ask q (fun r => match r with Ok x => Ret x | Err e => Throw e end).

Definition perform (a : action) : prog unit := Do a (Ret tt).

(** A pure step that may throw. *)
Definition lift {A : Type} (r : result A) : prog A :=
  match r with Ok a => Ret a | Err e => Throw e end.

(** [try { body } catch (error) { handler }]. *)
Fixpoint try_catch {R : Type} (body : prog R) (handler : js_error -> prog R) : prog R :=
  match body with
  | Ret r => Ret r
  | Throw e => handler e
  | Do a k => Do a (try_catch k handler)
  | Ask q k => Ask q (fun r => try_catch (k r) handler)
  end.

(** [try { body } finally { final }]. *)
Fixpoint try_finally {R : Type} (body : prog R) (final : prog unit) : prog R :=
  match body with
  | Ret r => final ;; Ret r
  | Throw e => final ;; Throw e
  | Do a k => Do a (try_finally k final)
  | Ask q k => Ask q (fun r => try_finally (k r) final)
  end.

(** ** The pure library functions the code relies on

    They are local computations of viem (key derivation and ABI coding are
    keccak256 and secp256k1 work) and are taken as given, as is the token
    ABI that [./permit-helpers] exports. *)
Class Library : Type := {
  (** [privateKeyToAccount(key)]; an ill-formed key is refused. *)
  privateKeyToAccount : Hex -> result LocalAccount;
  (** The [signature] field of [parseErc6492Signature(sig)]: [sig] itself
      unless it carries the ERC-6492 wrapper, the inner signature then. *)
  parseErc6492Signature : Hex -> result Hex;
  (** [encodeFunctionData({ abi: parseAbi(signatures), functionName })]. *)
  encodeFunctionData : list string -> string -> Hex;
  tokenAbi : list string
}.

(** ** The transfer service *)
Section Service.
Context {lib : Library}.

Definition arbitrumSepolia_id : Z := 421614.

Definition ARBITRUM_SEPOLIA_USDC : Address := "0x75faf114eafb1BDbe2F0316DF893fd58CE46AA4d".
Definition ARBITRUM_SEPOLIA_PAYMASTER : Address := "0x7C5D876b446F3F1F08E2d3513D9062e681c4388C".
Definition ARBITRUM_SEPOLIA_BUNDLER : string :=
  ("https://public.pimlico.io/v2/" ++ Str.toString 10 arbitrumSepolia_id ++ "/rpc")%string.

(** The max amount allowed to be paid per user op: 1 USDC. *)
Definition MAX_GAS_USDC : Z := 1000000.

Definition createPublicClient : Client := mkClient arbitrumSepolia_id None.

Definition createBundlerClient (client : Client) (url : string) : BundlerClient :=
  mkBundler client url.

Definition getContract (client : Client) (a : Address) (abi : list string) : Contract :=
  mkContract client a abi.

Definition toEcdsaKernelSmartAccount (client : Client) (owners : list LocalAccount)
    (version : string) : prog SmartAccount :=
  a <- await (ToEcdsaKernelSmartAccount client owners version) ;;
  Ret (mkSmart a owners version).

Definition log (args : list js_value) : prog unit := perform (ConsoleLog args).

Record PermitData : Type := mkPermitData {
  permit_domain : PermitDomain;
  permit_message : PermitMessage
}.

(** Modelled from the spec: [eip2612Permit] of [./permit-helpers] is not
    among the sources.  The specification has it construct an EIP-2612
    permit with owner = the smart account address, spender = the paymaster
    address and value = the sponsorship ceiling it is given; the domain, the
    nonce and the deadline of such a permit are what the token and the
    helper supply. *)
Definition eip2612Permit (token : Contract) (chainId : Z)
    (ownerAddress spenderAddress : Address) (value : Z) : prog PermitData :=
  ctx <- await (ReadPermitContext token chainId ownerAddress) ;;
  Ret (mkPermitData
         (mkDomain (context_name ctx) (context_version ctx) chainId (contract_address token))
         (mkPermit ownerAddress spenderAddress value (context_nonce ctx) (context_deadline ctx))).

(** [{ ...permitData, primaryType }]. *)
Definition with_primaryType (d : PermitData) (primaryType : string) : TypedData :=
  mkTyped primaryType (permit_domain d) (permit_message d).

(** [Number(v)] for a bigint or [undefined]. *)
Definition Number_of_optional (v : option Z) : JS.Number :=
  match v with
  | Some z => JS.Number_of_BigInt z
  | None => JS.NaN
  end.

Definition show_optional (v : option Z) : js_value :=
  match v with
  | Some z => VBigInt z
  | None => VUndefined
  end.

(** [client.call(...) ?? { data: '0x0' }]. *)
Definition or_default (r : option CallReturn) : CallReturn :=
  match r with
  | Some c => c
  | None => mkReturn (Some "0x0")
  end.

Definition transferUSDC (privateKey : Hex) (recipientAddress : string) (amount : Z)
  : prog UserOperationReceipt :=
  (* Create clients *)
  let client := createPublicClient in
  let bundlerClient := createBundlerClient client ARBITRUM_SEPOLIA_BUNDLER in
  (* Create accounts *)
  owner <- lift (privateKeyToAccount privateKey) ;;
  account <- toEcdsaKernelSmartAccount client [owner] "0.3.1" ;;
  (* Setup USDC contract *)
  let usdc := getContract client ARBITRUM_SEPOLIA_USDC tokenAbi in
  (* Construct and sign permit *)
  log [VString "Constructing and signing permit..."] ;;
  permitData <- eip2612Permit usdc arbitrumSepolia_id (smart_address account)
                  ARBITRUM_SEPOLIA_PAYMASTER MAX_GAS_USDC ;;
  let signData := with_primaryType permitData "Permit" in
  wrappedPermitSignature <- await (SignTypedData account signData) ;;
  permitSignature <- lift (parseErc6492Signature wrappedPermitSignature) ;;
  log [VString "Permit signature:"; VString permitSignature] ;;
  (* Prepare transfer call *)
  let calls := [mkCall (contract_address usdc) (contract_abi usdc) "transfer"
                       (recipientAddress, amount)] in
  (* Specify the USDC Token Paymaster *)
  let paymaster := ARBITRUM_SEPOLIA_PAYMASTER in
  paymasterData <- lift (Viem.encodePacked
      [Viem.T_uint 8; Viem.T_address; Viem.T_uint 256; Viem.T_bytes]
      [Viem.V_number 0;                        (* Reserved for future use *)
       Viem.V_hex (contract_address usdc);     (* Token address *)
       Viem.V_number MAX_GAS_USDC;             (* Max spendable gas in USDC *)
       Viem.V_hex permitSignature              (* EIP-2612 permit signature *)]) ;;
  (* Get additional gas charge from paymaster *)
  called <- await (EthCall client paymaster
      (encodeFunctionData ["function additionalGasCharge() returns (uint256)"]
                          "additionalGasCharge")) ;;
  additionalGasCharge <- lift (Viem.hexToBigInt (call_data (or_default called))) ;;
  log [VString "Additional gas charge (paymasterPostOpGasLimit):"; VBigInt additionalGasCharge] ;;
  (* Get current gas prices *)
  fees <- await (GetUserOperationGasPrice bundlerClient) ;;
  maxFeePerGas <- lift (Viem.hexToBigInt (Some (price_maxFeePerGas fees))) ;;
  maxPriorityFeePerGas <- lift (Viem.hexToBigInt (Some (price_maxPriorityFeePerGas fees))) ;;
  log [VString "Max fee per gas:"; VBigInt maxFeePerGas] ;;
  log [VString "Max priority fee per gas:"; VBigInt maxPriorityFeePerGas] ;;
  (* Estimate gas limits *)
  log [VString "Estimating user op gas limits..."] ;;
  est <- await (EstimateUserOperationGas bundlerClient
      (mkUserOp account calls None None None paymaster paymasterData
                None (Some additionalGasCharge) 1 1)) ;;
  log [VString "Call gas limit:"; VBigInt (est_callGasLimit est)] ;;
  log [VString "Pre-verification gas:"; VBigInt (est_preVerificationGas est)] ;;
  log [VString "Verification gas limit:"; VBigInt (est_verificationGasLimit est)] ;;
  log [VString "Paymaster post op gas limit:"; show_optional (est_paymasterPostOpGasLimit est)] ;;
  log [VString "Paymaster verification gas limit:";
       show_optional (est_paymasterVerificationGasLimit est)] ;;
  (* Send user operation *)
  log [VString "Sending user op..."] ;;
  postOpGasLimit <- lift (JS.BigInt_of_Number (JS.Math_max
      (Number_of_optional (est_paymasterPostOpGasLimit est))
      (JS.Number_of_BigInt additionalGasCharge))) ;;
  userOpHash <- await (SendUserOperation bundlerClient
      (mkUserOp account calls
                (Some (est_callGasLimit est))
                (Some (est_preVerificationGas est))
                (Some (est_verificationGasLimit est))
                paymaster paymasterData
                (est_paymasterVerificationGasLimit est)
                (Some postOpGasLimit)
                maxFeePerGas maxPriorityFeePerGas)) ;;
  log [VString "Submitted user op:"; VString userOpHash] ;;
  (* Wait for receipt *)
  log [VString "Waiting for execution..."] ;;
  userOpReceipt <- await (WaitForUserOperationReceipt bundlerClient userOpHash) ;;
  log [VString "Done! Details:"] ;;
  log [VString "  success:"; VBool (success userOpReceipt)] ;;
  log [VString "  actualGasUsed:"; VBigInt (actualGasUsed userOpReceipt)] ;;
  log [VString "  actualGasCost:";
       VString (Viem.formatUnits (actualGasCost userOpReceipt) 18); VString "ETH"] ;;
  log [VString "  transaction hash:"; VString (transactionHash (receipt userOpReceipt))] ;;
  log [VString "  transaction gasUsed:"; VBigInt (gasUsed (receipt userOpReceipt))] ;;
  (* Calculate USDC consumed *)
  usdcBalanceBefore <- await (BalanceOf usdc (smart_address account)) ;;
  usdcBalanceAfter <- await (BalanceOf usdc (smart_address account)) ;;
  let usdcConsumed := usdcBalanceBefore - usdcBalanceAfter - amount in
  log [VString "  USDC paid:"; VString (Viem.formatUnits usdcConsumed 6)] ;;
  Ret userOpReceipt.

(** ** The page: [SmartWallet] *)

Definition createAccount (st : PageState) : prog unit :=
  try_finally
    (try_catch
       (perform (SetLoading true) ;;
        perform (SetStatus "Creating smart account...") ;;
        (* Create RPC client *)
        let client := createPublicClient in
        (* Generate private key and create owner account *)
        privateKey <- await GeneratePrivateKey ;;
        owner <- lift (privateKeyToAccount privateKey) ;;
        (* Create smart account *)
        smartAccount <- toEcdsaKernelSmartAccount client [owner] "0.3.1" ;;
        perform (SetAccount (Some (mkAccount
          (smart_address smartAccount)
          (local_address owner)
          ("0x" ++ Str.slice 2 privateKey)%string))) ;;
        perform (SetStatus "Smart account created successfully!"))
       (fun error =>
          perform (SetStatus ("Error creating smart account: " ++ message error)%string)))
    (perform (SetLoading false)).

(** [BigInt(parseFloat(amount) * 1000000)]: convert to USDC decimals. *)
Definition amountInWei (amount : string) : result Z :=
  JS.BigInt_of_Number (JS.mul (JS.parseFloat amount) (JS.Number_of_BigInt 1000000)).

(** [account.privateKey], a TypeError while [account] is [null]. *)
Definition account_privateKey (a : option AccountInfo) : result Hex :=
  match a with
  | Some info => Ok (privateKey info)
  | None => Err (TypeError "Cannot read properties of null (reading 'privateKey')")
  end.

Definition transfer (st : PageState) : prog unit :=
  try_finally
    (try_catch
       (perform (SetLoading true) ;;
        perform (SetStatus "Initiating transfer...") ;;
        amountInWei <- lift (amountInWei (amount st)) ;;
        key <- lift (account_privateKey (account st)) ;;
        receipt <- transferUSDC key (recipientAddress st) amountInWei ;;
        if success receipt then
          perform (SetStatus "Transfer completed successfully!") ;;
          perform (SetRecipientAddress "") ;;
          perform (SetAmount "")
        else
          perform (SetStatus "Transfer failed. Please try again."))
       (fun error =>
          perform (SetStatus ("Error during transfer: " ++ message error)%string)))
    (perform (SetLoading false)).

(** A string in a condition: empty is false. *)
Definition truthy (s : string) : bool :=
  match s with EmptyString => false | _ => true end.

(** The [disabled] attribute of the two buttons. *)
Definition createAccount_disabled (st : PageState) : bool := loading st.

Definition transfer_disabled (st : PageState) : bool :=
  loading st || negb (truthy (recipientAddress st)) || negb (truthy (amount st)).

(** A click on the transfer button: nothing when it is disabled. *)
Definition click_transfer (st : PageState) : prog unit :=
  if transfer_disabled st then Ret tt else transfer st.

(** A click on the create button, which is rendered while there is no
    account. *)
Definition click_createAccount (st : PageState) : prog unit :=
  match account st with
  | Some _ => Ret tt
  | None => if createAccount_disabled st then Ret tt else createAccount st
  end.

End Service.

(** ** Running a handler

    The outside is a state [W] and the way it answers each request.  A run
    yields how the handler ended, the final page, console and outside
    world, and the effects in the order they happened. *)
Class Environment (W : Type) : Type := {
  answer : forall q : request, W -> result (response q) * W
}.

Record System (W : Type) : Type := mkSystem {
  page : PageState;
  console : list (list js_value);
  world : W
}.
Arguments mkSystem {W} page console world.
Arguments page {W} s.
Arguments console {W} s.
Arguments world {W} s.

Inductive outcome (R : Type) : Type :=
| Returned (r : R)
| Threw (e : js_error).
Arguments Returned {R} r.
Arguments Threw {R} e.

Inductive entry : Type :=
| Did (a : action)
| Asked (q : request) (r : result (response q)).

Record execution (R W : Type) : Type := mkExec {
  ended : outcome R;
  final : System W;
  trace : list entry
}.
Arguments mkExec {R W} ended final trace.
Arguments ended {R W} e.
Arguments final {R W} e.
Arguments trace {R W} e.

(** A state setter replaces its field; [console.log] appends a line. *)
Definition apply_page (a : action) (p : PageState) : PageState :=
  match a with
  | SetLoading b =>
      mkPage b (account p) (balance p) (recipientAddress p) (amount p) (status p) (usdcBalance p)
  | SetAccount v =>
      mkPage (loading p) v (balance p) (recipientAddress p) (amount p) (status p) (usdcBalance p)
  | SetRecipientAddress v =>
      mkPage (loading p) (account p) (balance p) v (amount p) (status p) (usdcBalance p)
  | SetAmount v =>
      mkPage (loading p) (account p) (balance p) (recipientAddress p) v (status p) (usdcBalance p)
  | SetStatus v =>
      mkPage (loading p) (account p) (balance p) (recipientAddress p) (amount p) v (usdcBalance p)
  | ConsoleLog _ => p
  end.

Definition apply_console (a : action) (c : list (list js_value)) : list (list js_value) :=
  match a with
  | ConsoleLog args => c ++ [args]
  | _ => c
  end.

Section Run.
Context {W : Type} {env : Environment W}.

Definition apply_action (a : action) (s : System W) : System W :=
  mkSystem (apply_page a (page s)) (apply_console a (console s)) (world s).

Definition after {R : Type} (e : entry) (x : execution R W) : execution R W :=
  mkExec (ended x) (final x) (e :: trace x).

Fixpoint run {R : Type} (p : prog R) (s : System W) : execution R W :=
  match p with
  | Ret r => mkExec (Returned r) s []
  | Throw e => mkExec (Threw e) s []
  | Do a k => after (Did a) (run k (apply_action a s))
  | Ask q k =>
      let '(r, w) := answer q (world s) in
      after (Asked q r) (run (k r) (mkSystem (page s) (console s) w))
  end.

(** A handler runs on the state of the render it was created in. *)
Definition fire (handler : PageState -> prog unit) (s : System W) : execution unit W :=
  run (handler (page s)) s.

End Run.

(** ** What a trace shows *)

(** The user operations submitted, in order. *)
Fixpoint submissions (tr : list entry) : list UserOperation :=
  match tr with
  | Asked (SendUserOperation _ op) _ :: rest => op :: submissions rest
  | _ :: rest => submissions rest
  | [] => []
  end.

(** The user operations estimated, each with the bundler's answer. *)
Fixpoint estimations (tr : list entry) : list (UserOperation * result GasEstimate) :=
  match tr with
  | Asked (EstimateUserOperationGas _ op) r :: rest => (op, r) :: estimations rest
  | _ :: rest => estimations rest
  | [] => []
  end.

(** The contract calls made, each with its answer. *)
Fixpoint eth_calls (tr : list entry) : list (Address * Hex * result (option CallReturn)) :=
  match tr with
  | Asked (EthCall _ to d) r :: rest => (to, d, r) :: eth_calls rest
  | _ :: rest => eth_calls rest
  | [] => []
  end.

(** The typed data signed, each with the signature obtained. *)
Fixpoint signings (tr : list entry) : list (SmartAccount * TypedData * result Hex) :=
  match tr with
  | Asked (SignTypedData a d) r :: rest => (a, d, r) :: signings rest
  | _ :: rest => signings rest
  | [] => []
  end.

(** The smart-account derivations, each with the address obtained. *)
Fixpoint derivations (tr : list entry)
  : list (Client * list LocalAccount * string * result Address) :=
  match tr with
  | Asked (ToEcdsaKernelSmartAccount c o v) r :: rest => (c, o, v, r) :: derivations rest
  | _ :: rest => derivations rest
  | [] => []
  end.

(** The reads the permit helper made of the token, each with the answer. *)
Fixpoint permit_reads (tr : list entry)
  : list (Contract * Z * Address * result PermitContext) :=
  match tr with
  | Asked (ReadPermitContext t c o) r :: rest => (t, c, o, r) :: permit_reads rest
  | _ :: rest => permit_reads rest
  | [] => []
  end.

(** The state setters called and the lines logged, in order. *)
Fixpoint actions (tr : list entry) : list action :=
  match tr with
  | Did a :: rest => a :: actions rest
  | _ :: rest => actions rest
  | [] => []
  end.

(** The network interactions, by kind, in order. *)
Inductive kind : Type :=
| KGenerate | KDerive | KPermit | KSign | KCall | KGasPrice
| KEstimate | KSend | KWait | KBalance.

Definition kind_of (q : request) : kind :=
  match q with
  | GeneratePrivateKey => KGenerate
  | ToEcdsaKernelSmartAccount _ _ _ => KDerive
  | ReadPermitContext _ _ _ => KPermit
  | SignTypedData _ _ => KSign
  | EthCall _ _ _ => KCall
  | GetUserOperationGasPrice _ => KGasPrice
  | EstimateUserOperationGas _ _ => KEstimate
  | SendUserOperation _ _ => KSend
  | WaitForUserOperationReceipt _ _ => KWait
  | BalanceOf _ _ => KBalance
  end.

Fixpoint kinds (tr : list entry) : list kind :=
  match tr with
  | Asked q _ :: rest => kind_of q :: kinds rest
  | _ :: rest => kinds rest
  | [] => []
  end.

(** The balances read, each with the answer. *)
Fixpoint balance_reads (tr : list entry) : list (Address * result Z) :=
  match tr with
  | Asked (BalanceOf _ h) r :: rest => (h, r) :: balance_reads rest
  | _ :: rest => balance_reads rest
  | [] => []
  end.

(** Every paymaster data handed to the bundler, for estimation or for
    submission. *)
Definition paymaster_payloads (tr : list entry) : list Hex :=
  map (fun e => uo_paymasterData (fst e)) (estimations tr)
  ++ map uo_paymasterData (submissions tr).

(** The order of the network interactions of a transfer that runs to its
    end. *)
Definition pipeline : list kind :=
  [KDerive; KPermit; KSign; KCall; KGasPrice; KEstimate; KSend; KWait; KBalance; KBalance].

Fixpoint is_prefix (l m : list kind) : bool :=
  match l, m with
  | [], _ => true
  | a :: l', b :: m' =>
      match a, b with
      | KGenerate, KGenerate | KDerive, KDerive | KPermit, KPermit | KSign, KSign
      | KCall, KCall | KGasPrice, KGasPrice | KEstimate, KEstimate | KSend, KSend
      | KWait, KWait | KBalance, KBalance => is_prefix l' m'
      | _, _ => false
      end
  | _ :: _, [] => false
  end.

(** ** Reading packed paymaster data back

    The bytes a hex string stands for, and the fields of the packed layout
    by their offsets. *)
Module Packed.

Definition byte_of (z : Z) : Byte.byte :=
  match Byte.of_N (Z.to_N z) with
  | Some b => b
  | None => Byte.x00
  end.

Fixpoint bytes_of_digits (s : string) : option (list Byte.byte) :=
  match s with
  | EmptyString => Some []
  | String a (String b r) =>
      match Str.digit_in 16 a, Str.digit_in 16 b, bytes_of_digits r with
      | Some x, Some y, Some l => Some (byte_of (16 * x + y) :: l)
      | _, _, _ => None
      end
  | String _ EmptyString => None
  end.

(** [hexToBytes(h)]. *)
Definition hexToBytes (h : Hex) : option (list Byte.byte) :=
  match h with
  | String "0" (String "x" r) => bytes_of_digits r
  | _ => None
  end.

(** [z] as [n] bytes, most significant first. *)
Fixpoint big_endian (n : nat) (z : Z) : list Byte.byte :=
  match n with
  | O => []
  | S n' => big_endian n' (z / 256) ++ [byte_of (z mod 256)]
  end.

(** The unsigned integer held in [len] bytes from byte [off] on. *)
Definition uint_at (off len : nat) (h : Hex) : option Z :=
  Str.read_radix 16 (Str.take (2 * len) (Str.slice (2 * off) (Str.strip_0x h))) 0.

(** The bytes from byte [off] on. *)
Definition tail_at (off : nat) (h : Hex) : Hex :=
  ("0x" ++ Str.slice (2 * off) (Str.strip_0x h))%string.

End Packed.

(** ** A test network

    A small closed world to run the handlers in: one smart account holding
    USDC, a paymaster that charges a fee in USDC, and a bundler that
    executes what it is sent when its receipt is awaited. *)
Module Testnet.

Definition erc6492MagicBytes : string :=
  "6492649264926492649264926492649264926492649264926492649264926492".

Definition word_at (byte_offset : nat) (body : string) : option Z :=
  Str.read_radix 16 (Str.take 64 (Str.slice (2 * byte_offset) body)) 0.

(** The inner signature of [abi.encode(address, bytes, bytes) ++ magic],
    and any other signature as it is. *)
Definition unwrap (sig : Hex) : result Hex :=
  let body := Str.strip_0x sig in
  let n := String.length body in
  if negb (String.eqb (Str.slice (n - 64) body) erc6492MagicBytes) then Ok sig else
  match word_at 64 body with
  | Some off =>
      match word_at (Z.to_nat off) body with
      | Some len =>
          Ok ("0x" ++ Str.take (2 * Z.to_nat len) (Str.slice (2 * (Z.to_nat off + 32)) body))%string
      | None => Err (Rejected "Data size too small")
      end
  | None => Err (Rejected "Data size too small")
  end.

Definition is_key (k : Hex) : bool :=
  match k with
  | String "0" (String "x" r) => andb (Nat.eqb (String.length r) 64) (Viem.all_hex r)
  | _ => false
  end.

(** Addresses are cut out of the key here; the real ones are digests. *)
Definition account_of_key (k : Hex) : result LocalAccount :=
  if is_key k then Ok (mkLocal ("0x" ++ Str.slice 26 k)%string k)
  else Err (Rejected "invalid private key")%string.

#[export] Instance library : Library := {
  privateKeyToAccount := account_of_key;
  parseErc6492Signature := unwrap;
  encodeFunctionData := fun _ _ => "0x3e04619d";
  tokenAbi := ["function transfer(address to, uint256 value) returns (bool)";
               "function balanceOf(address account) view returns (uint256)"]
}.

Record Chain : Type := mkChain {
  next_key_digits : string;
  permit_context : PermitContext;
  wrapped_signature : Hex;
  paymaster_answer : option CallReturn;
  gas_price : GasPrice;
  gas_estimate : GasEstimate;
  operation_hash : Hex;
  operation_succeeds : bool;
  paymaster_fee : Z;
  usdc_held : Z;
  pending : Z
}.

Definition with_pending (c : Chain) (v : Z) : Chain :=
  mkChain (next_key_digits c) (permit_context c) (wrapped_signature c) (paymaster_answer c)
          (gas_price c) (gas_estimate c) (operation_hash c) (operation_succeeds c)
          (paymaster_fee c) (usdc_held c) v.

Definition with_usdc (c : Chain) (v : Z) : Chain :=
  mkChain (next_key_digits c) (permit_context c) (wrapped_signature c) (paymaster_answer c)
          (gas_price c) (gas_estimate c) (operation_hash c) (operation_succeeds c)
          (paymaster_fee c) v (pending c).

Definition transferred (op : UserOperation) : Z :=
  fold_right (fun c acc => snd (call_args c) + acc) 0 (uo_calls op).

(** The counterfactual address of an account with one owner. *)
Definition derive (owners : list LocalAccount) : result Address :=
  match owners with
  | [o] => Ok ("0x" ++ Str.toLowerCase (Str.slice 2 (local_address o)))%string
  | _ => Err (Rejected "one owner expected")
  end.

Definition respond (q : request) (c : Chain) : result (response q) * Chain :=
  match q return result (response q) * Chain with
  | GeneratePrivateKey => (Ok ("0x" ++ next_key_digits c)%string, c)
  | ToEcdsaKernelSmartAccount _ owners _ => (derive owners, c)
  | ReadPermitContext _ _ _ => (Ok (permit_context c), c)
  | SignTypedData _ _ => (Ok (wrapped_signature c), c)
  | EthCall _ _ _ => (Ok (paymaster_answer c), c)
  | GetUserOperationGasPrice _ => (Ok (gas_price c), c)
  | EstimateUserOperationGas _ _ => (Ok (gas_estimate c), c)
  | SendUserOperation _ op => (Ok (operation_hash c), with_pending c (transferred op))
  | WaitForUserOperationReceipt _ h =>
      (Ok (mkReceipt (operation_succeeds c) 250000 25000000000000 (mkTx h 300000)),
       if operation_succeeds c
       then with_usdc c (usdc_held c - pending c - paymaster_fee c)
       else c)
  | BalanceOf _ _ => (Ok (usdc_held c), c)
  end.

#[export] Instance environment : Environment Chain := { answer := respond }.

Definition key : Hex :=
  "0x59c6995e998f97a5a0044966f0945389dc9e86dae88c7a8412f4603b6b78690d".

Definition plain_signature : Hex :=
  "0x1b2a3c4d5e6f708192a3b4c5d6e7f8091a2b3c4d5e6f708192a3b4c5d6e7f8091a2b3c4d5e6f708192a3b4c5d6e7f8091a2b3c4d5e6f708192a3b4c5d6e7f8091c".

(** [plain_signature] in an ERC-6492 wrapper: factory, two offsets, four
    bytes of factory call data, the signature, the magic bytes. *)
Definition wrapped : Hex :=
  ("0x"
   ++ "000000000000000000000000d703aae79538628d27099b8c4f621be4ccd142d5"
   ++ "0000000000000000000000000000000000000000000000000000000000000060"
   ++ "00000000000000000000000000000000000000000000000000000000000000a0"
   ++ "0000000000000000000000000000000000000000000000000000000000000004"
   ++ "c5265d5d00000000000000000000000000000000000000000000000000000000"
   ++ "0000000000000000000000000000000000000000000000000000000000000041"
   ++ Str.strip_0x plain_signature
   ++ "00000000000000000000000000000000000000000000000000000000000000"
   ++ erc6492MagicBytes)%string.

Definition word (z : Z) : Hex :=
  ("0x" ++ Str.padStart0 64 (Str.toString 16 z))%string.

(** A chain whose paymaster reports the surcharge [charge], whose bundler
    estimates [estimate] for the post-op gas, and where the account holds
    [held] units of USDC. *)
Definition chain (charge : Z) (estimate : option Z) (held : Z) (ok : bool) : Chain :=
  mkChain (Str.strip_0x key)
          (mkContext "USDC" "2" 0 (2 ^ 256 - 1))
          wrapped
          (Some (mkReturn (Some (word charge))))
          (mkPrice "0x5f5e100" "0x0")
          (mkEstimate 90000 60000 250000 estimate (Some 40000))
          "0x8f3c1d2e4b5a69788796a5b4c3d2e1f00f1e2d3c4b5a69788796a5b4c3d2e1f0"
          ok 123456 held 0.

Definition boot (c : Chain) : System Chain := mkSystem initial_page [] c.

(** The runs the examples below look at. *)
Definition recipient : Address := "0x70997970C51812dc3A010C7d01b50e0d17dc79C8".

(** The account holds 100 USDC; the bundler estimates 20000 for the post-op
    gas and the paymaster reports a surcharge of 15000. *)
Definition funded : Chain := chain 15000 (Some 20000) 100000000 true.

(** The paymaster reports a surcharge of 2^53 + 1 and the bundler
    estimates 0. *)
Definition overcharging : Chain := chain (2 ^ 53 + 1) (Some 0) 100000000 true.

Definition no_operation : UserOperation :=
  mkUserOp (mkSmart "" [] "") [] None None None "" "" None None 0 0.

(** A transfer of 10.5 USDC, run to its end. *)
Definition transfer_run : execution UserOperationReceipt Chain :=
  run (transferUSDC key recipient 10500000) (boot funded).

Definition sent : UserOperation :=
  Eval vm_compute in nth 0 (submissions (trace transfer_run)) no_operation.

Definition payload : Hex := Eval vm_compute in uo_paymasterData sent.

(** The same transfer against the overcharging paymaster. *)
Definition overcharged_run : execution UserOperationReceipt Chain :=
  run (transferUSDC key recipient 10500000) (boot overcharging).

Definition overcharged : UserOperation :=
  Eval vm_compute in nth 0 (submissions (trace overcharged_run)) no_operation.

(** The page after [createAccount], and the credential it has cached. *)
Definition created : execution unit Chain := fire createAccount (boot funded).

Definition credential : AccountInfo :=
  Eval vm_compute in
    match account (page (final created)) with
    | Some info => info
    | None => mkAccount "" "" ""
    end.

(** The page with the credential cached and the transfer form filled in. *)
Definition form (amount : string) (c : Chain) : System Chain :=
  mkSystem (mkPage false (Some credential) "" recipient amount "" "100.00") [] c.

End Testnet.

(** ** What a submitted transfer is made of

    The values [transferUSDC] builds on the way to a submission, named as
    in the source. *)
Section Shape.
Context {lib : Library}.

Definition usdc : Contract := getContract createPublicClient ARBITRUM_SEPOLIA_USDC tokenAbi.

Definition bundlerClient : BundlerClient :=
  createBundlerClient createPublicClient ARBITRUM_SEPOLIA_BUNDLER.

Definition kernel_account (owner : LocalAccount) (a : Address) : SmartAccount :=
  mkSmart a [owner] "0.3.1".

Definition signData (a : Address) (ctx : PermitContext) : TypedData :=
  with_primaryType
    (mkPermitData
       (mkDomain (context_name ctx) (context_version ctx) arbitrumSepolia_id
                 (contract_address usdc))
       (mkPermit a ARBITRUM_SEPOLIA_PAYMASTER MAX_GAS_USDC
                 (context_nonce ctx) (context_deadline ctx)))
    "Permit".

Definition calls (recipientAddress : string) (amount : Z) : list CallSpec :=
  [mkCall (contract_address usdc) (contract_abi usdc) "transfer" (recipientAddress, amount)].

Definition additionalGasCharge_data : Hex :=
  encodeFunctionData ["function additionalGasCharge() returns (uint256)"]
                     "additionalGasCharge".

Definition packed_paymasterData (permitSignature : Hex) : result Hex :=
  Viem.encodePacked
    [Viem.T_uint 8; Viem.T_address; Viem.T_uint 256; Viem.T_bytes]
    [Viem.V_number 0; Viem.V_hex (contract_address usdc);
     Viem.V_number MAX_GAS_USDC; Viem.V_hex permitSignature].

(** [submitted k r a tr op]: the trace [tr] of [transferUSDC k r a] has
    submitted the user operation [op], built from these answers. *)
Inductive submitted (k : Hex) (r : string) (a : Z) (tr : list entry) (op : UserOperation)
  : Prop :=
| Submitted (owner : LocalAccount) (addr : Address) (ctx : PermitContext)
    (wrappedPermitSignature permitSignature paymasterData : Hex)
    (called : option CallReturn) (additionalGasCharge : Z)
    (fees : GasPrice) (maxFeePerGas maxPriorityFeePerGas : Z)
    (est : GasEstimate) (postOpGasLimit : Z)
    (Howner : privateKeyToAccount k = Ok owner)
    (Hunwrap : parseErc6492Signature wrappedPermitSignature = Ok permitSignature)
    (Hpacked : packed_paymasterData permitSignature = Ok paymasterData)
    (Hcharge : Viem.hexToBigInt (call_data (or_default called)) = Ok additionalGasCharge)
    (Hfee : Viem.hexToBigInt (Some (price_maxFeePerGas fees)) = Ok maxFeePerGas)
    (Hpriority : Viem.hexToBigInt (Some (price_maxPriorityFeePerGas fees))
                 = Ok maxPriorityFeePerGas)
    (Hlimit : JS.BigInt_of_Number (JS.Math_max
                (Number_of_optional (est_paymasterPostOpGasLimit est))
                (JS.Number_of_BigInt additionalGasCharge)) = Ok postOpGasLimit)
    (Hderived : derivations tr = [(createPublicClient, [owner], "0.3.1", Ok addr)])
    (Hsigned : signings tr
               = [(kernel_account owner addr, signData addr ctx, Ok wrappedPermitSignature)])
    (Hcalled : eth_calls tr
               = [(ARBITRUM_SEPOLIA_PAYMASTER, additionalGasCharge_data, Ok called)])
    (Hestimated : estimations tr
               = [(mkUserOp (kernel_account owner addr) (calls r a) None None None
                            ARBITRUM_SEPOLIA_PAYMASTER paymasterData
                            None (Some additionalGasCharge) 1 1, Ok est)])
    (Hsubmitted : submissions tr = [op])
    (Hop : op = mkUserOp (kernel_account owner addr) (calls r a)
                         (Some (est_callGasLimit est))
                         (Some (est_preVerificationGas est))
                         (Some (est_verificationGasLimit est))
                         ARBITRUM_SEPOLIA_PAYMASTER paymasterData
                         (est_paymasterVerificationGasLimit est)
                         (Some postOpGasLimit)
                         maxFeePerGas maxPriorityFeePerGas).

End Shape.

(** ** What the page's handlers are held to *)
Section Outcome.
Context {lib : Library} {W : Type} {env : Environment W}.

(** How the call of the executor inside [transfer] ends: with what
    [transferUSDC] returns or throws, or with what is thrown on the way to
    it. *)
Definition transfer_outcome (st : PageState) (s : System W)
  : outcome UserOperationReceipt :=
  match amountInWei (amount st), account_privateKey (account st) with
  | Ok a, Ok k =>
      ended (run (transferUSDC k (recipientAddress st) a)
                 (apply_action (SetStatus "Initiating transfer...")
                               (apply_action (SetLoading true) s)))
  | Err e, _ => Threw e
  | Ok _, Err e => Threw e
  end.

(** The executor returned a receipt with [success = true]. *)
Definition succeeded (o : outcome UserOperationReceipt) : bool :=
  match o with
  | Returned rc => success rc
  | Threw _ => false
  end.

(** The values [setLoading] was called with, in order. *)
Fixpoint loading_changes (l : list action) : list bool :=
  match l with
  | SetLoading b :: rest => b :: loading_changes rest
  | _ :: rest => loading_changes rest
  | [] => []
  end.

(** The setter of the cached credential. *)
Definition sets_account (a : action) : bool :=
  match a with
  | SetAccount _ => true
  | _ => false
  end.

(** [setRecipientAddress('')] and [setAmount('')]. *)
Definition clears_recipient (a : action) : bool :=
  match a with
  | SetRecipientAddress EmptyString => true
  | _ => false
  end.

Definition clears_amount (a : action) : bool :=
  match a with
  | SetAmount EmptyString => true
  | _ => false
  end.

Definition is_log (a : action) : bool :=
  match a with
  | ConsoleLog _ => true
  | _ => false
  end.

Definition keeps_loading (a : action) : bool :=
  match a with
  | SetLoading _ => false
  | _ => true
  end.

(** Every action a program can perform satisfies [P]. *)
Fixpoint only {R : Type} (P : action -> bool) (p : prog R) : Prop :=
  match p with
  | Ret _ | Throw _ => True
  | Do a k => P a = true /\ only P k
  | Ask q k => forall r, only P (k r)
  end.

(** Executions in sequence, as [bind], [try_catch] and [try_finally]
    compose them. *)
Definition and_then {R R' : Type} (x : execution R W)
    (f : R -> System W -> execution R' W) : execution R' W :=
  match ended x with
  | Returned a =>
      let y := f a (final x) in mkExec (ended y) (final y) (trace x ++ trace y)
  | Threw e => mkExec (Threw e) (final x) (trace x)
  end.

Definition or_else {R : Type} (x : execution R W)
    (h : js_error -> System W -> execution R W) : execution R W :=
  match ended x with
  | Returned _ => x
  | Threw e =>
      let y := h e (final x) in mkExec (ended y) (final y) (trace x ++ trace y)
  end.

Definition at_last {R : Type} (x : execution R W) (y : execution unit W)
  : execution R W :=
  mkExec (match ended y with Returned _ => ended x | Threw e => Threw e end)
         (final y) (trace x ++ trace y).

(** The busy flag no longer disables the transfer button. *)
Definition unlocked (p : PageState) : Prop :=
  transfer_disabled p
  = (negb (truthy (recipientAddress p)) || negb (truthy (amount p))).

(** A handler that holds the busy flag from its first effect to its last
    and ends without an exception. *)
Definition releases_lock (x : execution unit W) : Prop :=
  ended x = Returned tt
  /\ hd_error (trace x) = Some (Did (SetLoading true))
  /\ last (trace x) (Did (SetLoading true)) = Did (SetLoading false)
  /\ loading_changes (actions (trace x)) = [true; false]
  /\ loading (page (final x)) = false.

End Outcome.

(** ** More of what a trace shows *)

(** The submissions, each with the bundler's answer. *)
Fixpoint sends (tr : list entry) : list (UserOperation * result Hex) :=
  match tr with
  | Asked (SendUserOperation _ op) r :: rest => (op, r) :: sends rest
  | _ :: rest => sends rest
  | [] => []
  end.

(** The receipts awaited, by hash, each with the bundler's answer. *)
Fixpoint waits (tr : list entry) : list (Hex * result UserOperationReceipt) :=
  match tr with
  | Asked (WaitForUserOperationReceipt _ h) r :: rest => (h, r) :: waits rest
  | _ :: rest => waits rest
  | [] => []
  end.

(** The answers to the gas price request. *)
Fixpoint gas_prices (tr : list entry) : list (result GasPrice) :=
  match tr with
  | Asked (GetUserOperationGasPrice _) r :: rest => r :: gas_prices rest
  | _ :: rest => gas_prices rest
  | [] => []
  end.

(** The keys generated. *)
Fixpoint generated (tr : list entry) : list (result Hex) :=
  match tr with
  | Asked GeneratePrivateKey r :: rest => r :: generated rest
  | _ :: rest => generated rest
  | [] => []
  end.

(** The error of a request that was refused. *)
Definition rejected (e : entry) : option js_error :=
  match e with
  | Asked _ (Err err) => Some err
  | _ => None
  end.

Fixpoint rejections (tr : list entry) : list js_error :=
  match tr with
  | e :: rest =>
      match rejected e with
      | Some err => err :: rejections rest
      | None => rejections rest
      end
  | [] => []
  end.

(** The lines written to the console. *)
Fixpoint logged (l : list action) : list (list js_value) :=
  match l with
  | ConsoleLog args :: rest => args :: logged rest
  | _ :: rest => logged rest
  | [] => []
  end.

(** A program without a handler of its own: a refused request is thrown
    on as it is. *)
Fixpoint strict {R : Type} (p : prog R) : Prop :=
  match p with
  | Ret _ | Throw _ => True
  | Do _ k => strict k
  | Ask q k => (forall e, k (Err e) = Throw e) /\ (forall x, strict (k (Ok x)))
  end.

(** ** A network that fails

    The test network behind a link that carries a given number of requests
    and refuses every one after them. *)
Module Outage.
Import Testnet.

Definition World : Type := (nat * Testnet.Chain)%type.

Definition respond (q : request) (w : World) : result (response q) * World :=
  match fst w with
  | O => (Err (Rejected "request failed"), w)
  | S n => let '(r, c) := Testnet.respond q (snd w) in (r, (n, c))
  end.

#[export] Instance environment : Environment World := { answer := respond }.

(** The page of [Testnet.form] on a link good for [n] requests. *)
Definition form (n : nat) (amount : string) : System World :=
  mkSystem (page (Testnet.form amount Testnet.funded)) [] (n, Testnet.funded).

(** A transfer cut off after its first six requests: the submission is
    refused. *)
Definition cut_run : execution UserOperationReceipt World :=
  run (transferUSDC Testnet.key Testnet.recipient 10500000)
      (mkSystem initial_page [] (6%nat, Testnet.funded)).

(** The account created over a link that carries the two requests of
    [createAccount] and is down from then on. *)
Definition created : execution unit World :=
  fire createAccount (mkSystem initial_page [] (2%nat, Testnet.funded)).


End Outage.

(** Chains of the test network with an unusual paymaster or bundler. *)
Module Odd.
Import Testnet.

Definition with_answer (a : option CallReturn) : Chain :=
  mkChain (next_key_digits funded) (permit_context funded) (wrapped_signature funded) a
          (gas_price funded) (gas_estimate funded) (operation_hash funded)
          (operation_succeeds funded) (paymaster_fee funded) (usdc_held funded)
          (pending funded).

(** The node answers the call with nothing at all. *)
Definition silent : Chain := with_answer None.

(** The node answers the call without data. *)
Definition dataless : Chain := with_answer (Some (mkReturn None)).

(** The bundler estimates no post-op gas. *)
Definition unestimated : Chain := chain 15000 None 100000000 true.

Definition run_on (c : Chain) : execution UserOperationReceipt Chain :=
  run (transferUSDC key recipient 10500000) (boot c).

(** The user operation whose gas the bundler is asked to estimate. *)
Definition to_estimate : UserOperation :=
  Eval vm_compute in
    match estimations (trace (run_on unestimated)) with
    | (op, _) :: _ => op
    | [] => no_operation
    end.

End Odd.

(** The requests of a trace with their answers, state changes left out. *)
Definition is_request (e : entry) : bool :=
  match e with
  | Asked _ _ => true
  | Did _ => false
  end.

Definition requests (tr : list entry) : list entry := filter is_request tr.

(** What [transfer] shows when the executor has ended. *)
Definition transfer_report (o : outcome UserOperationReceipt) : string :=
  match o with
  | Returned rc =>
      if success rc then "Transfer completed successfully!"
      else "Transfer failed. Please try again."
  | Threw e => "Error during transfer: " ++ message e
  end.

(** ** Numbers on display: [Number(s)] and [x.toFixed(f)] *)
Module Display.

(** The exponent part of a literal that ends with it; a literal may also
    have none. *)
Definition exponent_part (s : string) : option Z :=
  match s with
  | EmptyString => Some 0
  | String c r =>
      if orb (Ascii.eqb c "e") (Ascii.eqb c "E") then
        let '(neg, r') := JS.read_sign r in
        let '(v, count, rest) := JS.read_digits r' 0 0 in
        if count =? 0 then None
        else match rest with
             | EmptyString => Some (if neg then - v else v)
             | _ => None
             end
      else None
  end.

(** A signed decimal literal, all of [t]; NaN when [t] is none. *)
Definition decimal_literal (t : string) : JS.Number :=
  let '(neg, s1) := JS.read_sign t in
  if String.eqb s1 "Infinity" then S754_infinity neg else
  let '(ip, icount, s2) := JS.read_digits s1 0 0 in
  let '(m, fcount, s3) :=
    match s2 with
    | String "." r => JS.read_digits r ip 0
    | _ => (ip, 0, s2)
    end in
  if icount + fcount =? 0 then JS.NaN
  else match exponent_part s3 with
       | Some e => JS.Number_of_decimal neg m (e - fcount)
       | None => JS.NaN
       end.

(** A literal in radix 16, 8 or 2, if [t] has the prefix of one. *)
Definition radix_literal (t : string) : option JS.Number :=
  match t with
  | String "0" (String c r) =>
      let radix :=
        if orb (Ascii.eqb c "x") (Ascii.eqb c "X") then Some 16
        else if orb (Ascii.eqb c "o") (Ascii.eqb c "O") then Some 8
        else if orb (Ascii.eqb c "b") (Ascii.eqb c "B") then Some 2
        else None in
      match radix, r with
      | None, _ => None
      | Some _, EmptyString => Some JS.NaN
      | Some b, _ =>
          Some (match Str.read_radix b r 0 with
                | Some v => JS.Number_of_BigInt v
                | None => JS.NaN
                end)
      end
  | _ => None
  end.

(** [Number(s)] for a string: white space around the literal is dropped,
    the empty string is [+0] and what is no numeric literal is NaN. *)
Definition Number_of_string (s : string) : JS.Number :=
  match Str.trim_end (JS.trim_start s) with
  | EmptyString => S754_zero false
  | t =>
      match radix_literal t with
      | Some x => x
      | None => decimal_literal t
      end
  end.

(** The integer nearest to [m * 2^e * 10^f], the larger one of two. *)
Definition scaled (f : nat) (m : positive) (e : Z) : Z :=
  let v := Zpos m * 10 ^ Z.of_nat f in
  if 0 <=? e then v * 2 ^ e
  else (2 * v + 2 ^ (- e)) / 2 ^ (- e + 1).

(** The digits of [n >= 0] with a point in front of the last [f]. *)
Definition fixed (f : nat) (n : Z) : string :=
  let m := Str.toString 10 n in
  match f with
  | O => m
  | _ =>
      let m := Str.padStart0 (S f) m in
      let k := (String.length m - f)%nat in
      Str.take k m ++ "." ++ Str.slice k m
  end.

Definition at_least_1e21 (m : positive) (e : Z) : bool :=
  if 0 <=? e then 10 ^ 21 <=? Zpos m * 2 ^ e
  else 10 ^ 21 * 2 ^ (- e) <=? Zpos m.

Definition same (x y : JS.Number) : bool :=
  match SFcompare x y with
  | Some Eq => true
  | _ => false
  end.

(** The fewest digits [s], with the position [n] of the point, such that
    [s * 10^(n - k)] is read back as [x]; [N] is the integer [x] holds and
    [k] the number of digits tried. *)
Fixpoint shortest (fuel : nat) (k : Z) (x : JS.Number) (N n : Z) : Z * Z :=
  let unit := 10 ^ (n - k) in
  let lo := N / unit in
  let hi := lo + 1 in
  let pick_hi := if hi =? 10 ^ k then (10 ^ (k - 1), n + 1) else (hi, n) in
  match fuel with
  | O => (lo, n)
  | S fuel' =>
      match same x (JS.Number_of_BigInt (lo * unit)), same x (JS.Number_of_BigInt (hi * unit)) with
      | true, true =>
          match (N - lo * unit) ?= (hi * unit - N) with
          | Lt => (lo, n)
          | Gt => pick_hi
          | Eq => if Z.even lo then (lo, n) else pick_hi
          end
      | true, false => (lo, n)
      | false, true => pick_hi
      | false, false => shortest fuel' (k + 1) x N n
      end
  end.

(** [String(x)] for a number [x >= 10^21], which holds the integer [N]:
    the shortest digits that read back as [x], in exponent notation. *)
Definition exponential (x : JS.Number) (N : Z) : string :=
  let n := Z.of_nat (String.length (Str.toString 10 N)) in
  let '(s, n') := shortest 17 1 x N n in
  match Str.toString 10 s with
  | String d rest =>
      String d (match rest with EmptyString => "" | _ => "." ++ rest end)
      ++ "e+" ++ Str.toString 10 (n' - 1)
  | EmptyString => ""
  end.

(** [x.toFixed(f)]: a RangeError unless [0 <= f <= 100]. *)
Definition toFixed (f : nat) (x : JS.Number) : result string :=
  if (100 <? f)%nat
  then Err (RangeError "toFixed() digits argument must be between 0 and 100")
  else Ok
    match x with
    | S754_nan => "NaN"
    | S754_infinity false => "Infinity"
    | S754_infinity true => "-Infinity"
    | S754_zero _ => fixed f 0
    | S754_finite s m e =>
        (if s then "-" else "")
        ++ (if at_least_1e21 m e
            then exponential (S754_finite false m e) (Zpos m * 2 ^ e)
            else fixed f (scaled f m e))
    end.

End Display.

(** ** The balance on display: [fetchBalance] *)

(** The one entry of the ABI [fetchBalance] reads with. *)
Definition balanceOf_abi : list string :=
  ["function balanceOf(address account) view returns (uint256)"].

(** [fetchBalance], run by the effect and by its interval.  It yields
    what it hands to [setUsdcBalance], and nothing when it returns at its
    first line. *)
Definition fetchBalance (st : PageState) : prog (option string) :=
  match account st with
  | Some info =>
      if truthy (address info) then
        let client := createPublicClient in
        balance <- await (BalanceOf (mkContract client ARBITRUM_SEPOLIA_USDC balanceOf_abi)
                                    (address info)) ;;
        formattedBalance <-
          lift (Display.toFixed 2 (Display.Number_of_string (Viem.formatUnits balance 6))) ;;
        Ret (Some formattedBalance)
      else Ret None
  | None => Ret None
  end.

(** [setUsdcBalance(v)]. *)
Definition set_usdcBalance (v : string) (p : PageState) : PageState :=
  mkPage (loading p) (account p) (balance p) (recipientAddress p) (amount p) (status p) v.

(** ** The page in the browser

    Between two requests a handler runs without interruption; while it
    waits for an answer the user may click and type, the interval may fire
    and other answers may arrive.  A session is a sequence of such events,
    in any order.  [Tick] is the effect or its interval calling the
    [fetchBalance] of the page as it is rendered then. *)
Inductive event : Type :=
| ClickCreateAccount
| ClickTransfer
| ChangeRecipient (value : string)
| ChangeAmount (value : string)
| Tick
| ReplyToHandler (i : nat)
| ReplyToFetch (i : nat).

(** The Transfer tab, with the two inputs and the transfer button, can be
    opened once there is an account: [disabled={!account}]. *)
Definition transfer_tab (st : PageState) : bool :=
  match account st with
  | Some _ => true
  | None => false
  end.

Definition suspended {R : Type} (p : prog R) : bool :=
  match p with
  | Ask _ _ => true
  | _ => false
  end.

(** What stays in flight of a handler or a read that has run up to [p]. *)
Definition keep {R : Type} (p : prog R) : list (prog R) :=
  if suspended p then [p] else [].

(** [l] with [new] in the place of its element [i]. *)
Fixpoint put {A : Type} (i : nat) (new : list A) (l : list A) : list A :=
  match l, i with
  | _ :: rest, O => (new ++ rest)%list
  | x :: rest, S i' => x :: put i' new rest
  | [], _ => []
  end.

Section Browser.
Context {lib : Library} {W : Type} {env : Environment W}.

(** The page, the handlers and the balance reads that wait for an answer,
    and all that has happened. *)
Record Browser : Type := mkBrowser {
  screen : System W;
  handlers : list (prog unit);
  fetches : list (prog (option string));
  history : list entry
}.

(** Runs [p] up to its next request or to its end. *)
Fixpoint sync {R : Type} (p : prog R) (s : System W) : prog R * System W * list entry :=
  match p with
  | Do a k =>
      let '(p', s', tr) := sync k (apply_action a s) in
      (p', s', Did a :: tr)
  | _ => (p, s, [])
  end.

(** Answers the request [p] waits for and runs [p] on from there. *)
Definition resume {R : Type} (p : prog R) (s : System W) : prog R * System W * list entry :=
  match p with
  | Ask q k =>
      let '(r, w) := answer q (world s) in
      let '(p', s', tr) := sync (k r) (mkSystem (page s) (console s) w) in
      (p', s', Asked q r :: tr)
  | _ => (p, s, [])
  end.

(** The last line of [fetchBalance], once it gets there. *)
Definition settle (p : prog (option string)) (s : System W) : System W :=
  match p with
  | Ret (Some v) => mkSystem (set_usdcBalance v (page s)) (console s) (world s)
  | _ => s
  end.

Definition start (p : prog unit) (b : Browser) : Browser :=
  let '(p', s', tr) := sync p (screen b) in
  mkBrowser s' (handlers b ++ keep p') (fetches b) (history b ++ tr).

(** What an event starts: the handler the element was rendered with, on
    the state of that render. *)
Definition step (b : Browser) (e : event) : Browser :=
  let st := page (screen b) in
  match e with
  | ClickCreateAccount => start (click_createAccount st) b
  | ClickTransfer => start (if transfer_tab st then click_transfer st else Ret tt) b
  | ChangeRecipient v =>
      start (if transfer_tab st then perform (SetRecipientAddress v) else Ret tt) b
  | ChangeAmount v =>
      start (if transfer_tab st then perform (SetAmount v) else Ret tt) b
  | Tick =>
      let '(p', s', tr) := sync (fetchBalance st) (screen b) in
      mkBrowser (settle p' s') (handlers b) (fetches b ++ keep p') (history b ++ tr)
  | ReplyToHandler i =>
      match nth_error (handlers b) i with
      | Some p =>
          let '(p', s', tr) := resume p (screen b) in
          mkBrowser s' (put i (keep p') (handlers b)) (fetches b) (history b ++ tr)
      | None => b
      end
  | ReplyToFetch i =>
      match nth_error (fetches b) i with
      | Some p =>
          let '(p', s', tr) := resume p (screen b) in
          mkBrowser (settle p' s') (handlers b) (put i (keep p') (fetches b))
                    (history b ++ tr)
      | None => b
      end
  end.

Definition session (events : list event) (b : Browser) : Browser :=
  fold_left step events b.

(** The page as it is loaded. *)
Definition opened (w : W) : Browser :=
  mkBrowser (mkSystem initial_page [] w) [] [] [].

End Browser.
Arguments Browser W : clear implicits.

(** ** What a handler in flight may still do *)

(** The requests of the provisioner. *)
Definition provisioning (q : request) : bool :=
  match q with
  | GeneratePrivateKey | ToEcdsaKernelSmartAccount _ _ _ => true
  | _ => false
  end.

Definition provisioned (e : entry) : bool :=
  match e with
  | Asked q _ => provisioning q
  | Did _ => true
  end.

(** [p] does not set the account. *)
Definition never_sets {R : Type} (p : prog R) : Prop :=
  only (fun a => negb (sets_account a)) p.

(** [p] does not act on the page at all. *)
Definition silent {R : Type} (p : prog R) : Prop := only (fun _ => false) p.

(** [p] holds the busy flag: it leaves the flag alone up to its last
    effect, which is [setLoading(false)]. *)
Fixpoint releasing (p : prog unit) : Prop :=
  match p with
  | Ret _ | Throw _ => False
  | Do (SetLoading b) k => b = false /\ k = Ret tt
  | Do _ k => releasing k
  | Ask _ k => forall r, releasing (k r)
  end.

(** [p] asks for keys and derivations only, up to the one time it sets the
    account, to a credential. *)
Fixpoint provisions (p : prog unit) : Prop :=
  match p with
  | Ret _ | Throw _ => True
  | Do (SetAccount v) k => v <> None /\ never_sets k
  | Do _ k => provisions k
  | Ask q k => provisioning q = true /\ forall r, provisions (k r)
  end.

(** The rendering of a balance that [fetchBalance] displays. *)
Definition displayed (units : Z) : result string :=
  Display.toFixed 2 (Display.Number_of_string (Viem.formatUnits units 6)).

(** The setter calls with a credential, in order. *)
Definition account_sets (tr : list entry) : list action :=
  filter sets_account (actions tr).

(** The busy flag is raised when it is down and lowered when it is up. *)
Fixpoint alternates (now : bool) (l : list bool) : bool :=
  match l with
  | [] => true
  | b :: rest => Bool.eqb b (negb now) && alternates b rest
  end.

(** What holds of the page in every state of a session. *)
Record Invariant {lib : Library} {W : Type} {env : Environment W} (b : Browser W) : Prop := {
  inv_suspended : Forall (fun p => suspended p = true) (handlers b);
  inv_releasing : Forall releasing (handlers b);
  inv_lock :
    (handlers b = [] /\ loading (page (screen b)) = false)
    \/ (exists p, handlers b = [p] /\ loading (page (screen b)) = true);
  inv_flag :
    alternates false (loading_changes (actions (history b))) = true
    /\ last (loading_changes (actions (history b))) false = loading (page (screen b));
  inv_account :
    account_sets (history b)
    = match account (page (screen b)) with
      | Some info => [SetAccount (Some info)]
      | None => []
      end;
  inv_handlers :
    match account (page (screen b)) with
    | Some _ => Forall never_sets (handlers b)
    | None =>
        Forall provisions (handlers b)
        /\ fetches b = []
        /\ forallb provisioned (history b) = true
    end;
  inv_fetches : Forall (fun p => p = fetchBalance (page (screen b))) (fetches b);
  inv_display :
    usdcBalance (page (screen b)) = "0.00"
    \/ exists info token units,
         account (page (screen b)) = Some info
         /\ In (Asked (BalanceOf token (address info)) (Ok units)) (history b)
         /\ displayed units = Ok (usdcBalance (page (screen b)))
}.

(** ** A session on a network that fails *)
Module SessionOutage.


End SessionOutage.

(** * Properties *)

(** ** Numbers below 2^53 are exact *)
Section Exact.
Import JS.

Lemma digits2_size (p : positive) : digits2_pos p = Pos.size p.
Proof. induction p; simpl; congruence. Qed.

Lemma iter_xO_value (k p : positive) : Zpos (Pos.iter xO p k) = Zpos p * 2 ^ Zpos k.
Proof.
  change (Pos.iter xO p k) with (shift_pos k p).
  rewrite shift_pos_correct, Zpower_pos_nat, Zpower_nat_Z, positive_nat_Z. lia.
Qed.

Lemma iter_xO_digits (k p : positive) :
  Zpos (digits2_pos (Pos.iter xO p k)) = Zpos (digits2_pos p) + Zpos k.
Proof.
  induction k as [|k IH] using Pos.peano_ind.
  - simpl. lia.
  - rewrite Pos.iter_succ. simpl digits2_pos. lia.
Qed.

Lemma digits_bounds (p : positive) :
  2 ^ (Zpos (digits2_pos p) - 1) <= Zpos p < 2 ^ Zpos (digits2_pos p).
Proof.
  rewrite digits2_size. split.
  - assert (H : Zpos (2 ^ Pos.size p) <= Zpos p~0) by exact (Pos.size_le p).
    rewrite Pos2Z.inj_pow in H.
    replace (Zpos (Pos.size p)) with (Z.succ (Zpos (Pos.size p) - 1)) in H by lia.
    rewrite Z.pow_succ_r in H by lia. lia.
  - assert (H : Zpos p < Zpos (2 ^ Pos.size p)) by exact (Pos.size_gt p).
    now rewrite Pos2Z.inj_pow in H.
Qed.

Lemma digits_safe (p : positive) : Zpos p < 2 ^ 53 -> Zpos (digits2_pos p) <= 53.
Proof.
  intros H. pose proof (digits_bounds p) as [Hl _].
  destruct (Z_le_gt_dec (Zpos (digits2_pos p)) 53) as [|Hgt]; [assumption|exfalso].
  assert (2 ^ 53 <= 2 ^ (Zpos (digits2_pos p) - 1)) by (apply Z.pow_le_mono_r; lia).
  lia.
Qed.

(** A mantissa of exactly 53 digits in the exponent range is kept as is. *)
Lemma round_aux_exact (m : positive) (e : Z) :
  Zpos (digits2_pos m) = 53 -> -1074 <= e <= 971 ->
  binary_round_aux prec emax false (Zpos m) e loc_Exact = S754_finite false m e.
Proof.
  intros Hd He. unfold binary_round_aux, shr_fexp, fexp, emin, prec, emax.
  cbn [Zdigits2 shr_record_of_loc]. rewrite Hd.
  replace (Z.max (53 + e - 53) (3 - 1024 - 53) - e) with 0 by lia.
  cbn [shr shr_m loc_of_shr_record round_nearest_even Zdigits2]. rewrite Hd.
  replace (Z.max (53 + e - 53) (3 - 1024 - 53) - e) with 0 by lia.
  cbn [shr shr_m shr_record_of_loc].
  replace (e <=? 1024 - 53) with true by (symmetry; apply Z.leb_le; lia).
  reflexivity.
Qed.

Lemma Number_of_safe (p : positive) :
  Zpos p < 2 ^ 53 ->
  exists m, Number_of_BigInt (Zpos p) = S754_finite false m (exponent_of p)
            /\ Zpos m = Zpos p * 2 ^ (- exponent_of p)
            /\ Zpos (digits2_pos m) = 53.
Proof.
  intros H. pose proof (digits_safe p H) as Hd. unfold exponent_of.
  unfold Number_of_BigInt, binary_normalize, binary_round, shl_align, fexp, emin, prec, emax.
  replace (Z.max (Zpos (digits2_pos p) + 0 - 53) (3 - 1024 - 53) - 0)
    with (Zpos (digits2_pos p) - 53) by lia.
  replace (Z.max (Zpos (digits2_pos p) + 0 - 53) (3 - 1024 - 53))
    with (Zpos (digits2_pos p) - 53) by lia.
  destruct (Zpos (digits2_pos p) - 53) as [|k|k] eqn:Hk; try lia.
  - exists p. split; [|split].
    + apply round_aux_exact; lia.
    + simpl. lia.
    + lia.
  - exists (Pos.iter xO p k). split; [|split].
    + apply round_aux_exact; [rewrite iter_xO_digits|]; lia.
    + rewrite iter_xO_value. reflexivity.
    + rewrite iter_xO_digits. lia.
Qed.

Lemma BigInt_of_Number_of_safe (z : Z) :
  0 <= z < 2 ^ 53 -> BigInt_of_Number (Number_of_BigInt z) = Ok z.
Proof.
  intros [H0 H1]. destruct z as [|p|p]; try lia; [reflexivity|].
  destruct (Number_of_safe p H1) as (m & -> & Hm & Hd).
  pose proof (digits_safe p H1). unfold exponent_of in *.
  unfold BigInt_of_Number.
  destruct (0 <=? Zpos (digits2_pos p) - 53) eqn:E.
  - apply Z.leb_le in E. replace (Zpos (digits2_pos p) - 53) with 0 in * by lia.
    simpl in Hm. simpl. f_equal. lia.
  - apply Z.leb_gt in E. rewrite Hm.
    rewrite Z.mod_mul, Z.div_mul by (apply Z.pow_nonzero; lia). reflexivity.
Qed.

Lemma compare_of_safe (a b : Z) :
  0 <= a < 2 ^ 53 -> 0 <= b < 2 ^ 53 ->
  SFcompare (Number_of_BigInt a) (Number_of_BigInt b) = Some (a ?= b).
Proof.
  intros [Ha0 Ha] [Hb0 Hb].
  destruct a as [|p|p], b as [|q|q]; try lia.
  - reflexivity.
  - destruct (Number_of_safe q Hb) as (m & -> & _). reflexivity.
  - destruct (Number_of_safe p Ha) as (m & -> & _). reflexivity.
  - destruct (Number_of_safe p Ha) as (m & -> & Hm & Hdm).
    destruct (Number_of_safe q Hb) as (n & -> & Hn & Hdn).
    pose proof (digits_safe p Ha). pose proof (digits_safe q Hb).
    pose proof (digits_bounds p) as [Hpl Hpu]. pose proof (digits_bounds q) as [Hql Hqu].
    unfold exponent_of in *. cbn [SFcompare]. f_equal.
    destruct (Z.compare_spec (Zpos (digits2_pos p) - 53) (Zpos (digits2_pos q) - 53)) as [E|E|E].
    + rewrite E in Hm. change (Pos.compare_cont Eq m n) with (Zpos m ?= Zpos n).
      rewrite Hm, Hn. set (c := 2 ^ (- (Zpos (digits2_pos q) - 53))).
      assert (0 < c) by (apply Z.pow_pos_nonneg; lia).
      destruct (Z.compare_spec (Zpos p) (Zpos q)) as [E'|E'|E'].
      * rewrite E'. apply Z.compare_refl.
      * apply Z.compare_lt_iff. nia.
      * apply Z.compare_gt_iff. nia.
    + symmetry. apply Z.compare_lt_iff.
      assert (2 ^ Zpos (digits2_pos p) <= 2 ^ (Zpos (digits2_pos q) - 1))
        by (apply Z.pow_le_mono_r; lia).
      lia.
    + symmetry. apply Z.compare_gt_iff.
      assert (2 ^ Zpos (digits2_pos q) <= 2 ^ (Zpos (digits2_pos p) - 1))
        by (apply Z.pow_le_mono_r; lia).
      lia.
Qed.

(** [BigInt(Math.max(Number(a), Number(b)))] is the larger of [a] and [b]
    while both convert exactly. *)
Lemma Math_max_of_safe (a b : Z) :
  0 <= a < 2 ^ 53 -> 0 <= b < 2 ^ 53 ->
  BigInt_of_Number (Math_max (Number_of_BigInt a) (Number_of_BigInt b)) = Ok (Z.max a b).
Proof.
  intros Ha Hb. unfold Math_max. rewrite (compare_of_safe a b Ha Hb).
  unfold Z.max. destruct (a ?= b) eqn:E.
  - assert (Hx : match Number_of_BigInt a with
                 | S754_zero true => Number_of_BigInt b
                 | _ => Number_of_BigInt a
                 end = Number_of_BigInt a).
    { destruct a as [|p|p]; try lia; [reflexivity|].
      destruct (Number_of_safe p (proj2 Ha)) as (m & -> & _). reflexivity. }
    rewrite Hx. now apply BigInt_of_Number_of_safe.
  - now apply BigInt_of_Number_of_safe.
  - now apply BigInt_of_Number_of_safe.
Qed.

End Exact.

(** ** Digits *)
Section Digits.
Import Str.

Lemma digit_in_digit_char (radix d : Z) :
  0 <= d < radix -> radix <= 16 -> digit_in radix (digit_char d) = Some d.
Proof.
  intros Hd Hr.
  assert (H : d = 0 \/ d = 1 \/ d = 2 \/ d = 3 \/ d = 4 \/ d = 5 \/ d = 6 \/ d = 7 \/
              d = 8 \/ d = 9 \/ d = 10 \/ d = 11 \/ d = 12 \/ d = 13 \/ d = 14 \/ d = 15)
    by lia.
  assert (Hlt : (d <? radix) = true) by (apply Z.ltb_lt; lia).
  unfold digit_in. cbv zeta.
  assert (Hv : digit_value (digit_char d) = d)
    by (repeat (destruct H as [->|H]); try subst d; reflexivity).
  now rewrite Hv, Hlt.
Qed.

Lemma read_digits_of_pos (fuel : nat) (radix z : Z) (acc : string) :
  2 <= radix <= 16 -> 0 <= z < 2 ^ Z.of_nat fuel ->
  read_radix radix (digits_of_pos fuel radix z acc) 0 = read_radix radix acc z.
Proof.
  intros Hr. revert z acc. induction fuel as [|fuel IH]; intros z acc Hz.
  - cbn in Hz. now replace z with 0 by lia.
  - cbn [digits_of_pos]. destruct (z <? radix) eqn:E.
    + apply Z.ltb_lt in E. rewrite Z.mod_small by lia.
      cbn [read_radix]. rewrite digit_in_digit_char by lia. f_equal. lia.
    + apply Z.ltb_ge in E. rewrite IH.
      * cbn [read_radix]. rewrite digit_in_digit_char.
        -- f_equal. rewrite (Z.div_mod z radix) at 3 by lia. reflexivity.
        -- apply Z.mod_pos_bound. lia.
        -- lia.
      * rewrite Nat2Z.inj_succ, Z.pow_succ_r in Hz by lia. split.
        -- apply Z.div_pos; lia.
        -- apply Z.div_lt_upper_bound; nia.
Qed.

(** Reading back what [toString] wrote gives the number again: [toString]
    leaves no digit out. *)
Lemma read_toString (radix z : Z) :
  2 <= radix <= 16 -> 0 <= z -> read_radix radix (toString radix z) 0 = Some z.
Proof.
  intros Hr Hz. unfold toString.
  replace (z <? 0) with false by (symmetry; apply Z.ltb_ge; lia).
  rewrite Z.abs_eq by lia. rewrite read_digits_of_pos; [reflexivity|assumption|].
  split; [assumption|].
  destruct (Z.eq_dec z 0) as [->|Hnz]; [reflexivity|].
  rewrite Nat2Z.inj_succ, Z2Nat.id by apply Z.log2_nonneg.
  apply Z.log2_spec. lia.
Qed.

End Digits.

(** ** Running the transfer service symbolically *)

Ltac exec_unfold :=
  cbn [run bind await lift perform log try_catch try_finally after trace ended final
       toEcdsaKernelSmartAccount eip2612Permit world page console
       submissions estimations eth_calls signings derivations balance_reads
       actions kinds kind_of apply_action app].

(** One more answer of the outside, or one more step that may throw. *)
Ltac exec_step :=
  match goal with
  | |- context [match answer ?q ?w with pair _ _ => _ end] =>
      let r := fresh "r" in let e := fresh "e" in let w' := fresh "w" in
      destruct (answer q w) as [[r|e] w'] eqn:?
  | |- context [lift ?X] => destruct X eqn:?
  end; exec_unfold.

Ltac exec := exec_unfold; repeat exec_step.

Section Transfer.
Context {lib : Library} {W : Type} {env : Environment W}.

Lemma transferUSDC_submitted (k : Hex) (r : string) (a : Z) (s : System W)
    (op : UserOperation) :
  In op (submissions (trace (run (transferUSDC k r a) s))) ->
  submitted k r a (trace (run (transferUSDC k r a) s)) op.
Proof.
  unfold transferUSDC. exec; try (intros []; fail).
  all: intros [<-|[]]; econstructor; try eassumption; reflexivity.
Qed.

(** Whatever paymaster data reaches the bundler was packed from the
    unwrapped answer of the one signing request. *)
Lemma transferUSDC_packs (k : Hex) (r : string) (a : Z) (s : System W) (pd : Hex) :
  In pd (paymaster_payloads (trace (run (transferUSDC k r a) s))) ->
  exists owner addr ctx wrappedPermitSignature permitSignature,
    privateKeyToAccount k = Ok owner
    /\ signings (trace (run (transferUSDC k r a) s))
       = [(kernel_account owner addr, signData addr ctx, Ok wrappedPermitSignature)]
    /\ parseErc6492Signature wrappedPermitSignature = Ok permitSignature
    /\ packed_paymasterData permitSignature = Ok pd.
Proof.
  unfold paymaster_payloads, transferUSDC. exec; cbn [map fst app uo_paymasterData].
  all: try (intros []; fail).
  all: intros H; repeat (destruct H as [<-|H]); try destruct H.
  all: do 5 eexists; repeat split; try eassumption; reflexivity.
Qed.

(** The derivation, the permit read and the signing request behind
    whatever paymaster data reaches the bundler. *)
Lemma transferUSDC_permit (k : Hex) (r : string) (a : Z) (s : System W) (pd : Hex) :
  In pd (paymaster_payloads (trace (run (transferUSDC k r a) s))) ->
  exists owner addr ctx wrappedPermitSignature permitSignature,
    privateKeyToAccount k = Ok owner
    /\ derivations (trace (run (transferUSDC k r a) s))
       = [(createPublicClient, [owner], "0.3.1", Ok addr)]
    /\ permit_reads (trace (run (transferUSDC k r a) s))
       = [(usdc, arbitrumSepolia_id, addr, Ok ctx)]
    /\ signings (trace (run (transferUSDC k r a) s))
       = [(kernel_account owner addr, signData addr ctx, Ok wrappedPermitSignature)]
    /\ parseErc6492Signature wrappedPermitSignature = Ok permitSignature
    /\ packed_paymasterData permitSignature = Ok pd.
Proof.
  unfold paymaster_payloads, transferUSDC.
  exec; cbn [map fst app uo_paymasterData permit_reads].
  all: try (intros []; fail).
  all: intros H; repeat (destruct H as [<-|H]); try destruct H.
  all: do 5 eexists; repeat split; try eassumption; reflexivity.
Qed.

(** Whatever is signed is the permit for the ceiling, by the derived
    account. *)
Lemma transferUSDC_signs (k : Hex) (r : string) (a : Z) (s : System W)
    (signer : SmartAccount) (data : TypedData) (sg : result Hex) :
  In (signer, data, sg) (signings (trace (run (transferUSDC k r a) s))) ->
  exists owner addr ctx,
    privateKeyToAccount k = Ok owner
    /\ derivations (trace (run (transferUSDC k r a) s))
       = [(createPublicClient, [owner], "0.3.1", Ok addr)]
    /\ signer = kernel_account owner addr
    /\ data = signData addr ctx.
Proof.
  unfold transferUSDC. exec; try (intros []; fail).
  all: intros [H|[]]; inversion H; subst.
  all: do 3 eexists; repeat split; try eassumption; reflexivity.
Qed.

(** The network is asked in the order of [pipeline], as far as the run
    gets. *)
Lemma transferUSDC_order (k : Hex) (r : string) (a : Z) (s : System W) :
  is_prefix (kinds (trace (run (transferUSDC k r a) s))) pipeline = true.
Proof. unfold transferUSDC. exec; reflexivity. Qed.

(** A run that returns has gone through the whole pipeline: it read the
    balance twice, both times after the receipt, and logged the difference
    of the two readings less the amount. *)
Lemma transferUSDC_returned (k : Hex) (r : string) (a : Z) (s : System W)
    (rc : UserOperationReceipt) :
  ended (run (transferUSDC k r a) s) = Returned rc ->
  kinds (trace (run (transferUSDC k r a) s)) = pipeline
  /\ exists holder usdcBalanceBefore usdcBalanceAfter,
       balance_reads (trace (run (transferUSDC k r a) s))
       = [(holder, Ok usdcBalanceBefore); (holder, Ok usdcBalanceAfter)]
       /\ last (console (final (run (transferUSDC k r a) s))) []
          = [VString "  USDC paid:";
             VString (Viem.formatUnits (usdcBalanceBefore - usdcBalanceAfter - a) 6)].
Proof.
  unfold transferUSDC. exec; try discriminate.
  intros _. split; [reflexivity|]. do 3 eexists. split; [reflexivity|].
  cbn [apply_console]. apply last_last.
Qed.

End Transfer.

(** ** Bytes of hex strings *)
Section Bytes.
Import Packed.

Lemma bytes_of_digits_app (p t : string) (x y : list Byte.byte) :
  bytes_of_digits p = Some x -> bytes_of_digits t = Some y ->
  bytes_of_digits (p ++ t) = Some (x ++ y)%list.
Proof.
  revert p. induction x as [|b x IH]; intros p Hp Ht.
  - destruct p as [|c0 [|c1 p']]; cbn in Hp.
    + exact Ht.
    + discriminate Hp.
    + destruct (Str.digit_in 16 c0), (Str.digit_in 16 c1), (bytes_of_digits p');
        discriminate Hp.
  - destruct p as [|c0 [|c1 p']]; cbn in Hp; try discriminate Hp.
    cbn [append bytes_of_digits].
    destruct (Str.digit_in 16 c0), (Str.digit_in 16 c1); try discriminate Hp.
    destruct (bytes_of_digits p') as [l|] eqn:Hl; try discriminate Hp.
    injection Hp as <- <-. now rewrite (IH p' Hl Ht).
Qed.

Lemma hexToBytes_strip (h : Hex) (x : list Byte.byte) :
  hexToBytes h = Some x -> bytes_of_digits (Str.strip_0x h) = Some x.
Proof.
  destruct h as [|c0 [|c1 rest]]; try discriminate.
  - destruct c0 as [[] [] [] [] [] [] [] []]; discriminate.
  - destruct c0 as [[] [] [] [] [] [] [] []]; try discriminate.
    destruct c1 as [[] [] [] [] [] [] [] []]; try discriminate.
    exact (fun H => H).
Qed.

End Bytes.

(** ** The transfer service: gas limit, permit signature, packed data *)
Section ServiceProperties.
Context {lib : Library} {W : Type} {env : Environment W}.

Lemma encodePacked_paymasterData (sig : Hex) :
  packed_paymasterData sig
  = Ok ("0x" ++ "00"
        ++ Str.strip_0x (Str.toLowerCase ARBITRUM_SEPOLIA_USDC)
        ++ Str.padStart0 64 (Str.toString 16 MAX_GAS_USDC)
        ++ Str.strip_0x sig)%string.
Proof. reflexivity. Qed.

(** C3, as amended.  The post-op gas limit of a submitted user operation is
    the larger of the bundler's estimate and the surcharge the paymaster
    reported, and so at least the surcharge, whenever both are below 2^53,
    the range in which the conversion through [Number] is exact. *)
Theorem postOpGasLimit_is_max_below_2_53 (k : Hex) (r : string) (a : Z) (s : System W)
    (op : UserOperation) :
  In op (submissions (trace (run (transferUSDC k r a) s))) ->
  exists called additionalGasCharge estimated est estimate,
    eth_calls (trace (run (transferUSDC k r a) s))
    = [(ARBITRUM_SEPOLIA_PAYMASTER, additionalGasCharge_data, Ok called)]
    /\ Viem.hexToBigInt (call_data (or_default called)) = Ok additionalGasCharge
    /\ estimations (trace (run (transferUSDC k r a) s)) = [(estimated, Ok est)]
    /\ est_paymasterPostOpGasLimit est = Some estimate
    /\ (0 <= estimate < 2 ^ 53 -> 0 <= additionalGasCharge < 2 ^ 53 ->
        uo_paymasterPostOpGasLimit op = Some (Z.max estimate additionalGasCharge)
        /\ additionalGasCharge <= Z.max estimate additionalGasCharge).
Proof.
  intros H. destruct (transferUSDC_submitted k r a s op H).
  destruct (est_paymasterPostOpGasLimit est) as [estimate|] eqn:Hest.
  - exists called, additionalGasCharge. eexists. exists est, estimate.
    repeat split; try eassumption; try lia.
    subst op. cbn [uo_paymasterPostOpGasLimit]. f_equal.
    cbn [Number_of_optional] in Hlimit.
    rewrite Math_max_of_safe in Hlimit by assumption. congruence.
  - cbn [Number_of_optional] in Hlimit. discriminate Hlimit.
Qed.

(** C4.  The permit signature inside the paymaster data handed to the
    bundler is the answer to the one signing request after
    [parseErc6492Signature] has unwrapped it, and what that request signs
    is the permit's typed data: primary type Permit, the domain of the
    USDC token on Arbitrum Sepolia, and the message of the permit that
    the helper built from its read of the token for the derived account,
    with that account as owner, the paymaster as spender and the ceiling
    as value.  The signer is the Kernel account of the owner of the key.
    The data is what [encodePacked] yields for the unwrapped signature,
    which is all of it from byte 53 on. *)
Theorem permit_signature_is_the_unwrapped_one (k : Hex) (r : string) (a : Z) (s : System W)
    (pd : Hex) :
  In pd (paymaster_payloads (trace (run (transferUSDC k r a) s))) ->
  exists owner addr ctx signer data wrappedPermitSignature permitSignature,
    privateKeyToAccount k = Ok owner
    /\ derivations (trace (run (transferUSDC k r a) s))
       = [(createPublicClient, [owner], "0.3.1", Ok addr)]
    /\ permit_reads (trace (run (transferUSDC k r a) s))
       = [(mkContract createPublicClient ARBITRUM_SEPOLIA_USDC tokenAbi,
           arbitrumSepolia_id, addr, Ok ctx)]
    /\ signings (trace (run (transferUSDC k r a) s))
       = [(signer, data, Ok wrappedPermitSignature)]
    /\ signer = mkSmart addr [owner] "0.3.1"
    /\ smart_owners signer = [owner]
    /\ typed_primaryType data = "Permit"
    /\ typed_domain data
       = mkDomain (context_name ctx) (context_version ctx) arbitrumSepolia_id
                  ARBITRUM_SEPOLIA_USDC
    /\ typed_message data
       = mkPermit addr ARBITRUM_SEPOLIA_PAYMASTER MAX_GAS_USDC
                  (context_nonce ctx) (context_deadline ctx)
    /\ parseErc6492Signature wrappedPermitSignature = Ok permitSignature
    /\ packed_paymasterData permitSignature = Ok pd
    /\ Packed.tail_at 53 pd = ("0x" ++ Str.strip_0x permitSignature)%string.
Proof.
  intros H.
  destruct (transferUSDC_permit k r a s pd H)
    as (o & addr & ctx & w & sig & Ho & Hd & Hr & Hs & Hu & Hp).
  exists o, addr, ctx, (kernel_account o addr), (signData addr ctx), w, sig.
  split; [exact Ho|]. split; [exact Hd|]. split; [exact Hr|]. split; [exact Hs|].
  split; [reflexivity|]. split; [reflexivity|].
  split; [reflexivity|]. split; [reflexivity|]. split; [reflexivity|].
  split; [exact Hu|]. split; [exact Hp|].
  rewrite encodePacked_paymasterData in Hp. injection Hp as <-. reflexivity.
Qed.

(** C5.  The paymaster data handed to the bundler is, in this order, one
    zero byte, the twenty bytes of the token address, the ceiling as an
    unsigned integer of thirty-two bytes, and the bytes of the unwrapped
    permit signature. *)
Theorem paymasterData_layout (k : Hex) (r : string) (a : Z) (s : System W) (pd : Hex) :
  In pd (paymaster_payloads (trace (run (transferUSDC k r a) s))) ->
  exists signer data wrappedPermitSignature permitSignature token,
    signings (trace (run (transferUSDC k r a) s))
    = [(signer, data, Ok wrappedPermitSignature)]
    /\ parseErc6492Signature wrappedPermitSignature = Ok permitSignature
    /\ Packed.hexToBytes ARBITRUM_SEPOLIA_USDC = Some token
    /\ List.length token = 20%nat
    /\ List.length (Packed.big_endian 32 MAX_GAS_USDC) = 32%nat
    /\ forall signature,
         Packed.hexToBytes permitSignature = Some signature ->
         Packed.hexToBytes pd
         = Some ([Byte.x00] ++ token ++ Packed.big_endian 32 MAX_GAS_USDC ++ signature)%list.
Proof.
  intros H.
  destruct (transferUSDC_packs k r a s pd H) as (o & addr & ctx & w & sig & Ho & Hs & Hu & Hp).
  clear H. rewrite encodePacked_paymasterData in Hp. injection Hp as Hp.
  exists (kernel_account o addr), (signData addr ctx), w, sig.
  eexists. split; [eassumption|]. split; [assumption|].
  split; [vm_compute; reflexivity|]. split; [reflexivity|]. split; [reflexivity|].
  intros signature Hsig. apply hexToBytes_strip in Hsig. subst pd.
  change (Packed.hexToBytes _) with
    (Packed.bytes_of_digits
       (("00" ++ Str.strip_0x (Str.toLowerCase ARBITRUM_SEPOLIA_USDC)
         ++ Str.padStart0 64 (Str.toString 16 MAX_GAS_USDC)) ++ Str.strip_0x sig)%string).
  erewrite bytes_of_digits_app; [|vm_compute; reflexivity|exact Hsig].
  reflexivity.
Qed.

(** C6.  The value of every permit that is signed and the ceiling packed
    into every paymaster data handed to the bundler are the one constant
    [MAX_GAS_USDC], which is 1000000, one token at six decimals; so the
    permit never authorizes more than that. *)
Theorem sponsorship_ceiling_is_one_constant (k : Hex) (r : string) (a : Z) (s : System W) :
  MAX_GAS_USDC = 1000000
  /\ (forall signer data sg,
        In (signer, data, sg) (signings (trace (run (transferUSDC k r a) s))) ->
        permit_value (typed_message data) = MAX_GAS_USDC
        /\ permit_value (typed_message data) <= 1000000)
  /\ (forall pd,
        In pd (paymaster_payloads (trace (run (transferUSDC k r a) s))) ->
        Packed.uint_at 21 32 pd = Some MAX_GAS_USDC).
Proof.
  split; [reflexivity|]. split.
  - intros signer data sg H.
    destruct (transferUSDC_signs k r a s signer data sg H) as (o & addr & ctx & _ & _ & _ & ->).
    split; [reflexivity|]. cbn. unfold MAX_GAS_USDC. lia.
  - intros pd H.
    destruct (transferUSDC_packs k r a s pd H) as (o & addr & ctx & w & sig & _ & _ & _ & Hp).
    rewrite encodePacked_paymasterData in Hp. injection Hp as <-. reflexivity.
Qed.

End ServiceProperties.

(** ** Executions compose *)
Section Compose.
Context {W : Type} {env : Environment W}.

Lemma run_bind {A B : Type} (p : prog A) (f : A -> prog B) (s : System W) :
  run (bind p f) s = and_then (run p s) (fun a => run (f a)).
Proof.
  revert s. induction p as [a|e|a k IH|q k IH]; intros s; cbn [bind run].
  - unfold and_then. cbn. now destruct (run (f a) s).
  - reflexivity.
  - rewrite IH. unfold and_then, after. cbn.
    destruct (run k (apply_action a s)) as [[x|e] fs tr]; reflexivity.
  - destruct (answer q (world s)) as [r w]. rewrite IH. unfold and_then, after. cbn.
    destruct (run (k r) _) as [[x|e] fs tr]; reflexivity.
Qed.

Lemma run_try_catch {R : Type} (p : prog R) (h : js_error -> prog R) (s : System W) :
  run (try_catch p h) s = or_else (run p s) (fun e => run (h e)).
Proof.
  revert s. induction p as [a|e|a k IH|q k IH]; intros s; cbn [try_catch run].
  - reflexivity.
  - unfold or_else. cbn. now destruct (run (h e) s).
  - rewrite IH. unfold or_else, after. cbn.
    destruct (run k (apply_action a s)) as [[x|e] fs tr]; reflexivity.
  - destruct (answer q (world s)) as [r w]. rewrite IH. unfold or_else, after. cbn.
    destruct (run (k r) _) as [[x|e] fs tr]; reflexivity.
Qed.

Lemma run_try_finally {R : Type} (p : prog R) (f : prog unit) (s : System W) :
  run (try_finally p f) s = at_last (run p s) (run f (final (run p s))).
Proof.
  revert s. induction p as [a|e|a k IH|q k IH]; intros s; cbn [try_finally run].
  - rewrite run_bind. unfold and_then, at_last. cbn [run final ended trace].
    destruct (run f s) as [[[]|e] fs tr]; cbn; now rewrite ?app_nil_r.
  - rewrite run_bind. unfold and_then, at_last. cbn [run final ended trace].
    destruct (run f s) as [[[]|e'] fs tr]; cbn; now rewrite ?app_nil_r.
  - rewrite IH. reflexivity.
  - destruct (answer q (world s)) as [r w]. rewrite IH. reflexivity.
Qed.

Lemma actions_app (t u : list entry) : actions (t ++ u) = (actions t ++ actions u)%list.
Proof. induction t as [|[a|q r] t IH]; cbn; now rewrite ?IH. Qed.

Lemma only_bind {A B : Type} (P : action -> bool) (p : prog A) (f : A -> prog B) :
  only P p -> (forall a, only P (f a)) -> only P (bind p f).
Proof.
  intros Hp Hf. induction p as [a|e|a k IH|q k IH]; cbn in *; auto.
  split; [apply Hp|apply IH, Hp].
Qed.

Lemma only_lift {A : Type} (P : action -> bool) (r : result A) : only P (lift r).
Proof. now destruct r. Qed.

Lemma only_await (P : action -> bool) (q : request) : only P (await q).
Proof. intros [x|e]; exact I. Qed.

Lemma only_weaken {R : Type} (P Q : action -> bool) (p : prog R) :
  (forall a, P a = true -> Q a = true) -> only P p -> only Q p.
Proof.
  intros HPQ. induction p as [a|e|a k IH|q k IH]; cbn; auto.
  intros [Ha Hk]. auto.
Qed.

Lemma only_run {R : Type} (P : action -> bool) (p : prog R) (s : System W) :
  only P p -> forallb P (actions (trace (run p s))) = true.
Proof.
  revert s. induction p as [a|e|a k IH|q k IH]; intros s Hp; cbn in *; auto.
  - destruct Hp as [Ha Hk]. now rewrite Ha, IH.
  - destruct (answer q (world s)) as [r w]. cbn. now apply IH.
Qed.

(** A program that only logs leaves the page as it is. *)
Lemma quiet_page {R : Type} (p : prog R) (s : System W) :
  only is_log p -> page (final (run p s)) = page s.
Proof.
  revert s. induction p as [a|e|a k IH|q k IH]; intros s Hp; cbn in *; auto.
  - destruct Hp as [Ha Hk]. rewrite IH by assumption. now destruct a.
  - destruct (answer q (world s)) as [r w]. cbn. now rewrite IH.
Qed.

Lemma loading_changes_app (l m : list action) :
  loading_changes (l ++ m) = (loading_changes l ++ loading_changes m)%list.
Proof. induction l as [|[] l IH]; cbn; now rewrite ?IH. Qed.

Lemma loading_changes_none (l : list action) :
  forallb keeps_loading l = true -> loading_changes l = [].
Proof.
  induction l as [|a l IH]; [reflexivity|]. cbn. intros H.
  apply andb_true_iff in H as [Ha Hl]. destruct a; try discriminate Ha; auto.
Qed.

Lemma logs_excluded (P : action -> bool) (l : list action) :
  (forall args, P (ConsoleLog args) = false) ->
  forallb is_log l = true -> existsb P l = false.
Proof.
  intros HP. induction l as [|a l IH]; [reflexivity|]. cbn. intros H.
  apply andb_true_iff in H as [Ha Hl]. rewrite (IH Hl).
  destruct a; try discriminate Ha. now rewrite HP.
Qed.

(** A handler of the page's shape holds the busy flag from its first
    effect to its last, whatever its body does short of touching the
    flag. *)
Lemma guarded_releases_lock (body : prog unit) (report : js_error -> string)
    (s : System W) :
  only keeps_loading body ->
  releases_lock
    (run (try_finally
            (try_catch (perform (SetLoading true) ;; body)
                       (fun error => perform (SetStatus (report error))))
            (perform (SetLoading false))) s).
Proof.
  intros Hbody. rewrite run_try_finally, run_try_catch.
  cbn [bind perform run]. unfold after.
  pose proof (only_run keeps_loading body (apply_action (SetLoading true) s) Hbody) as Hl.
  apply loading_changes_none in Hl.
  destruct (run body (apply_action (SetLoading true) s)) as [[[]|e] fs tr];
    unfold or_else, at_last, releases_lock;
    cbn [ended final trace run perform bind after app apply_action page apply_page
         loading hd_error] in *.
  - repeat split.
    + rewrite app_comm_cons. apply last_last.
    + cbn [actions loading_changes].
      rewrite actions_app, loading_changes_app, Hl. reflexivity.
  - repeat split.
    + rewrite app_comm_cons. apply last_last.
    + cbn [actions loading_changes].
      rewrite !actions_app, !loading_changes_app, Hl. reflexivity.
Qed.

Context {lib : Library}.

(** The transfer service touches no state of the page: it only logs. *)
Lemma transferUSDC_quiet (k : Hex) (r : string) (a : Z) :
  only is_log (transferUSDC k r a).
Proof.
  unfold transferUSDC, toEcdsaKernelSmartAccount, eip2612Permit, log, perform.
  repeat first
    [ exact I
    | apply only_lift
    | apply only_await
    | apply only_bind; [|intros ?]
    | split; [reflexivity|] ].
Qed.

End Compose.

(** ** The page: credential, form fields, busy flag *)

Ltac only_steps :=
  repeat first
    [ exact I
    | apply only_lift
    | apply only_await
    | apply (only_weaken is_log); [now intros []|apply transferUSDC_quiet]
    | apply only_bind; [|intros ?]
    | split; [reflexivity|]
    | match goal with |- only _ (if ?b then _ else _) => destruct b end ].

Ltac page_facts HR HA HS :=
  cbn [actions]; rewrite !actions_app; cbn [actions existsb];
  rewrite !existsb_app, HR, HA, HS;
  cbn [apply_page apply_action page recipientAddress amount account balance usdcBalance
       existsb clears_recipient clears_amount sets_account orb];
  repeat split.

Section PageProperties.
Context {lib : Library} {W : Type} {env : Environment W}.




(** C7.  With the amount "0" either the transfer button is disabled or
    the conversion yields the integer 0; the second always holds, and the
    button is disabled by the busy flag or an empty recipient only.  The
    executor passes on the recipient and the amount it is given as they
    are. *)
Theorem zero_amount_boundary (st : PageState) :
  amount st = "0" ->
  (transfer_disabled st = true \/ amountInWei (amount st) = Ok 0)
  /\ transfer_disabled st = (loading st || negb (truthy (recipientAddress st)))
  /\ forall (k : Hex) (r : string) (a : Z) (s : System W) (op : UserOperation),
       In op (submissions (trace (run (transferUSDC k r a) s))) ->
       map call_args (uo_calls op) = [(r, a)].
Proof.
  intros H. unfold transfer_disabled. rewrite H. split; [right; reflexivity|].
  split; [cbn; now rewrite orb_false_r|].
  intros k r a s op Hin. destruct (transferUSDC_submitted k r a s op Hin).
  subst op. reflexivity.
Qed.

(** C9.  [transfer] calls [setRecipientAddress('')] and [setAmount('')]
    exactly when the executor has returned a receipt with [success = true],
    and both fields are empty then; when the executor throws or reports
    failure the two fields are as before; the account, the balance and the
    displayed USDC balance are as before in every case, and the account
    setter is never called. *)
Theorem transfer_clears_fields_iff_success (st : PageState) (s : System W) :
  let x := run (transfer st) s in
  let ok := succeeded (transfer_outcome st s) in
  existsb clears_recipient (actions (trace x)) = ok
  /\ existsb clears_amount (actions (trace x)) = ok
  /\ (recipientAddress (page (final x)), amount (page (final x)))
     = (if ok then ("", "") else (recipientAddress (page s), amount (page s)))
  /\ account (page (final x)) = account (page s)
  /\ balance (page (final x)) = balance (page s)
  /\ usdcBalance (page (final x)) = usdcBalance (page s)
  /\ existsb sets_account (actions (trace x)) = false.
Proof.
  cbv zeta. unfold transfer, transfer_outcome.
  rewrite run_try_finally, run_try_catch.
  destruct (amountInWei (amount st)) as [a|e];
    [destruct (account_privateKey (account st)) as [k|e]|];
    cbn [bind perform lift run]; unfold after.
  2,3: unfold or_else, at_last;
       cbn [bind perform run after ended final trace app apply_action page succeeded];
       cbn [apply_page apply_action page recipientAddress amount account balance
            usdcBalance actions existsb clears_recipient clears_amount sets_account orb];
       repeat split.
  rewrite run_bind.
  assert (Hfacts : forall s1,
    page (final (run (transferUSDC k (recipientAddress st) a) s1)) = page s1
    /\ existsb clears_recipient
         (actions (trace (run (transferUSDC k (recipientAddress st) a) s1))) = false
    /\ existsb clears_amount
         (actions (trace (run (transferUSDC k (recipientAddress st) a) s1))) = false
    /\ existsb sets_account
         (actions (trace (run (transferUSDC k (recipientAddress st) a) s1))) = false).
  { intros s1.
    pose proof (only_run is_log _ s1 (transferUSDC_quiet k (recipientAddress st) a)) as Hlogs.
    repeat split.
    - apply quiet_page, transferUSDC_quiet.
    - now apply logs_excluded.
    - now apply logs_excluded.
    - now apply logs_excluded. }
  match goal with |- context [run (transferUSDC ?k ?r ?a) ?s1] =>
    generalize (Hfacts s1); clear Hfacts; generalize (run (transferUSDC k r a) s1)
  end.
  intros [[[[] used cost rcpt]|e] fs tr] (Hpage & HR & HA & HS);
    unfold and_then; cbn [ended final trace run bind perform after app success];
    unfold or_else; cbn [ended final trace run bind perform after app];
    unfold at_last; cbn [ended final trace run bind perform after app apply_action page];
    cbn [ended final trace succeeded] in *;
    rewrite Hpage; page_facts HR HA HS.
Qed.

(** C10.  [createAccount] and [transfer] both begin by [setLoading(true)],
    end by [setLoading(false)] whether the body completed or an exception
    was caught, touch the flag nowhere in between, return normally and
    leave [loading] false: the create button is enabled again and the
    transfer button is disabled by an empty field only. *)
Theorem handlers_release_the_busy_lock (st : PageState) (s : System W) :
  releases_lock (run (createAccount st) s)
  /\ releases_lock (run (transfer st) s)
  /\ createAccount_disabled (page (final (run (createAccount st) s))) = false
  /\ createAccount_disabled (page (final (run (transfer st) s))) = false
  /\ unlocked (page (final (run (createAccount st) s)))
  /\ unlocked (page (final (run (transfer st) s))).
Proof.
  assert (Hc : releases_lock (run (createAccount st) s)).
  { apply guarded_releases_lock.
    unfold toEcdsaKernelSmartAccount, perform. only_steps. }
  assert (Ht : releases_lock (run (transfer st) s)).
  { apply guarded_releases_lock. unfold perform. only_steps. }
  assert (Hlc : loading (page (final (run (createAccount st) s))) = false) by apply Hc.
  assert (Hlt : loading (page (final (run (transfer st) s))) = false) by apply Ht.
  split; [exact Hc|]. split; [exact Ht|].
  unfold createAccount_disabled, unlocked, transfer_disabled.
  rewrite Hlc, Hlt. repeat split.
Qed.

End PageProperties.

(** ** Runs on the test network *)
Section Examples.
Import Testnet.

(** The arithmetic behind "4.1" in integers: the double read is the one
    nearest to 41/10, its exact product with 1000000 rounds down to an odd
    mantissa at exponent -31, one unit in the last place below 4100000. *)
Example four_point_one_in_binary64 :
  JS.parseFloat "4.1" = S754_finite false 4616189618054758 (-50)
  /\ Z.abs (10 * 4616189618054758 - 41 * 2 ^ 50)
     < Z.abs (10 * (4616189618054758 - 1) - 41 * 2 ^ 50)
  /\ Z.abs (10 * 4616189618054758 - 41 * 2 ^ 50)
     < Z.abs (10 * (4616189618054758 + 1) - 41 * 2 ^ 50)
  /\ 4616189618054758 * 1000000 = 8804682956799999 * 2 ^ 19 + 124288
  /\ 2 * 124288 < 2 ^ 19
  /\ 4100000 * 2 ^ 31 = 8804682956799999 + 1.
Proof. vm_compute. repeat split. Qed.

(** C1.  The amount "10.5" converts to 10500000, which [formatUnits]
    shows as "10.5" again; the amount "4.1", whose product with 1000000 is
    the double 4099999.9999999995, makes [BigInt] throw instead of yielding
    4100000, and the transfer handler then submits nothing and reports the
    error. *)
Theorem amount_conversion_throws_on_4_1 :
  amountInWei "10.5" = Ok 10500000
  /\ Viem.formatUnits 10500000 6 = "10.5"
  /\ JS.mul (JS.parseFloat "4.1") (JS.Number_of_BigInt 1000000)
     = S754_finite false 8804682956799999 (-31)
  /\ amountInWei "4.1"
     = Err (RangeError
              "The number cannot be converted to a BigInt because it is not an integer")
  /\ transfer_disabled (page (form "4.1" funded)) = false
  /\ kinds (trace (fire click_transfer (form "4.1" funded))) = []
  /\ status (page (final (fire click_transfer (form "4.1" funded))))
     = "Error during transfer: The number cannot be converted to a BigInt because it is not an integer"
  /\ amount (page (final (fire click_transfer (form "4.1" funded)))) = "4.1".
Proof. vm_compute. repeat split. Qed.

(** C2.  On the test network a transfer of 10.5 USDC succeeds; the account
    held 100000000 units before the submission and holds 89376544 after
    the receipt, so that the balance before, less the balance after, less
    the amount is the fee of 123456 units.  The service reads the balance
    twice after the receipt, both times 89376544, and logs "-10.5" as the
    USDC paid. *)
Theorem usdc_consumed_is_minus_the_amount :
  (exists rc, ended transfer_run = Returned rc /\ success rc = true)
  /\ usdc_held (world (boot funded)) = 100000000
  /\ usdc_held (world (final transfer_run)) = 89376544
  /\ 100000000 - 89376544 - 10500000 = 123456
  /\ kinds (trace transfer_run) = pipeline
  /\ map snd (balance_reads (trace transfer_run)) = [Ok 89376544; Ok 89376544]
  /\ last (console (final transfer_run)) [] = [VString "  USDC paid:"; VString "-10.5"]
  /\ Viem.formatUnits (89376544 - 89376544 - 10500000) 6 = "-10.5".
Proof. vm_compute. repeat split. eexists. split; reflexivity. Qed.

(** C3, as stated, fails: against a paymaster that reports a surcharge of
    2^53 + 1, with a bundler estimate of 0, the post-op gas limit submitted
    is 2^53, which is neither the larger of the two nor at least the
    surcharge. *)
Lemma postOpGasLimit_below_the_surcharge :
  In overcharged (submissions (trace overcharged_run))
  /\ map snd (eth_calls (trace overcharged_run))
     = [Ok (Some (mkReturn (Some (word (2 ^ 53 + 1)))))]
  /\ Viem.hexToBigInt (Some (word (2 ^ 53 + 1))) = Ok 9007199254740993
  /\ map (fun e => match snd e with
                   | Ok est => est_paymasterPostOpGasLimit est
                   | Err _ => None
                   end) (estimations (trace overcharged_run)) = [Some 0]
  /\ uo_paymasterPostOpGasLimit overcharged = Some 9007199254740992
  /\ 9007199254740992 <> Z.max 0 9007199254740993
  /\ 9007199254740992 < 9007199254740993.
Proof.
  split; [vm_compute; left; reflexivity|].
  split; [vm_compute; reflexivity|].
  split; [vm_compute; reflexivity|].
  split; [vm_compute; reflexivity|].
  split; [reflexivity|].
  split; [discriminate|reflexivity].
Qed.

(** The amount "0" is not refused by the button: with a recipient filled
    in, the click runs the whole pipeline and submits a transfer of 0. *)
Example zero_amount_is_submitted :
  transfer_disabled (page (form "0" funded)) = false
  /\ map uo_calls (submissions (trace (fire click_transfer (form "0" funded))))
     = [calls recipient 0]
  /\ kinds (trace (fire click_transfer (form "0" funded))) = pipeline.
Proof. vm_compute. repeat split. Qed.

(** The credential cached by [createAccount] and the account a transfer
    derives from it. *)
Example derived_twice :
  map snd (derivations (trace created)) = [Ok (address credential)]
  /\ map snd (derivations (trace transfer_run)) = [Ok (address credential)]
  /\ smart_address (uo_account sent) = address credential.
Proof. vm_compute. repeat split. Qed.

(** On the test network the estimate is 20000 and the surcharge 15000. *)
Lemma postOpGasLimit_is_max_below_2_53_witness :
  In sent (submissions (trace transfer_run))
  /\ uo_paymasterPostOpGasLimit sent = Some (Z.max 20000 15000)
  /\ 15000 <= Z.max 20000 15000.
Proof.
  assert (H : In sent (submissions (trace transfer_run)))
    by (vm_compute; left; reflexivity).
  split; [exact H|].
  destruct (postOpGasLimit_is_max_below_2_53 key recipient 10500000 (boot funded) sent H)
    as (called & charge & estimated & est & estimate & Hc & Hch & He & Hest & Hmax).
  vm_compute in Hc. injection Hc as <-.
  vm_compute in Hch. injection Hch as <-.
  vm_compute in He. injection He as <- <-.
  vm_compute in Hest. injection Hest as <-.
  apply Hmax; lia.
Defined.

(** On the test network the account derived for the key signs the
    permit for one USDC to the paymaster, the signer answers with a wrapped
    signature, and the packed data ends with the plain one. *)
Lemma permit_signature_is_the_unwrapped_one_witness :
  In payload (paymaster_payloads (trace transfer_run))
  /\ (exists signer data,
        signings (trace transfer_run) = [(signer, data, Ok wrapped)]
        /\ smart_address signer = address credential
        /\ typed_primaryType data = "Permit"
        /\ typed_message data
           = mkPermit (address credential) ARBITRUM_SEPOLIA_PAYMASTER 1000000
                      0 (2 ^ 256 - 1))
  /\ Packed.tail_at 53 payload = plain_signature
  /\ wrapped <> plain_signature.
Proof.
  assert (H : In payload (paymaster_payloads (trace transfer_run)))
    by (vm_compute; left; reflexivity).
  split; [exact H|].
  destruct (permit_signature_is_the_unwrapped_one key recipient 10500000 (boot funded)
              payload H)
    as (o & addr & ctx & signer & data & w & sig
        & _ & Hd & Hr & Hs & Hsigner & _ & Hp & _ & Hm & Hu & _ & Htail).
  assert (Ha : addr = address credential).
  { vm_compute in Hd. now injection Hd as _ <-. }
  assert (Hc : ctx = mkContext "USDC" "2" 0 (2 ^ 256 - 1)).
  { vm_compute in Hr. now injection Hr as _ <-. }
  assert (Hw : w = wrapped).
  { assert (E : map snd (signings (trace (run (transferUSDC key recipient 10500000)
                                               (boot funded))))
                = [Ok wrapped]) by (vm_compute; reflexivity).
    rewrite Hs in E. cbn [map snd] in E. now injection E. }
  subst addr ctx w.
  split.
  { exists signer, data. split; [exact Hs|]. split; [now rewrite Hsigner|].
    split; [exact Hp|]. exact Hm. }
  vm_compute in Hu. injection Hu as <-.
  split; [exact Htail|discriminate].
Defined.

(** The packed data of the test transfer, byte by byte. *)
Lemma paymasterData_layout_witness :
  In payload (paymaster_payloads (trace transfer_run))
  /\ exists token signature,
       Packed.hexToBytes ARBITRUM_SEPOLIA_USDC = Some token
       /\ Packed.hexToBytes plain_signature = Some signature
       /\ Packed.hexToBytes payload
          = Some ([Byte.x00] ++ token ++ Packed.big_endian 32 1000000 ++ signature)%list
       /\ List.length signature = 65%nat.
Proof.
  assert (H : In payload (paymaster_payloads (trace transfer_run)))
    by (vm_compute; left; reflexivity).
  split; [exact H|].
  destruct (paymasterData_layout key recipient 10500000 (boot funded) payload H)
    as (signer & data & w & sig & token & Hs & Hu & Ht & _ & _ & Hbytes).
  vm_compute in Hs. injection Hs as <- <- <-.
  vm_compute in Hu. injection Hu as <-.
  exists token.
  destruct (Packed.hexToBytes plain_signature) as [signature|] eqn:Hsig;
    [|discriminate Hsig].
  exists signature. split; [exact Ht|]. split; [reflexivity|].
  split; [exact (Hbytes signature Hsig)|].
  vm_compute in Hsig. injection Hsig as <-. reflexivity.
Defined.

(** The ceiling in the packed data and in the permit of the test
    transfer. *)
Lemma sponsorship_ceiling_is_one_constant_witness :
  In payload (paymaster_payloads (trace transfer_run))
  /\ Packed.uint_at 21 32 payload = Some 1000000
  /\ map (fun sg => permit_value (typed_message (snd (fst sg))))
         (signings (trace transfer_run)) = [1000000].
Proof.
  assert (H : In payload (paymaster_payloads (trace transfer_run)))
    by (vm_compute; left; reflexivity).
  split; [exact H|].
  destruct (sponsorship_ceiling_is_one_constant key recipient 10500000 (boot funded))
    as (_ & _ & Hpacked).
  split; [exact (Hpacked payload H)|].
  vm_compute. reflexivity.
Defined.

(** The form filled in with the amount "0". *)
Lemma zero_amount_boundary_witness :
  amount (page (form "0" funded)) = "0"
  /\ (transfer_disabled (page (form "0" funded)) = true
      \/ amountInWei (amount (page (form "0" funded))) = Ok 0)
  /\ transfer_disabled (page (form "0" funded)) = false.
Proof.
  assert (H : amount (page (form "0" funded)) = "0") by reflexivity.
  split; [exact H|].
  destruct (@zero_amount_boundary library Chain environment (page (form "0" funded)) H)
    as (Hor & Hdis & _).
  split; [exact Hor|]. rewrite Hdis. reflexivity.
Defined.


End Examples.

Ltac exec_more :=
  exec; cbn [sends waits gas_prices generated rejections rejected logged].

Section Strict.
Context {W : Type} {env : Environment W}.

Lemma strict_bind {A B : Type} (p : prog A) (f : A -> prog B) :
  strict p -> (forall a, strict (f a)) -> strict (bind p f).
Proof.
  intros Hp Hf. induction p as [a|e|a k IH|q k IH]; cbn in *; auto.
  destruct Hp as [He Hk]. split.
  - intros e. now rewrite He.
  - intros x. apply IH, Hk.
Qed.

Lemma strict_lift {A : Type} (r : result A) : strict (lift r).
Proof. now destruct r. Qed.

Lemma strict_await (q : request) : strict (await q).
Proof. split; [reflexivity|intros x; exact I]. Qed.

(** In a run of a strict program nothing follows a refused request. *)
Lemma strict_run {R : Type} (p : prog R) (s : System W) :
  strict p ->
  rejections (trace (run p s)) = []
  \/ exists e,
       rejections (trace (run p s)) = [e]
       /\ ended (run p s) = Threw e
       /\ rejected (last (trace (run p s)) (Did (ConsoleLog []))) = Some e.
Proof.
  revert s. induction p as [a|e|a k IH|q k IH]; intros s Hp; cbn [run strict] in *.
  - now left.
  - now left.
  - destruct (IH (apply_action a s) Hp) as [H|(e & H1 & H2 & H3)].
    + left. exact H.
    + right. exists e. cbn [after trace ended rejections rejected]. repeat split; try assumption.
      destruct (trace (run k (apply_action a s))) as [|x t]; [discriminate H1|exact H3].
  - destruct Hp as [He Hk]. destruct (answer q (world s)) as [[x|e] w].
    + destruct (IH (Ok x) (mkSystem (page s) (console s) w) (Hk x)) as [H|(e & H1 & H2 & H3)].
      * left. exact H.
      * right. exists e. cbn [after trace ended rejections rejected].
        repeat split; try assumption.
        destruct (trace (run (k (Ok x)) (mkSystem (page s) (console s) w))) as [|y t];
          [discriminate H1|exact H3].
    + right. exists e. rewrite He. cbn. repeat split.
Qed.

Context {lib : Library}.

Lemma transferUSDC_strict (k : Hex) (r : string) (a : Z) : strict (transferUSDC k r a).
Proof.
  unfold transferUSDC, toEcdsaKernelSmartAccount, eip2612Permit, log, perform.
  repeat first
    [ exact I
    | apply strict_lift
    | apply strict_await
    | apply strict_bind; [|intros ?] ].
Qed.

End Strict.

Section ServiceMore.
Context {lib : Library} {W : Type} {env : Environment W}.

(** X1.  [transferUSDC] asks the network in one fixed order, as far as it
    gets: derivation, permit context, signature, paymaster call, gas price,
    estimation, submission, receipt, and two balance reads.  So it submits
    at most one user operation, and none before the estimation has been
    answered. *)
Theorem transferUSDC_asks_in_order (k : Hex) (r : string) (a : Z) (s : System W) :
  is_prefix (kinds (trace (run (transferUSDC k r a) s))) pipeline = true
  /\ (List.length (submissions (trace (run (transferUSDC k r a) s))) <= 1)%nat
  /\ (submissions (trace (run (transferUSDC k r a) s)) <> [] ->
      exists op est, estimations (trace (run (transferUSDC k r a) s)) = [(op, Ok est)]).
Proof.
  unfold transferUSDC. exec.
  all: cbn [List.length]; repeat split; try lia; try (intros H; now elim H).
  all: intros _; do 2 eexists; reflexivity.
Qed.

(** X2.  [transferUSDC] has no handler of its own: when a request is
    refused the run ends there, throwing the very error of the refusal, and
    no other request of the run was refused. *)
Theorem transferUSDC_passes_errors_on (k : Hex) (r : string) (a : Z) (s : System W)
    (e : js_error) :
  In e (rejections (trace (run (transferUSDC k r a) s))) ->
  ended (run (transferUSDC k r a) s) = Threw e
  /\ rejections (trace (run (transferUSDC k r a) s)) = [e]
  /\ rejected (last (trace (run (transferUSDC k r a) s)) (Did (ConsoleLog []))) = Some e.
Proof.
  intros H.
  destruct (strict_run (transferUSDC k r a) s (transferUSDC_strict k r a))
    as [Hnone|(e' & H1 & H2 & H3)].
  - rewrite Hnone in H. destruct H.
  - rewrite H1 in H. destruct H as [<-|[]]. auto.
Qed.

(** X3.  The receipt [transferUSDC] returns is the bundler's answer to the
    wait for the hash that the one submission was answered with. *)
Theorem transferUSDC_returns_the_receipt (k : Hex) (r : string) (a : Z) (s : System W)
    (rc : UserOperationReceipt) :
  ended (run (transferUSDC k r a) s) = Returned rc ->
  exists op userOpHash,
    sends (trace (run (transferUSDC k r a) s)) = [(op, Ok userOpHash)]
    /\ waits (trace (run (transferUSDC k r a) s)) = [(userOpHash, Ok rc)]
    /\ rejections (trace (run (transferUSDC k r a) s)) = [].
Proof.
  unfold transferUSDC. exec_more; try discriminate.
  intros H. injection H as <-. do 2 eexists. repeat split.
Qed.

(** X4.  The user operation submitted is the one estimated, with the same
    account, the same single call [transfer(recipient, amount)] on the USDC
    contract, the same paymaster and paymaster data.  The estimation
    carries unit fees and no gas limit but one: its paymaster post-op gas
    limit is the surcharge, read from the answer to the call of the
    paymaster.  The submission carries the limits of the estimate and the
    standard fees the bundler suggested. *)
Theorem submission_follows_estimation (k : Hex) (r : string) (a : Z) (s : System W)
    (op : UserOperation) :
  In op (submissions (trace (run (transferUSDC k r a) s))) ->
  exists estimated est fees called additionalGasCharge,
    estimations (trace (run (transferUSDC k r a) s)) = [(estimated, Ok est)]
    /\ gas_prices (trace (run (transferUSDC k r a) s)) = [Ok fees]
    /\ eth_calls (trace (run (transferUSDC k r a) s))
       = [(ARBITRUM_SEPOLIA_PAYMASTER,
           encodeFunctionData ["function additionalGasCharge() returns (uint256)"]
                              "additionalGasCharge",
           Ok called)]
    /\ Viem.hexToBigInt (call_data (or_default called)) = Ok additionalGasCharge
    /\ uo_paymasterPostOpGasLimit estimated = Some additionalGasCharge
    /\ uo_account estimated = uo_account op
    /\ uo_calls estimated = uo_calls op
    /\ uo_calls op = [mkCall ARBITRUM_SEPOLIA_USDC tokenAbi "transfer" (r, a)]
    /\ uo_paymaster estimated = ARBITRUM_SEPOLIA_PAYMASTER
    /\ uo_paymaster op = ARBITRUM_SEPOLIA_PAYMASTER
    /\ uo_paymasterData estimated = uo_paymasterData op
    /\ (uo_callGasLimit estimated, uo_preVerificationGas estimated,
        uo_verificationGasLimit estimated, uo_paymasterVerificationGasLimit estimated)
       = (None, None, None, None)
    /\ (uo_maxFeePerGas estimated, uo_maxPriorityFeePerGas estimated) = (1, 1)
    /\ (uo_callGasLimit op, uo_preVerificationGas op, uo_verificationGasLimit op,
        uo_paymasterVerificationGasLimit op)
       = (Some (est_callGasLimit est), Some (est_preVerificationGas est),
          Some (est_verificationGasLimit est), est_paymasterVerificationGasLimit est)
    /\ Viem.hexToBigInt (Some (price_maxFeePerGas fees)) = Ok (uo_maxFeePerGas op)
    /\ Viem.hexToBigInt (Some (price_maxPriorityFeePerGas fees))
       = Ok (uo_maxPriorityFeePerGas op).
Proof.
  unfold transferUSDC. exec_more; try (intros []; fail).
  all: intros [<-|[]]; do 5 eexists; repeat split; eassumption.
Qed.

(** X5.  When the node answers the paymaster call with nothing at all,
    the surcharge is read from the default ['0x0'] as zero: the run goes on
    to the gas price, and an estimation it asks for carries the post-op
    limit 0. *)
Theorem empty_call_answer_means_no_surcharge (k : Hex) (r : string) (a : Z) (s : System W)
    (to : Address) (d : Hex) :
  In (to, d, Ok None) (eth_calls (trace (run (transferUSDC k r a) s))) ->
  is_prefix [KDerive; KPermit; KSign; KCall; KGasPrice]
            (kinds (trace (run (transferUSDC k r a) s))) = true
  /\ forall op answer,
       In (op, answer) (estimations (trace (run (transferUSDC k r a) s))) ->
       uo_paymasterPostOpGasLimit op = Some 0.
Proof.
  unfold transferUSDC. exec_more.
  all: intros H; try (destruct H; fail).
  all: destruct H as [H|[]]; try discriminate H.
  all: injection H as _ _ H; try subst.
  all: match goal with
       | H : Viem.hexToBigInt (call_data (or_default None)) = _ |- _ =>
           vm_compute in H; first [discriminate H | injection H as <-]
       end.
  all: split; [reflexivity|].
  all: intros op answer Hin; cbn [In] in Hin.
  all: repeat (destruct Hin as [Hin|Hin]; [injection Hin as <- _; reflexivity|]).
  all: contradiction.
Qed.

(** X6.  When the node answers the paymaster call without data, the
    conversion of [undefined] throws a TypeError: the run ends right after
    the call, before a gas price or an estimate is asked for. *)
Theorem call_answer_without_data_throws (k : Hex) (r : string) (a : Z) (s : System W)
    (to : Address) (d : Hex) :
  In (to, d, Ok (Some (mkReturn None))) (eth_calls (trace (run (transferUSDC k r a) s))) ->
  kinds (trace (run (transferUSDC k r a) s)) = [KDerive; KPermit; KSign; KCall]
  /\ exists m, ended (run (transferUSDC k r a) s) = Threw (TypeError m).
Proof.
  unfold transferUSDC. exec_more.
  all: intros H; try (destruct H; fail).
  all: destruct H as [H|[]]; try discriminate H.
  all: injection H as _ _ H; try subst.
  all: match goal with
       | H : Viem.hexToBigInt (call_data (or_default (Some (mkReturn None)))) = _ |- _ =>
           vm_compute in H; first [discriminate H | injection H as <-]
       end.
  split; [reflexivity|]. eexists; reflexivity.
Qed.

End ServiceMore.

Section Frame.
Context {W : Type} {env : Environment W}.

Lemma console_run {R : Type} (p : prog R) (s : System W) :
  console (final (run p s)) = (console s ++ logged (actions (trace (run p s))))%list.
Proof.
  revert s. induction p as [a|e|a k IH|q k IH]; intros s; cbn [run final trace after actions logged].
  - now rewrite app_nil_r.
  - now rewrite app_nil_r.
  - rewrite IH. destruct a; cbn [apply_action apply_console console logged]; try reflexivity.
    now rewrite <- app_assoc.
  - destruct (answer q (world s)) as [r w]. cbn [after final trace actions]. now rewrite IH.
Qed.

Lemma requests_app (t u : list entry) :
  requests (t ++ u) = (requests t ++ requests u)%list.
Proof. apply filter_app. Qed.

Lemma kinds_app (t u : list entry) : kinds (t ++ u) = (kinds t ++ kinds u)%list.
Proof. induction t as [|[a|q r] t IH]; cbn; now rewrite ?IH. Qed.

End Frame.

Section ServiceMore2.
Context {lib : Library} {W : Type} {env : Environment W}.

(** X7.  When the bundler's estimate carries no post-op gas limit, the
    limit to submit is [BigInt(Math.max(NaN, ...))]: the run throws a
    RangeError after the estimation and submits nothing. *)
Theorem no_postOp_estimate_no_submission (k : Hex) (r : string) (a : Z) (s : System W)
    (op : UserOperation) (est : GasEstimate) :
  In (op, Ok est) (estimations (trace (run (transferUSDC k r a) s))) ->
  est_paymasterPostOpGasLimit est = None ->
  submissions (trace (run (transferUSDC k r a) s)) = []
  /\ kinds (trace (run (transferUSDC k r a) s))
     = [KDerive; KPermit; KSign; KCall; KGasPrice; KEstimate]
  /\ exists m, ended (run (transferUSDC k r a) s) = Threw (RangeError m).
Proof.
  unfold transferUSDC. exec_more.
  all: intros H; try (destruct H; fail).
  all: destruct H as [H|[]]; try discriminate H.
  all: injection H as _ H; subst; intros Hnone.
  all: match goal with
       | H : JS.BigInt_of_Number _ = _ |- _ =>
           rewrite Hnone in H; cbn [Number_of_optional] in H;
           unfold JS.Math_max in H; cbn [SFcompare JS.NaN JS.BigInt_of_Number] in H;
           first [discriminate H | injection H as <-]
       end.
  repeat split. eexists. reflexivity.
Qed.

(** X8.  [transferUSDC] changes nothing of the page: all it does besides
    asking the network is write to the console, and the console ends up as
    it was with the lines of the run added. *)
Theorem transferUSDC_only_logs (k : Hex) (r : string) (a : Z) (s : System W) :
  page (final (run (transferUSDC k r a) s)) = page s
  /\ forallb is_log (actions (trace (run (transferUSDC k r a) s))) = true
  /\ console (final (run (transferUSDC k r a) s))
     = (console s ++ logged (actions (trace (run (transferUSDC k r a) s))))%list.
Proof.
  split; [apply quiet_page, transferUSDC_quiet|].
  split; [apply only_run, transferUSDC_quiet|apply console_run].
Qed.

End ServiceMore2.

Section PageMore.
Context {lib : Library} {W : Type} {env : Environment W}.

(** X9.  With an amount that converts and an account at hand, [transfer]
    asks the network exactly what the executor asks, leaves the world as
    the executor leaves it, and ends with the status that tells the
    executor's outcome: completed, failed, or the message of the error
    thrown. *)
Theorem transfer_reports_the_outcome (st : PageState) (s : System W) (a : Z)
    (info : AccountInfo) :
  amountInWei (amount st) = Ok a ->
  account st = Some info ->
  let y := run (transferUSDC (privateKey info) (recipientAddress st) a)
               (apply_action (SetStatus "Initiating transfer...")
                             (apply_action (SetLoading true) s)) in
  requests (trace (run (transfer st) s)) = requests (trace y)
  /\ world (final (run (transfer st) s)) = world (final y)
  /\ console (final (run (transfer st) s)) = console (final y)
  /\ status (page (final (run (transfer st) s))) = transfer_report (ended y).
Proof.
  intros Ha Hi. cbv zeta. unfold transfer.
  rewrite run_try_finally, run_try_catch, Ha, Hi.
  cbn [bind perform lift run account_privateKey]; unfold after.
  rewrite run_bind.
  match goal with |- context [run (transferUSDC ?k ?r ?a) ?s1] =>
    generalize (run (transferUSDC k r a) s1)
  end.
  intros [[[[] used cost rcpt]|e] fs tr];
    unfold and_then; cbn [ended final trace run bind perform after app success];
    unfold or_else; cbn [ended final trace run bind perform after app];
    unfold at_last; cbn [ended final trace run bind perform after app apply_action page];
    unfold requests; cbn [filter is_request]; rewrite !filter_app; cbn [filter is_request];
    rewrite ?app_nil_r;
    cbn [apply_page apply_console world console page status transfer_report success];
    repeat split.
Qed.

(** X10.  When the amount does not convert to a bigint, or converts while
    there is no account, [transfer] fails before the executor is called:
    nothing is asked of the network, the world and the console are as
    before, the handler's effects are the four state changes below, and
    the status shows the error, the conversion error first. *)
Theorem transfer_fails_before_the_network (st : PageState) (s : System W) (e : js_error) :
  amountInWei (amount st) = Err e
  \/ (exists a, amountInWei (amount st) = Ok a)
     /\ account_privateKey (account st) = Err e ->
  trace (run (transfer st) s)
  = [Did (SetLoading true); Did (SetStatus "Initiating transfer...");
     Did (SetStatus ("Error during transfer: " ++ message e));
     Did (SetLoading false)]
  /\ world (final (run (transfer st) s)) = world s
  /\ console (final (run (transfer st) s)) = console s
  /\ status (page (final (run (transfer st) s))) = "Error during transfer: " ++ message e
  /\ (recipientAddress (page (final (run (transfer st) s))),
      amount (page (final (run (transfer st) s))))
     = (recipientAddress (page s), amount (page s)).
Proof.
  intros [He|[[a Ha] He]]; unfold transfer; [rewrite He|rewrite Ha, He];
    cbn [try_finally try_catch bind perform lift run after ended final trace
         apply_action apply_page apply_console world console page status
         recipientAddress amount];
    repeat split.
Qed.

(** X11.  [createAccount] asks for a key and then for the derivation and
    for nothing else.  It ends in one of two ways: the account is set to
    the derived address, the owner's address and the key, under the
    success status; or the account is as before, under a status that ends
    with the message of the error that stopped it: the one the key
    generator, [privateKeyToAccount] or the derivation gave.  The form
    fields and the balances are as before in both. *)
Theorem createAccount_all_or_nothing (st : PageState) (s : System W) :
  let x := run (createAccount st) s in
  is_prefix (kinds (trace x)) [KGenerate; KDerive] = true
  /\ (recipientAddress (page (final x)), amount (page (final x)),
      balance (page (final x)), usdcBalance (page (final x)))
     = (recipientAddress (page s), amount (page s), balance (page s), usdcBalance (page s))
  /\ ((exists K o addr,
         generated (trace x) = [Ok K]
         /\ privateKeyToAccount K = Ok o
         /\ derivations (trace x) = [(createPublicClient, [o], "0.3.1", Ok addr)]
         /\ account (page (final x))
            = Some (mkAccount addr (local_address o) ("0x" ++ Str.slice 2 K))
         /\ status (page (final x)) = "Smart account created successfully!")
      \/ (exists e,
            ((generated (trace x) = [Err e] /\ derivations (trace x) = [])
             \/ (exists K,
                   generated (trace x) = [Ok K]
                   /\ privateKeyToAccount K = Err e
                   /\ derivations (trace x) = [])
             \/ (exists K o,
                   generated (trace x) = [Ok K]
                   /\ privateKeyToAccount K = Ok o
                   /\ derivations (trace x)
                      = [(createPublicClient, [o], "0.3.1", Err e)]))
            /\ account (page (final x)) = account (page s)
            /\ existsb sets_account (actions (trace x)) = false
            /\ status (page (final x)) = "Error creating smart account: " ++ message e)).
Proof.
  cbv zeta. unfold createAccount. exec_more.
  all: cbn [apply_action apply_page page recipientAddress amount balance usdcBalance
            account status is_prefix actions existsb sets_account orb].
  all: split; [reflexivity|]; split; [reflexivity|].
  1: left; do 3 eexists; repeat split; eassumption.
  all: right; eexists; split; [|repeat split].
  - right. right. do 2 eexists. repeat split. eassumption.
  - right. left. eexists. repeat split. eassumption.
  - left. split; reflexivity.
Qed.

End PageMore.

Section Products.
Import JS.

Lemma iter_pos_nat {A : Type} (f : A -> A) (p : positive) (x : A) :
  iter_pos f p x = Nat.iter (Pos.to_nat p) f x.
Proof.
  revert x. induction p as [p IH|p IH|]; intros x; cbn [iter_pos].
  - rewrite !IH, Pos2Nat.inj_xI.
    replace (S (2 * Pos.to_nat p)) with (Pos.to_nat p + S (Pos.to_nat p))%nat by lia.
    rewrite Nat.iter_add, Nat.iter_succ_r. reflexivity.
  - rewrite !IH, Pos2Nat.inj_xO.
    replace (2 * Pos.to_nat p)%nat with (Pos.to_nat p + Pos.to_nat p)%nat by lia.
    now rewrite Nat.iter_add.
  - reflexivity.
Qed.

Lemma shr_1_doubles (n : nat) (q : positive) :
  Nat.iter n shr_1 (Build_shr_record (Zpos (Nat.iter n xO q)) false false)
  = Build_shr_record (Zpos q) false false.
Proof.
  induction n as [|n IH]; [reflexivity|].
  rewrite Nat.iter_succ_r. cbn [Nat.iter shr_1 orb]. exact IH.
Qed.

(** A mantissa of 53 digits followed by zeros is rounded to itself. *)
Lemma round_aux_shifted (q : positive) (k e : Z) :
  Zpos (digits2_pos q) = 53 -> 0 <= k -> -1074 <= e + k <= 971 ->
  forall M : positive, Zpos M = Zpos q * 2 ^ k ->
  binary_round_aux prec emax false (Zpos M) e loc_Exact = S754_finite false q (e + k).
Proof.
  intros Hd Hk He M HM. destruct k as [|k|k]; try lia.
  - assert (M = q) by lia. subst M. rewrite Z.add_0_r. apply round_aux_exact; lia.
  - assert (HMq : M = Pos.iter xO q k).
    { apply Pos2Z.inj. now rewrite iter_xO_value. }
    subst M. unfold binary_round_aux, shr_fexp, fexp, emin, prec, emax.
    cbn [Zdigits2 shr_record_of_loc]. rewrite iter_xO_digits, Hd.
    replace (Z.max (53 + Zpos k + e - 53) (3 - 1024 - 53) - e) with (Zpos k) by lia.
    cbn [shr]. rewrite iter_pos_nat, Pos2Nat.inj_iter.
    change (nat_rect _ q (fun _ => xO) (Pos.to_nat k)) with (Nat.iter (Pos.to_nat k) xO q).
    rewrite shr_1_doubles.
    cbn [shr_m loc_of_shr_record round_nearest_even Zdigits2]. rewrite Hd.
    replace (Z.max (53 + (e + Zpos k) - 53) (3 - 1024 - 53) - (e + Zpos k)) with 0 by lia.
    cbn [shr shr_m shr_record_of_loc].
    replace (e + Zpos k <=? 1024 - 53) with true by (symmetry; apply Z.leb_le; lia).
    reflexivity.
Qed.

Lemma digits_of_product (p q : positive) :
  Zpos (digits2_pos p) + Zpos (digits2_pos q) - 1 <= Zpos (digits2_pos (p * q)).
Proof.
  pose proof (digits_bounds p) as [Hp _]. pose proof (digits_bounds q) as [Hq _].
  pose proof (digits_bounds (p * q)) as [_ Hpq].
  assert (H1 : 1 <= Zpos (digits2_pos p)) by lia.
  assert (H2 : 1 <= Zpos (digits2_pos q)) by lia.
  destruct (Z_le_gt_dec (Zpos (digits2_pos p) + Zpos (digits2_pos q) - 1)
                        (Zpos (digits2_pos (p * q)))) as [|Hgt]; [assumption|exfalso].
  assert (Hle : 2 ^ Zpos (digits2_pos (p * q))
                <= 2 ^ (Zpos (digits2_pos p) - 1 + (Zpos (digits2_pos q) - 1)))
    by (apply Z.pow_le_mono_r; lia).
  rewrite Z.pow_add_r in Hle by lia.
  rewrite Pos2Z.inj_mul in Hpq. nia.
Qed.

(** The product of two non-negative integers is exact on numbers while it
    stays below [2^53]. *)
Lemma mul_of_safe (a b : Z) :
  0 <= a < 2 ^ 53 -> 0 <= b < 2 ^ 53 -> a * b < 2 ^ 53 ->
  mul (Number_of_BigInt a) (Number_of_BigInt b) = Number_of_BigInt (a * b).
Proof.
  intros [Ha Hp] [Hb Hq] Hab. destruct a as [|p|p], b as [|q|q]; try lia.
  - reflexivity.
  - destruct (Number_of_safe q Hq) as (m & -> & _). reflexivity.
  - destruct (Number_of_safe p Hp) as (m & -> & _). reflexivity.
  - 
    change (Zpos p * Zpos q) with (Zpos (p * q)) in *.
    destruct (Number_of_safe p Hp) as (m & -> & Hm & Hdm).
    destruct (Number_of_safe q Hq) as (n & -> & Hn & Hdn).
    destruct (Number_of_safe (p * q) Hab) as (r & -> & Hr & Hdr).
    pose proof (digits_of_product p q) as Hdig.
    pose proof (digits_safe p Hp). pose proof (digits_safe q Hq).
    pose proof (digits_safe (p * q) Hab).
    unfold exponent_of in *. unfold mul, SFmul. cbn [xorb].
    set (dp := Zpos (digits2_pos p)) in *. set (dq := Zpos (digits2_pos q)) in *.
    set (dr := Zpos (digits2_pos (p * q))) in *.
    replace (dr - 53) with ((dp - 53 + (dq - 53)) + (53 + dr - dp - dq)) by lia.
    apply round_aux_shifted; try assumption; try lia.
    assert (E : 2 ^ (53 - dr) * 2 ^ (53 + dr - dp - dq) = 2 ^ (53 - dp) * 2 ^ (53 - dq))
      by (rewrite <- !Z.pow_add_r by lia; f_equal; lia).
    rewrite Pos2Z.inj_mul, Hm, Hn, Hr, Pos2Z.inj_mul.
    replace (- (dp - 53)) with (53 - dp) by lia.
    replace (- (dq - 53)) with (53 - dq) by lia.
    replace (- (dr - 53)) with (53 - dr) by lia.
    rewrite <- (Z.mul_assoc (Zpos p * Zpos q)), E. ring.
Qed.

End Products.

Section Literals.
Import JS.

Lemma decimal_digit (c : ascii) (d : Z) :
  Str.digit_in 10 c = Some d -> digit_of c = Some d /\ 0 <= d.
Proof.
  unfold Str.digit_in, Str.digit_value, digit_of. cbv zeta.
  set (n := Z.of_nat (nat_of_ascii c)).
  destruct (andb (48 <=? n) (n <=? 57)) eqn:E1.
  - destruct (n - 48 <? 10); intros H; [|discriminate H]. injection H as <-.
    apply andb_true_iff in E1 as [H1 _]. apply Z.leb_le in H1. split; [reflexivity|lia].
  - destruct (andb (97 <=? n) (n <=? 102)) eqn:E2.
    + apply andb_true_iff in E2 as [H1 _]. apply Z.leb_le in H1.
      destruct (n - 87 <? 10) eqn:E; [apply Z.ltb_lt in E; lia|discriminate].
    + destruct (andb (65 <=? n) (n <=? 70)) eqn:E3.
      * apply andb_true_iff in E3 as [H1 _]. apply Z.leb_le in H1.
        destruct (n - 55 <? 10) eqn:E; [apply Z.ltb_lt in E; lia|discriminate].
      * discriminate.
Qed.

Lemma read_digits_all (s : string) (acc count n : Z) :
  Str.read_radix 10 s acc = Some n -> 0 <= acc ->
  read_digits s acc count = (n, count + Z.of_nat (String.length s), "")
  /\ 0 <= n.
Proof.
  revert acc count. induction s as [|c s IH]; intros acc count H Hacc.
  - cbn in *. injection H as <-. split; [f_equal; f_equal; lia|assumption].
  - cbn [Str.read_radix read_digits] in *.
    destruct (Str.digit_in 10 c) as [d|] eqn:Hd; [|discriminate H].
    apply decimal_digit in Hd as [-> Hd0].
    destruct (IH (10 * acc + d) (count + 1) H ltac:(lia)) as [-> Hn].
    split; [|assumption]. f_equal. f_equal. cbn [String.length]. lia.
Qed.

(** A literal that starts with a digit has no white space, sign or
    [Infinity] at its head. *)
Lemma head_digit (c : ascii) (r : string) (d : Z) :
  digit_of c = Some d ->
  trim_start (String c r) = String c r
  /\ read_sign (String c r) = (false, String c r)
  /\ starts_with "Infinity" (String c r) = false.
Proof.
  intros H.
  assert (Hc : In c ["0"; "1"; "2"; "3"; "4"; "5"; "6"; "7"; "8"; "9"]%char).
  { destruct c as [[] [] [] [] [] [] [] []]; try discriminate H; cbn; tauto. }
  cbn [In] in Hc.
  repeat (destruct Hc as [<-|Hc]; [repeat split; reflexivity|]). contradiction.
Qed.

(** [parseFloat] of a string of decimal digits is the number of its
    value. *)
Lemma parseFloat_digits (s : string) (n : Z) :
  s <> "" -> Str.read_radix 10 s 0 = Some n ->
  parseFloat s = Number_of_BigInt n /\ 0 <= n.
Proof.
  intros Hs H. destruct s as [|c r]; [now elim Hs|].
  destruct (read_digits_all _ 0 0 n H ltac:(lia)) as [Hread Hn].
  cbn [Str.read_radix] in H. destruct (Str.digit_in 10 c) as [d|] eqn:Hd; [|discriminate H].
  apply decimal_digit in Hd as [Hd _].
  destruct (head_digit c r d Hd) as (Ht & Hsign & Hinf).
  split; [|assumption].
  unfold parseFloat. rewrite Ht, Hsign, Hinf, Hread.
  replace (0 + Z.of_nat (String.length (String c r)) + 0 =? 0) with false
    by (symmetry; apply Z.eqb_neq; cbn [String.length]; lia).
  cbn [read_exponent]. unfold Number_of_decimal, Number_of_BigInt. cbn [Z.sub Z.opp Z.add Z.leb Z.compare].
  now rewrite Z.pow_0_r, Z.mul_1_r.
Qed.

(** X12.  An amount written in decimal digits only converts exactly, to
    its value times 1000000, as long as that stays below [2^53]. *)
Theorem whole_amounts_convert_exactly (s : string) (n : Z) :
  s <> "" -> Str.read_radix 10 s 0 = Some n -> n * 1000000 < 2 ^ 53 ->
  amountInWei s = Ok (n * 1000000).
Proof.
  intros Hs H Hn. destruct (parseFloat_digits s n Hs H) as [Hp H0].
  unfold amountInWei. rewrite Hp, mul_of_safe by lia.
  apply BigInt_of_Number_of_safe. lia.
Qed.

End Literals.

(** ** More runs on the test network *)
Section MoreExamples.
Import Testnet.

(** The link fails at the seventh request, the submission. *)
Lemma transferUSDC_passes_errors_on_witness :
  In (Rejected "request failed") (rejections (trace Outage.cut_run))
  /\ ended Outage.cut_run = Threw (Rejected "request failed")
  /\ kinds (trace Outage.cut_run)
     = [KDerive; KPermit; KSign; KCall; KGasPrice; KEstimate; KSend].
Proof.
  assert (H : In (Rejected "request failed") (rejections (trace Outage.cut_run)))
    by (vm_compute; left; reflexivity).
  split; [exact H|].
  destruct (transferUSDC_passes_errors_on key recipient 10500000
              (mkSystem initial_page [] (6%nat, funded)) _ H) as (He & _ & _).
  split; [exact He|]. vm_compute. reflexivity.
Defined.

(** The receipt of the test transfer. *)
Lemma transferUSDC_returns_the_receipt_witness :
  ended transfer_run
  = Returned (mkReceipt true 250000 25000000000000 (mkTx (operation_hash funded) 300000))
  /\ map fst (waits (trace transfer_run)) = [operation_hash funded]
  /\ map snd (sends (trace transfer_run)) = [Ok (operation_hash funded)].
Proof.
  assert (H : ended transfer_run
              = Returned (mkReceipt true 250000 25000000000000
                                    (mkTx (operation_hash funded) 300000)))
    by (vm_compute; reflexivity).
  split; [exact H|].
  destruct (transferUSDC_returns_the_receipt key recipient 10500000 (boot funded) _ H)
    as (op & h & Hs & Hw & _).
  unfold transfer_run. rewrite Hw, Hs. cbn [map fst snd].
  vm_compute in Hs. injection Hs as _ <-. split; reflexivity.
Defined.

(** The test transfer: estimated without limits, submitted with the
    bundler's. *)
Lemma submission_follows_estimation_witness :
  In sent (submissions (trace transfer_run))
  /\ uo_calls sent = [mkCall ARBITRUM_SEPOLIA_USDC tokenAbi "transfer" (recipient, 10500000)]
  /\ map (fun e => uo_paymasterPostOpGasLimit (fst e)) (estimations (trace transfer_run))
     = [Some 15000]
  /\ uo_callGasLimit sent = Some 90000
  /\ uo_maxFeePerGas sent = 100000000.
Proof.
  assert (H : In sent (submissions (trace transfer_run)))
    by (vm_compute; left; reflexivity).
  split; [exact H|].
  destruct (submission_follows_estimation key recipient 10500000 (boot funded) sent H)
    as (estimated & est & fees & called & charge
        & Hest & _ & Hcall & Hcharge & Hpost & _ & _ & Hcalls & _).
  split; [exact Hcalls|].
  split; [|split; reflexivity].
  unfold transfer_run. rewrite Hest. cbn [map fst]. rewrite Hpost.
  assert (E : map (fun c => snd c) (eth_calls (trace (run (transferUSDC key recipient 10500000)
                                                          (boot funded))))
              = [Ok (Some (mkReturn (Some (word 15000))))]) by (vm_compute; reflexivity).
  rewrite Hcall in E. cbn [map snd] in E. injection E as ->.
  vm_compute in Hcharge. injection Hcharge as <-. reflexivity.
Defined.

(** A node that answers the paymaster call with nothing. *)
Lemma empty_call_answer_means_no_surcharge_witness :
  In (ARBITRUM_SEPOLIA_PAYMASTER, "0x3e04619d", Ok None)
     (eth_calls (trace (Odd.run_on Odd.silent)))
  /\ map (fun e => uo_paymasterPostOpGasLimit (fst e))
         (estimations (trace (Odd.run_on Odd.silent))) = [Some 0]
  /\ map uo_paymasterPostOpGasLimit (submissions (trace (Odd.run_on Odd.silent)))
     = [Some 20000].
Proof.
  assert (H : In (ARBITRUM_SEPOLIA_PAYMASTER, "0x3e04619d", Ok None)
                 (eth_calls (trace (Odd.run_on Odd.silent))))
    by (vm_compute; left; reflexivity).
  split; [exact H|].
  destruct (empty_call_answer_means_no_surcharge key recipient 10500000 (boot Odd.silent)
              _ _ H) as (_ & Hest).
  split; [|vm_compute; reflexivity].
  unfold Odd.run_on.
  destruct (estimations (trace (run (transferUSDC key recipient 10500000) (boot Odd.silent))))
    as [|[op answer] rest] eqn:E; [discriminate E|].
  cbn [map fst]. rewrite (Hest op answer (or_introl eq_refl)).
  vm_compute in E. injection E as _ _ <-. reflexivity.
Defined.

(** A node that answers the paymaster call without data. *)
Lemma call_answer_without_data_throws_witness :
  In (ARBITRUM_SEPOLIA_PAYMASTER, "0x3e04619d", Ok (Some (mkReturn None)))
     (eth_calls (trace (Odd.run_on Odd.dataless)))
  /\ kinds (trace (Odd.run_on Odd.dataless)) = [KDerive; KPermit; KSign; KCall]
  /\ submissions (trace (Odd.run_on Odd.dataless)) = [].
Proof.
  assert (H : In (ARBITRUM_SEPOLIA_PAYMASTER, "0x3e04619d", Ok (Some (mkReturn None)))
                 (eth_calls (trace (Odd.run_on Odd.dataless))))
    by (vm_compute; left; reflexivity).
  split; [exact H|].
  destruct (call_answer_without_data_throws key recipient 10500000 (boot Odd.dataless)
              _ _ H) as (Hk & _).
  split; [exact Hk|]. vm_compute. reflexivity.
Defined.

(** A bundler that estimates no post-op gas. *)
Lemma no_postOp_estimate_no_submission_witness :
  In (Odd.to_estimate, Ok (gas_estimate Odd.unestimated))
     (estimations (trace (Odd.run_on Odd.unestimated)))
  /\ est_paymasterPostOpGasLimit (gas_estimate Odd.unestimated) = None
  /\ submissions (trace (Odd.run_on Odd.unestimated)) = [].
Proof.
  assert (H : In (Odd.to_estimate, Ok (gas_estimate Odd.unestimated))
                 (estimations (trace (Odd.run_on Odd.unestimated))))
    by (vm_compute; left; reflexivity).
  assert (Hn : est_paymasterPostOpGasLimit (gas_estimate Odd.unestimated) = None)
    by reflexivity.
  split; [exact H|]. split; [exact Hn|].
  destruct (no_postOp_estimate_no_submission key recipient 10500000 (boot Odd.unestimated)
              _ _ H Hn) as (Hs & _).
  exact Hs.
Defined.

(** The form of the test page with 10.5 USDC to send. *)
Lemma transfer_reports_the_outcome_witness :
  amountInWei (amount (page (form "10.5" funded))) = Ok 10500000
  /\ account (page (form "10.5" funded)) = Some credential
  /\ status (page (final (fire transfer (form "10.5" funded))))
     = "Transfer completed successfully!".
Proof.
  assert (Ha : amountInWei (amount (page (form "10.5" funded))) = Ok 10500000)
    by (vm_compute; reflexivity).
  assert (Hi : account (page (form "10.5" funded)) = Some credential) by reflexivity.
  split; [exact Ha|]. split; [exact Hi|].
  destruct (transfer_reports_the_outcome (page (form "10.5" funded)) (form "10.5" funded)
              _ _ Ha Hi) as (_ & _ & _ & Hs).
  unfold fire. rewrite Hs. vm_compute. reflexivity.
Defined.

(** An amount that is no number: the handler stops at the conversion. *)
Lemma transfer_fails_before_the_network_witness :
  (exists m, amountInWei (amount (page (form "abc" funded))) = Err (RangeError m))
  /\ kinds (trace (fire transfer (form "abc" funded))) = []
  /\ world (final (fire transfer (form "abc" funded))) = funded.
Proof.
  assert (Ha : amountInWei (amount (page (form "abc" funded)))
               = Err (RangeError
                   "The number cannot be converted to a BigInt because it is not an integer"))
    by (vm_compute; reflexivity).
  split; [eexists; exact Ha|].
  destruct (transfer_fails_before_the_network (page (form "abc" funded)) (form "abc" funded)
              _ (or_introl Ha)) as (Ht & Hw & _).
  unfold fire. rewrite Ht, Hw. split; reflexivity.
Defined.

(** Ten USDC. *)
Lemma whole_amounts_convert_exactly_witness :
  Str.read_radix 10 "10" 0 = Some 10 /\ amountInWei "10" = Ok 10000000.
Proof.
  assert (H : Str.read_radix 10 "10" 0 = Some 10) by reflexivity.
  split; [exact H|].
  apply (whole_amounts_convert_exactly "10" 10); [discriminate|exact H|reflexivity].
Defined.

End MoreExamples.

Section Signs.
Import JS.

(** Rounding does not look at the sign. *)
Lemma round_aux_negb (sx : bool) (m e : Z) (l : location) :
  binary_round_aux prec emax (negb sx) m e l = SFopp (binary_round_aux prec emax sx m e l).
Proof.
  unfold binary_round_aux.
  destruct (shr_fexp prec emax m e l) as [mrs' e'].
  destruct (shr_fexp prec emax _ e' loc_Exact) as [mrs'' e''].
  destruct (shr_m mrs'') as [|p|p]; try reflexivity.
  now destruct (e'' <=? emax - prec).
Qed.

Lemma Number_of_opp (z : Z) :
  0 < z -> Number_of_BigInt (- z) = SFopp (Number_of_BigInt z).
Proof.
  intros Hz. destruct z as [|p|p]; try lia.
  unfold Number_of_BigInt, binary_normalize, binary_round. cbn [Z.opp].
  destruct (shl_align p 0 _) as [mz ez]. exact (round_aux_negb false (Zpos mz) ez loc_Exact).
Qed.

Lemma mul_opp (x y : Number) : mul (SFopp x) y = SFopp (mul x y).
Proof.
  unfold mul.
  destruct x as [sx|sx| |sx mx ex], y as [sy|sy| |sy my ey]; cbn [SFopp SFmul];
    try reflexivity; try (now destruct sx, sy).
  replace (xorb (negb sx) sy) with (negb (xorb sx sy)) by now destruct sx, sy.
  apply round_aux_negb.
Qed.

Lemma BigInt_of_opp (x : Number) (z : Z) :
  BigInt_of_Number x = Ok z -> BigInt_of_Number (SFopp x) = Ok (- z).
Proof.
  destruct x as [sx|sx| |sx mx ex]; cbn [SFopp BigInt_of_Number]; try discriminate.
  - intros H. injection H as <-. reflexivity.
  - destruct (0 <=? ex).
    + intros H. injection H as <-.
      destruct sx; cbn [negb cond_Zopp]; now rewrite ?Z.opp_involutive.
    + destruct (Zpos mx mod 2 ^ (- ex) =? 0); [|discriminate].
      intros H. injection H as <-.
      destruct sx; cbn [negb cond_Zopp]; now rewrite ?Z.opp_involutive.
Qed.

(** [parseFloat] of decimal digits behind a minus sign. *)
Lemma parseFloat_minus_digits (s : string) (n : Z) :
  s <> "" -> Str.read_radix 10 s 0 = Some n ->
  parseFloat (String "-" s) = SFopp (Number_of_BigInt n) /\ 0 <= n.
Proof.
  intros Hs H. destruct s as [|c r]; [now elim Hs|].
  destruct (read_digits_all _ 0 0 n H ltac:(lia)) as [Hread Hn].
  cbn [Str.read_radix] in H. destruct (Str.digit_in 10 c) as [d|] eqn:Hd; [|discriminate H].
  apply decimal_digit in Hd as [Hd _].
  destruct (head_digit c r d Hd) as (_ & _ & Hinf).
  split; [|assumption].
  unfold parseFloat.
  change (trim_start (String "-" (String c r))) with (String "-" (String c r)).
  cbn [read_sign]. rewrite Hinf, Hread.
  replace (0 + Z.of_nat (String.length (String c r)) + 0 =? 0) with false
    by (symmetry; apply Z.eqb_neq; cbn [String.length]; lia).
  cbn [read_exponent]. unfold Number_of_decimal. cbn [Z.sub Z.opp Z.add Z.leb Z.compare].
  rewrite Z.pow_0_r, Z.mul_1_r.
  destruct n as [|p|p]; try lia; [reflexivity|].
  exact (Number_of_opp (Zpos p) eq_refl).
Qed.

End Signs.

Section Negative.

(** X13.  A negative whole amount is turned away neither by the guard of
    the transfer button nor by the conversion: it converts to the negative
    integer, which is what the executor is called with. *)
Theorem negative_amounts_are_converted (s : string) (n : Z) :
  s <> "" -> Str.read_radix 10 s 0 = Some n -> n * 1000000 < 2 ^ 53 ->
  amountInWei (String "-" s) = Ok (- (n * 1000000))
  /\ forall st : PageState,
       amount st = String "-" s ->
       transfer_disabled st = (loading st || negb (truthy (recipientAddress st))).
Proof.
  intros Hs H Hn. destruct (parseFloat_minus_digits s n Hs H) as [Hp H0]. split.
  - unfold amountInWei. rewrite Hp, mul_opp, mul_of_safe by lia.
    apply BigInt_of_opp, BigInt_of_Number_of_safe. lia.
  - intros st Ha. unfold transfer_disabled. rewrite Ha. cbn [truthy negb].
    now rewrite orb_false_r.
Qed.

End Negative.

(** Minus five USDC. *)
Lemma negative_amounts_are_converted_witness :
  Str.read_radix 10 "5" 0 = Some 5 /\ amountInWei "-5" = Ok (-5000000).
Proof.
  assert (H : Str.read_radix 10 "5" 0 = Some 5) by reflexivity.
  split; [exact H|].
  destruct (negative_amounts_are_converted "5" 5) as [Ha _];
    [discriminate|exact H|reflexivity|exact Ha].
Defined.

(** ** Sessions *)

Section Lists.

Lemma last_cons {A : Type} (x : A) (l : list A) (d : A) : last (x :: l) d = last l x.
Proof.
  revert x d. induction l as [|y l IH]; intros x d; [reflexivity|].
  change (last (x :: y :: l) d) with (last (y :: l) d). now rewrite !IH.
Qed.

Lemma last_app_default {A : Type} (l m : list A) (d : A) :
  last (l ++ m) d = last m (last l d).
Proof.
  revert d. induction l as [|a l IH]; intros d; [reflexivity|].
  cbn [app]. now rewrite !last_cons, IH.
Qed.

Lemma alternates_app (now : bool) (l m : list bool) :
  alternates now (l ++ m) = alternates now l && alternates (last l now) m.
Proof.
  revert now. induction l as [|b l IH]; intros now; [reflexivity|].
  cbn [app alternates]. now rewrite IH, andb_assoc, last_cons.
Qed.

Lemma account_sets_app (t u : list entry) :
  account_sets (t ++ u) = (account_sets t ++ account_sets u)%list.
Proof. unfold account_sets. now rewrite actions_app, filter_app. Qed.

Lemma Forall_put {A : Type} (P : A -> Prop) (i : nat) (new l : list A) :
  Forall P new -> Forall P l -> Forall P (put i new l).
Proof.
  intros Hn Hl. revert i. induction Hl as [|x l Hx Hl IH]; intros i; [destruct i; constructor|].
  destruct i as [|i]; cbn [put].
  - apply Forall_app. now split.
  - constructor; [assumption|apply IH].
Qed.

Lemma Forall_keep {R : Type} (P : prog R -> Prop) (p : prog R) :
  (suspended p = true -> P p) -> Forall P (keep p).
Proof.
  unfold keep. destruct (suspended p); intros H; constructor; auto.
Qed.

End Lists.

Section Steps.
Context {lib : Library} {W : Type} {env : Environment W}.

(** A run up to the next request asks nothing and leaves the world and the
    displayed balance alone. *)
Lemma sync_frame {R : Type} (p : prog R) (s : System W) p' s' tr :
  sync p s = (p', s', tr) ->
  world s' = world s
  /\ usdcBalance (page s') = usdcBalance (page s)
  /\ forallb provisioned tr = true
  /\ forall q r, ~ In (Asked q r) tr.
Proof.
  revert s p' s' tr. induction p as [x|e|a k IH|q k IH]; intros s p' s' tr H; cbn [sync] in H.
  1,2,4: injection H as <- <- <-; repeat split; auto.
  destruct (sync k (apply_action a s)) as [[p1 s1] tr1] eqn:E. injection H as <- <- <-.
  destruct (IH _ _ _ _ E) as (Hw & Hu & Hp & Hn). repeat split.
  - now rewrite Hw.
  - rewrite Hu. now destruct a.
  - exact Hp.
  - intros q r [Hin|Hin]; [discriminate Hin|]. exact (Hn q r Hin).
Qed.

Lemma sync_releasing (p : prog unit) (s : System W) p' s' tr :
  releasing p -> loading (page s) = true -> sync p s = (p', s', tr) ->
  (suspended p' = true /\ releasing p' /\ loading (page s') = true
   /\ loading_changes (actions tr) = [])
  \/ (suspended p' = false /\ loading (page s') = false
      /\ loading_changes (actions tr) = [false]).
Proof.
  revert s p' s' tr. induction p as [x|e|a k IH|q k IH]; intros s p' s' tr Hr Hl H;
    cbn [sync releasing] in *.
  - destruct Hr.
  - destruct Hr.
  - destruct (sync k (apply_action a s)) as [[p1 s1] tr1] eqn:E. injection H as <- <- <-.
    destruct a as [b|v|v|v|v|v];
      try (destruct ((fun H1 H2 => IH _ _ _ _ H1 H2 E) Hr Hl)
             as [(H1 & H2 & H3 & H4)|(H1 & H3 & H4)];
           [left|right]; repeat split; cbn [actions loading_changes]; assumption).
    destruct Hr as [-> ->]. cbn [sync] in E. injection E as <- <- <-.
    right. repeat split.
  - injection H as <- <- <-. left. repeat split; assumption.
Qed.

Lemma sync_never_sets {R : Type} (p : prog R) (s : System W) p' s' tr :
  never_sets p -> sync p s = (p', s', tr) ->
  never_sets p' /\ account (page s') = account (page s) /\ account_sets tr = [].
Proof.
  unfold never_sets.
  revert s p' s' tr. induction p as [x|e|a k IH|q k IH]; intros s p' s' tr Hp H;
    cbn [sync only] in *.
  1,2,4: injection H as <- <- <-; split; [exact Hp|split; reflexivity].
  destruct (sync k (apply_action a s)) as [[p1 s1] tr1] eqn:E. injection H as <- <- <-.
  destruct Hp as [Ha Hk]. destruct (IH _ _ _ _ Hk E) as (H1 & H2 & H3).
  split; [exact H1|]. split.
  - rewrite H2. destruct a; try reflexivity. discriminate Ha.
  - unfold account_sets in *. cbn [actions filter].
    destruct (sets_account a); [discriminate Ha|exact H3].
Qed.

Lemma sync_provisions (p : prog unit) (s : System W) p' s' tr :
  provisions p -> account (page s) = None -> sync p s = (p', s', tr) ->
  (account (page s') = None /\ account_sets tr = [] /\ provisions p')
  \/ (exists info, account (page s') = Some info
                   /\ account_sets tr = [SetAccount (Some info)] /\ never_sets p').
Proof.
  revert s p' s' tr. induction p as [x|e|a k IH|q k IH]; intros s p' s' tr Hp Hn H;
    cbn [sync provisions] in *.
  1,2,4: injection H as <- <- <-; left; split; [exact Hn|split; [reflexivity|exact Hp]].
  destruct (sync k (apply_action a s)) as [[p1 s1] tr1] eqn:E. injection H as <- <- <-.
  destruct a as [b|v|v|v|v|v];
    try (destruct ((fun H1 H2 => IH _ _ _ _ H1 H2 E) Hp Hn)
           as [(H1 & H2 & H3)|(info & H1 & H2 & H3)];
         [left|right; exists info]; repeat split; try assumption;
         unfold account_sets in *; cbn [actions filter sets_account]; assumption).
  destruct Hp as [Hv Hk]. destruct v as [info|]; [|now elim Hv].
  destruct (sync_never_sets _ _ _ _ _ Hk E) as (H1 & H2 & H3).
  right. exists info. split; [exact H2|]. split; [|exact H1].
  unfold account_sets in *. cbn [actions filter sets_account]. now rewrite H3.
Qed.

(** *** The two handlers *)

Lemma only_try_catch {R : Type} (P : action -> bool) (p : prog R) (h : js_error -> prog R) :
  only P p -> (forall e, only P (h e)) -> only P (try_catch p h).
Proof.
  intros Hp Hh. induction p as [x|e|a k IH|q k IH]; cbn in *; auto.
  split; [apply Hp|apply IH, Hp].
Qed.

Lemma only_try_finally {R : Type} (P : action -> bool) (p : prog R) (f : prog unit) :
  only P p -> only P f -> only P (try_finally p f).
Proof.
  intros Hp Hf. induction p as [x|e|a k IH|q k IH]; cbn [try_finally only] in *; auto.
  - apply only_bind; [assumption|intros; exact I].
  - apply only_bind; [assumption|intros; exact I].
  - split; [apply Hp|apply IH, Hp].
Qed.

Lemma releasing_guarded (body : prog unit) (report : js_error -> string) :
  only keeps_loading body ->
  releasing (try_finally (try_catch body (fun e => perform (SetStatus (report e))))
                         (perform (SetLoading false))).
Proof.
  induction body as [[]|e|a k IH|q k IH]; intros H;
    cbn [try_catch try_finally bind perform releasing only] in *.
  - now split.
  - now split.
  - destruct H as [Ha Hk]. destruct a; try discriminate Ha; now apply IH.
  - intros r. apply IH, H.
Qed.

Lemma createAccount_starts (st : PageState) :
  exists body,
    createAccount st = Do (SetLoading true) body /\ releasing body /\ provisions body.
Proof.
  eexists. split; [reflexivity|]. split.
  - apply releasing_guarded. unfold toEcdsaKernelSmartAccount, perform. only_steps.
  - unfold toEcdsaKernelSmartAccount, never_sets.
    cbn [try_catch try_finally bind perform await provisions provisioning].
    split; [reflexivity|]. intros [K|e]; cbn [try_catch try_finally bind perform provisions];
      [|exact I].
    destruct (privateKeyToAccount K) as [o|e];
      cbn [lift try_catch try_finally bind perform await provisions provisioning]; [|exact I].
    split; [reflexivity|]. intros [a|e];
      cbn [try_catch try_finally bind perform provisions only sets_account negb]; [|exact I].
    split; [discriminate|]. repeat split.
Qed.

Lemma transfer_starts (st : PageState) :
  exists body,
    transfer st = Do (SetLoading true) body /\ releasing body /\ never_sets body.
Proof.
  eexists. split; [reflexivity|]. split.
  - apply releasing_guarded. unfold perform. only_steps.
  - unfold never_sets. apply only_try_finally; [|now split].
    apply only_try_catch; [|intros e; now split].
    unfold perform. only_steps.
Qed.

Lemma fetchBalance_account (st st' : PageState) :
  account st = account st' -> fetchBalance st = fetchBalance st'.
Proof. intros H. unfold fetchBalance. now rewrite H. Qed.

(** [fetchBalance] returns at once, or reads the balance of the account
    and ends with its rendering. *)
Lemma fetchBalance_shape (st : PageState) :
  fetchBalance st = Ret None
  \/ exists info k,
       account st = Some info
       /\ fetchBalance st
          = Ask (BalanceOf (mkContract createPublicClient ARBITRUM_SEPOLIA_USDC balanceOf_abi)
                           (address info)) k
       /\ forall r,
            k r = match r with
                  | Ok units =>
                      match displayed units with
                      | Ok v => Ret (Some v)
                      | Err e => Throw e
                      end
                  | Err e => Throw e
                  end.
Proof.
  unfold fetchBalance. destruct (account st) as [info|]; [|now left].
  destruct (truthy (address info)); [|now left].
  right. exists info. eexists. split; [reflexivity|]. split; [reflexivity|].
  intros [units|e]; [|reflexivity]. cbn [bind]. unfold displayed.
  now destruct (Display.toFixed _ _).
Qed.

(** *** One event *)

Lemma opened_invariant (w : W) : Invariant (opened w).
Proof.
  constructor; cbn [opened screen handlers fetches history page initial_page account
                    loading usdcBalance actions loading_changes alternates last
                    account_sets filter forallb].
  - constructor.
  - constructor.
  - now left.
  - now split.
  - reflexivity.
  - repeat split; constructor.
  - constructor.
  - now left.
Qed.

(** An event that leaves the handlers, the busy flag and the account as
    they are. *)
Lemma quiet_event (b : Browser W) (s' : System W) (fs' : list (prog (option string)))
    (ext : list entry) :
  Invariant b ->
  loading (page s') = loading (page (screen b)) ->
  account (page s') = account (page (screen b)) ->
  loading_changes (actions ext) = [] ->
  account_sets ext = [] ->
  (account (page (screen b)) = None -> forallb provisioned ext = true /\ fs' = []) ->
  Forall (fun p => p = fetchBalance (page (screen b))) fs' ->
  (usdcBalance (page s') = usdcBalance (page (screen b))
   \/ exists info token units,
        account (page (screen b)) = Some info
        /\ In (Asked (BalanceOf token (address info)) (Ok units)) (history b ++ ext)
        /\ displayed units = Ok (usdcBalance (page s'))) ->
  Invariant (mkBrowser s' (handlers b) fs' (history b ++ ext)).
Proof.
  intros [I1 I2 I3 I4 I5 I6 I7 I8] Hl Ha Hlc Hs Hnone Hfs Hbal.
  constructor; cbn [screen handlers fetches history].
  - exact I1.
  - exact I2.
  - rewrite Hl. exact I3.
  - rewrite actions_app, loading_changes_app, Hlc, app_nil_r, Hl. exact I4.
  - rewrite account_sets_app, Hs, app_nil_r, Ha. exact I5.
  - rewrite Ha. destruct (account (page (screen b))) as [info|]; [exact I6|].
    destruct I6 as (H1 & H2 & H3). destruct (Hnone eq_refl) as [H4 H5].
    split; [exact H1|]. split; [exact H5|]. now rewrite forallb_app, H3, H4.
  - rewrite (fetchBalance_account (page s') (page (screen b)) Ha). exact Hfs.
  - destruct Hbal as [Hu|(info & token & units & Hi & Hin & Hd)].
    + rewrite Hu, Ha. destruct I8 as [H0|(info & token & units & Hi & Hin & Hd)];
        [now left|right].
      exists info, token, units. split; [exact Hi|]. split; [|exact Hd].
      apply in_or_app. now left.
    + right. exists info, token, units. rewrite Ha. auto.
Qed.

(** A handler running on from [k], at its start or after an answer. *)
Lemma handler_runs_on (b : Browser W) (s1 : System W) (pre : list entry) (k : prog unit) p' s' tr :
  Invariant b ->
  sync k s1 = (p', s', tr) ->
  releasing k ->
  loading (page s1) = true ->
  account (page s1) = account (page (screen b)) ->
  usdcBalance (page s1) = usdcBalance (page (screen b)) ->
  loading_changes (actions pre) = (if loading (page (screen b)) then [] else [true]) ->
  account_sets pre = [] ->
  match account (page (screen b)) with
  | Some _ => never_sets k
  | None => provisions k /\ forallb provisioned pre = true
  end ->
  Invariant (mkBrowser s' (keep p') (fetches b) (history b ++ pre ++ tr)).
Proof.
  intros [I1 I2 I3 I4 I5 I6 I7 I8] Hsync Hrel Hload Hacc Hbal Hpre Hsets Hk.
  destruct (sync_frame _ _ _ _ _ Hsync) as (_ & Hu & Hprov & _).
  pose proof (sync_releasing _ _ _ _ _ Hrel Hload Hsync) as Hlock.
  assert (Hcase :
    (account (page s') = account (page (screen b)) /\ account_sets tr = []
     /\ match account (page (screen b)) with
        | Some _ => never_sets p'
        | None => provisions p'
        end)
    \/ (account (page (screen b)) = None
        /\ exists info, account (page s') = Some info
                        /\ account_sets tr = [SetAccount (Some info)] /\ never_sets p')).
  { destruct (account (page (screen b))) as [info|] eqn:Ea.
    - left. destruct (sync_never_sets _ _ _ _ _ Hk Hsync) as (H1 & H2 & H3).
      rewrite H2, Hacc. auto.
    - destruct Hk as [Hk Hp].
      destruct (sync_provisions _ _ _ _ _ Hk Hacc Hsync)
        as [(H1 & H2 & H3)|(info & H1 & H2 & H3)].
      + left. rewrite H1. auto.
      + right. split; [reflexivity|]. exists info. auto. }
  constructor; cbn [screen handlers fetches history].
  - apply Forall_keep. auto.
  - apply Forall_keep. intros Hs.
    destruct Hlock as [(_ & H & _)|(Hf & _)]; [exact H|congruence].
  - unfold keep. destruct Hlock as [(Hs & _ & Hl & _)|(Hs & Hl & _)]; rewrite Hs.
    + right. exists p'. auto.
    + left. auto.
  - destruct I4 as [Ia Il].
    rewrite !actions_app, !loading_changes_app, !alternates_app, !last_app_default.
    rewrite Ia, Il, Hpre.
    destruct Hlock as [(_ & _ & Hl & Hc)|(_ & Hl & Hc)]; rewrite Hc, Hl;
      destruct (loading (page (screen b))); split; reflexivity.
  - rewrite !account_sets_app, I5, Hsets.
    destruct Hcase as [(Ha & Hs & _)|(Hn & info & Ha & Hs & _)]; rewrite Ha, Hs.
    + now rewrite !app_nil_r.
    + now rewrite Hn.
  - destruct Hcase as [(Ha & Hs & Hp)|(Hn & info & Ha & Hs & Hp)]; rewrite Ha.
    + destruct (account (page (screen b))) as [info|].
      * apply Forall_keep. auto.
      * destruct I6 as (H1 & H2 & H3). destruct Hk as [_ Hk].
        split; [apply Forall_keep; auto|]. split; [exact H2|].
        now rewrite !forallb_app, H3, Hk, Hprov.
    + apply Forall_keep. auto.
  - destruct Hcase as [(Ha & _)|(Hn & _)].
    + rewrite (fetchBalance_account (page s') (page (screen b)) Ha). exact I7.
    + rewrite Hn in I6. destruct I6 as (_ & -> & _). constructor.
  - rewrite Hu, Hbal. destruct I8 as [H0|(info & token & units & Hi & Hin & Hd)];
      [now left|right].
    exists info, token, units.
    destruct Hcase as [(Ha & _)|(Hn & _)]; [|congruence].
    rewrite Ha. split; [exact Hi|]. split; [|exact Hd]. apply in_or_app. now left.
Qed.

Lemma start_nothing (b : Browser W) : Invariant b -> Invariant (start (Ret tt) b).
Proof.
  intros H. unfold start. cbn [sync keep suspended]. rewrite !app_nil_r.
  now destruct b.
Qed.

Lemma start_typing (b : Browser W) (a : action) :
  Invariant b ->
  (exists v, a = SetRecipientAddress v) \/ (exists v, a = SetAmount v) ->
  Invariant (start (perform a) b).
Proof.
  intros H Ha. unfold start, perform. cbn [sync keep suspended]. rewrite app_nil_r.
  apply quiet_event; try assumption.
  - now destruct Ha as [[v ->]|[v ->]].
  - now destruct Ha as [[v ->]|[v ->]].
  - now destruct Ha as [[v ->]|[v ->]].
  - now destruct Ha as [[v ->]|[v ->]].
  - intros Hn. split; [now destruct Ha as [[v ->]|[v ->]]|].
    destruct H as [_ _ _ _ _ I6 _ _]. rewrite Hn in I6. apply I6.
  - apply H.
  - left. now destruct Ha as [[v ->]|[v ->]].
Qed.

Lemma start_handler (b : Browser W) (body : prog unit) :
  Invariant b ->
  loading (page (screen b)) = false ->
  releasing body ->
  match account (page (screen b)) with
  | Some _ => never_sets body
  | None => provisions body
  end ->
  Invariant (start (Do (SetLoading true) body) b).
Proof.
  intros H Hl Hr Hk. unfold start. cbn [sync].
  destruct (sync body (apply_action (SetLoading true) (screen b))) as [[p' s'] tr] eqn:E.
  assert (Hh : handlers b = []).
  { destruct H as [_ _ [[Hh _]|(p & _ & Ht)] _ _ _ _ _]; [exact Hh|congruence]. }
  rewrite Hh. cbn [app].
  apply (handler_runs_on b (apply_action (SetLoading true) (screen b)) [Did (SetLoading true)]
                 body p' s' tr); try assumption; try reflexivity.
  - now rewrite Hl.
  - destruct (account (page (screen b))); [exact Hk|now split].
Qed.

Lemma step_invariant (b : Browser W) (e : event) : Invariant b -> Invariant (step b e).
Proof.
  intros H. destruct e as [| |v|v| |i|i]; cbn [step].
  - (* the create button *)
    unfold click_createAccount, createAccount_disabled.
    destruct (account (page (screen b))) as [info|] eqn:Ea; [now apply start_nothing|].
    destruct (loading (page (screen b))) eqn:El; [now apply start_nothing|].
    destruct (createAccount_starts (page (screen b))) as (body & -> & Hr & Hp).
    apply start_handler; try assumption. now rewrite Ea.
  - (* the transfer button *)
    unfold transfer_tab, click_transfer, transfer_disabled.
    destruct (account (page (screen b))) as [info|] eqn:Ea; [|now apply start_nothing].
    destruct (loading (page (screen b))) eqn:El; [now apply start_nothing|].
    cbn [orb].
    destruct (negb (truthy (recipientAddress (page (screen b))))
              || negb (truthy (amount (page (screen b))))); [now apply start_nothing|].
    destruct (transfer_starts (page (screen b))) as (body & -> & Hr & Hp).
    apply start_handler; try assumption. now rewrite Ea.
  - unfold transfer_tab. destruct (account (page (screen b))); [|now apply start_nothing].
    apply start_typing; [assumption|left; eauto].
  - unfold transfer_tab. destruct (account (page (screen b))); [|now apply start_nothing].
    apply start_typing; [assumption|right; eauto].
  - (* the interval *)
    destruct (fetchBalance_shape (page (screen b))) as [Hf|(info & k & Hi & Hf & Hk)];
      rewrite Hf; cbn [sync keep suspended settle]; rewrite !app_nil_r.
    + now destruct b.
    + rewrite <- (app_nil_r (history b)).
      apply quiet_event; try assumption; try reflexivity.
      * intros Hn. congruence.
      * apply Forall_app. split; [apply H|]. constructor; [now rewrite Hf|constructor].
      * now left.
  - (* an answer for the handler *)
    destruct (nth_error (handlers b) i) as [p|] eqn:En; [|exact H].
    pose proof H as [I1 I2 I3 _ _ I6 _ _].
    destruct I3 as [[Hh _]|(p0 & Hh & Hl)]; rewrite Hh in *.
    { destruct i; discriminate En. }
    destruct i as [|i]; [|destruct i; discriminate En].
    cbn [nth_error] in En. injection En as <-.
    apply Forall_inv in I1, I2.
    destruct p0 as [x|e|a k|q k]; try discriminate I1.
    cbn [resume]. destruct (answer q (world (screen b))) as [r w].
    destruct (sync (k r) (mkSystem (page (screen b)) (console (screen b)) w))
      as [[p' s'] tr] eqn:E.
    cbn [put]. rewrite app_nil_r.
    apply (handler_runs_on b (mkSystem (page (screen b)) (console (screen b)) w) [Asked q r]
                   (k r) p' s' tr); try assumption; try reflexivity.
    + apply I2.
    + now rewrite Hl.
    + destruct (account (page (screen b))) as [info|].
      * apply Forall_inv in I6. apply I6.
      * destruct I6 as (Hp & _). apply Forall_inv in Hp. destruct Hp as [Hq Hp].
        split; [apply Hp|]. cbn [forallb provisioned]. now rewrite Hq.
  - (* an answer for a balance read *)
    destruct (nth_error (fetches b) i) as [p|] eqn:En; [|exact H].
    pose proof H as [_ _ _ _ _ I6 I7 _].
    assert (Hp : p = fetchBalance (page (screen b))).
    { apply nth_error_In in En. rewrite Forall_forall in I7. now apply I7. }
    assert (Hsome : account (page (screen b)) <> None).
    { intros Hn. rewrite Hn in I6. destruct I6 as (_ & Hf & _). rewrite Hf in En.
      destruct i; discriminate En. }
    assert (Hput : forall new, Forall (fun p => p = fetchBalance (page (screen b))) new ->
                     Forall (fun p => p = fetchBalance (page (screen b)))
                            (put i new (fetches b)))
      by (intros new Hnew; now apply Forall_put).
    subst p.
    destruct (fetchBalance_shape (page (screen b))) as [Hf|(info & k & Hi & Hf & Hk)];
      rewrite Hf; cbn [resume keep suspended settle].
    + apply quiet_event; try assumption; try reflexivity.
      * intros Hn. now elim Hsome.
      * apply Hput. constructor.
      * now left.
    + destruct (answer _ (world (screen b))) as [r w]. rewrite Hk.
      destruct r as [units|e]; [destruct (displayed units) as [v|e] eqn:Ed|];
        cbn [sync keep suspended settle];
        apply quiet_event; try assumption; try reflexivity;
        try (intros Hn; now elim Hsome); try (apply Hput; constructor); try (now left).
      right. exists info. eexists. exists units. split; [exact Hi|]. split; [|exact Ed].
      apply in_or_app. right. now left.
Qed.

Lemma session_invariant (events : list event) (b : Browser W) :
  Invariant b -> Invariant (session events b).
Proof.
  revert b. induction events as [|e events IH]; intros b H; [exact H|].
  apply IH, step_invariant, H.
Qed.

Lemma session_app (events more : list event) (b : Browser W) :
  session (events ++ more) b = session more (session events b).
Proof. apply fold_left_app. Qed.

Lemma provisioned_only (tr : list entry) :
  forallb provisioned tr = true ->
  submissions tr = [] /\ estimations tr = [] /\ signings tr = [] /\ balance_reads tr = [].
Proof.
  induction tr as [|[a|q r] tr IH]; cbn [forallb provisioned]; intros H.
  - repeat split.
  - apply IH, H.
  - apply andb_true_iff in H as [Hq H]. destruct q; try discriminate Hq; apply IH, H.
Qed.

End Steps.

Section SessionProperties.
Context {lib : Library} {W : Type} {env : Environment W}.

Lemma step_history (b : Browser W) (e : event) :
  exists tr, history (step b e) = (history b ++ tr)%list.
Proof.
  assert (Hstart : forall p, exists tr, history (start p b) = (history b ++ tr)%list).
  { intros p. unfold start. destruct (sync p (screen b)) as [[p' s'] tr].
    now exists tr. }
  destruct e as [| |v|v| |i|i]; cbn [step]; try apply Hstart.
  - destruct (sync _ (screen b)) as [[p' s'] tr]. now exists tr.
  - destruct (nth_error (handlers b) i) as [p|]; [|exists []; now rewrite app_nil_r].
    destruct (resume p (screen b)) as [[p' s'] tr]. now exists tr.
  - destruct (nth_error (fetches b) i) as [p|]; [|exists []; now rewrite app_nil_r].
    destruct (resume p (screen b)) as [[p' s'] tr]. now exists tr.
Qed.

Lemma session_history (events : list event) (b : Browser W) :
  exists tr, history (session events b) = (history b ++ tr)%list.
Proof.
  revert b. induction events as [|e events IH]; intros b.
  - exists []. cbn. now rewrite app_nil_r.
  - cbn [session fold_left]. destruct (step_history b e) as [t1 H1].
    destruct (IH (step b e)) as [t2 H2]. exists (t1 ++ t2)%list.
    unfold session in H2. now rewrite H2, H1, app_assoc.
Qed.

(** X14.  Whatever the user clicks and types, whenever the interval fires
    and in whatever order the answers arrive: at most one of the handlers
    [createAccount] and [transfer] is in flight, the busy flag is up
    exactly while one is, and [setLoading] is only ever called to change
    the flag. *)
Theorem one_handler_at_a_time (events : list event) (w : W) :
  let b := session events (opened w) in
  ((handlers b = [] /\ loading (page (screen b)) = false)
   \/ (exists p, handlers b = [p] /\ loading (page (screen b)) = true))
  /\ alternates false (loading_changes (actions (history b))) = true
  /\ last (loading_changes (actions (history b))) false = loading (page (screen b)).
Proof.
  cbv zeta. destruct (session_invariant events (opened w) (opened_invariant w))
    as [_ _ I3 I4 _ _ _ _].
  split; [exact I3|exact I4].
Qed.

(** X15.  Once the page holds a credential it holds that credential for
    the rest of the session, and [setAccount] has been called once, with
    it. *)
Theorem the_account_is_set_once (events more : list event) (w : W) (info : AccountInfo) :
  account (page (screen (session events (opened w)))) = Some info ->
  account (page (screen (session (events ++ more) (opened w)))) = Some info
  /\ account_sets (history (session (events ++ more) (opened w)))
     = [SetAccount (Some info)].
Proof.
  intros H. rewrite session_app.
  pose proof (session_invariant events (opened w) (opened_invariant w)) as I.
  pose proof (session_invariant more _ I) as I'.
  destruct I as [_ _ _ _ I5 _ _ _]. destruct I' as [_ _ _ _ I5' _ _ _].
  destruct (session_history more (session events (opened w))) as [tr Htr].
  rewrite Htr, account_sets_app, I5, H in I5'. rewrite Htr, account_sets_app, I5, H.
  destruct (account (page (screen (session more (session events (opened w))))))
    as [info'|]; [|discriminate I5'].
  cbn [app] in I5'. injection I5' as -> Hr. rewrite Hr.
  now split.
Qed.

(** X16.  As long as the page holds no credential it has asked for
    nothing but keys and derivations: nothing was signed, estimated or
    submitted, no balance was read and no balance read is in flight. *)
Theorem nothing_before_the_account (events : list event) (w : W) :
  account (page (screen (session events (opened w)))) = None ->
  forallb provisioned (history (session events (opened w))) = true
  /\ signings (history (session events (opened w))) = []
  /\ estimations (history (session events (opened w))) = []
  /\ submissions (history (session events (opened w))) = []
  /\ balance_reads (history (session events (opened w))) = []
  /\ fetches (session events (opened w)) = [].
Proof.
  intros H.
  destruct (session_invariant events (opened w) (opened_invariant w))
    as [_ _ _ _ _ I6 _ _].
  rewrite H in I6. destruct I6 as (_ & Hf & Hp).
  destruct (provisioned_only _ Hp) as (H1 & H2 & H3 & H4).
  repeat split; assumption.
Qed.



End SessionProperties.

Section SessionExamples.
Import Testnet.

(** An account is created; then the create button, the interval and a
    transfer follow. *)
Lemma the_account_is_set_once_witness :
  account (page (screen (session [ClickCreateAccount; ReplyToHandler 0; ReplyToHandler 0]
                                 (opened funded)))) = Some credential
  /\ account (page (screen (session
       ([ClickCreateAccount; ReplyToHandler 0; ReplyToHandler 0]
        ++ [ClickCreateAccount; Tick; ReplyToFetch 0; ChangeRecipient recipient;
            ChangeAmount "10.5"; ClickTransfer; ReplyToHandler 0; ClickTransfer])
       (opened funded)))) = Some credential.
Proof.
  assert (H : account (page (screen (session
                [ClickCreateAccount; ReplyToHandler 0; ReplyToHandler 0]
                (opened funded)))) = Some credential)
    by (vm_compute; reflexivity).
  split; [exact H|].
  apply (the_account_is_set_once _ _ funded credential H).
Defined.

(** Clicks before there is an account, and a creation that waits for its
    derivation. *)
Lemma nothing_before_the_account_witness :
  account (page (screen (session [ClickTransfer; Tick; ClickCreateAccount; ReplyToHandler 0]
                                 (opened funded)))) = None
  /\ submissions (history (session [ClickTransfer; Tick; ClickCreateAccount; ReplyToHandler 0]
                                   (opened funded))) = []
  /\ kinds (history (session [ClickTransfer; Tick; ClickCreateAccount; ReplyToHandler 0]
                             (opened funded))) = [KGenerate].
Proof.
  assert (H : account (page (screen (session
                [ClickTransfer; Tick; ClickCreateAccount; ReplyToHandler 0]
                (opened funded)))) = None)
    by (vm_compute; reflexivity).
  split; [exact H|].
  destruct (nothing_before_the_account _ funded H) as (_ & _ & _ & Hs & _).
  split; [exact Hs|]. vm_compute. reflexivity.
Defined.


End SessionExamples.

Section OneAccount.
Context {lib : Library} {W : Type} {env : Environment W}.

(** X18.  One account is used throughout a run of [transferUSDC]: the
    Kernel account derived at the start, for the owner of the key, is the
    one that signs the permit, the one whose user operation is estimated
    and submitted, and the one whose USDC balance is read. *)
Theorem one_account_throughout (k : Hex) (r : string) (a : Z) (s : System W)
    (owner : LocalAccount) (addr : Address) :
  privateKeyToAccount k = Ok owner ->
  fst (answer (ToEcdsaKernelSmartAccount createPublicClient [owner] "0.3.1") (world s))
  = Ok addr ->
  let tr := trace (run (transferUSDC k r a) s) in
  Forall (fun sg => fst (fst sg) = kernel_account owner addr) (signings tr)
  /\ Forall (fun e => uo_account (fst e) = kernel_account owner addr) (estimations tr)
  /\ Forall (fun op => uo_account op = kernel_account owner addr) (submissions tr)
  /\ Forall (fun b => fst b = addr) (balance_reads tr).
Proof.
  intros Ho Ha. cbv zeta. unfold transferUSDC. rewrite Ho. cbn [lift bind].
  exec_unfold.
  destruct (answer (ToEcdsaKernelSmartAccount createPublicClient [owner] "0.3.1") (world s))
    as [[x|e] w] eqn:E; cbn [fst] in Ha; [injection Ha as ->|discriminate Ha].
  exec. all: repeat split; repeat constructor.
Qed.

End OneAccount.

Section OneAccountExample.
Import Testnet.

(** The test transfer is made by the account of the test key. *)
Lemma one_account_throughout_witness :
  privateKeyToAccount key = Ok (mkLocal (owner credential) key)
  /\ map uo_account (submissions (trace transfer_run))
     = [kernel_account (mkLocal (owner credential) key) (address credential)].
Proof.
  assert (Ho : privateKeyToAccount key = Ok (mkLocal (owner credential) key))
    by (vm_compute; reflexivity).
  assert (Ha : fst (answer (ToEcdsaKernelSmartAccount createPublicClient
                              [mkLocal (owner credential) key] "0.3.1")
                           (world (boot funded))) = Ok (address credential))
    by (vm_compute; reflexivity).
  split; [exact Ho|].
  destruct (one_account_throughout key recipient 10500000 (boot funded) _ _ Ho Ha)
    as (_ & _ & Hs & _).
  unfold transfer_run.
  destruct (submissions (trace (run (transferUSDC key recipient 10500000) (boot funded))))
    as [|op [|op' rest]] eqn:E; try (vm_compute in E; discriminate E).
  apply Forall_inv in Hs. cbn [map]. now rewrite Hs.
Defined.

End OneAccountExample.

(** ** The balance of a whole number of USDC *)
Section Strings.

Lemma append_assoc (a b c : string) : (a ++ b) ++ c = a ++ (b ++ c).
Proof. induction a as [|x a IH]; cbn; now rewrite ?IH. Qed.

Lemma append_nil_r (a : string) : a ++ "" = a.
Proof. induction a as [|x a IH]; cbn; now rewrite ?IH. Qed.

Lemma length_append (a b : string) :
  String.length (a ++ b) = (String.length a + String.length b)%nat.
Proof. induction a as [|x a IH]; cbn; now rewrite ?IH. Qed.

Lemma take_append (a b : string) : Str.take (String.length a) (a ++ b) = a.
Proof.
  induction a as [|x a IH]; cbn [String.length append Str.take].
  - now destruct b.
  - now rewrite IH.
Qed.

Lemma slice_append (a b : string) : Str.slice (String.length a) (a ++ b) = b.
Proof. induction a as [|x a IH]; cbn [String.length append Str.slice]; auto. Qed.

(** Padding a string that is long enough adds nothing. *)
Lemma padStart0_long (n : nat) (a b : string) :
  (n <= String.length a + String.length b)%nat -> Str.padStart0 n (a ++ b) = a ++ b.
Proof.
  intros H. unfold Str.padStart0. rewrite length_append.
  now replace (n - (String.length a + String.length b))%nat with 0%nat by lia.
Qed.

Lemma length_tail (a b : string) :
  (String.length (a ++ b) - String.length b)%nat = String.length a.
Proof. rewrite length_append. lia. Qed.

End Strings.

Section Decimals.
Import Str.

Lemma digits_acc (fuel : nat) (radix z : Z) (acc : string) :
  digits_of_pos fuel radix z acc = digits_of_pos fuel radix z "" ++ acc.
Proof.
  revert z acc. induction fuel as [|fuel IH]; intros z acc; [reflexivity|].
  cbn [digits_of_pos]. destruct (z <? radix); [reflexivity|].
  rewrite IH, (IH _ (String _ "")), append_assoc. reflexivity.
Qed.

Lemma digits_fuel (f1 f2 : nat) (radix z : Z) (acc : string) :
  2 <= radix -> 0 < z < 2 ^ Z.of_nat f1 -> z < 2 ^ Z.of_nat f2 ->
  digits_of_pos f1 radix z acc = digits_of_pos f2 radix z acc.
Proof.
  intros Hr. revert f2 z acc. induction f1 as [|f1 IH]; intros f2 z acc H1 H2.
  - cbn in H1. lia.
  - destruct f2 as [|f2]; [cbn in H2; lia|].
    cbn [digits_of_pos]. destruct (z <? radix) eqn:E; [reflexivity|].
    apply Z.ltb_ge in E.
    rewrite Nat2Z.inj_succ, Z.pow_succ_r in H1, H2 by lia.
    apply IH.
    + split; [apply Z.div_str_pos; lia|apply Z.div_lt_upper_bound; nia].
    + apply Z.div_lt_upper_bound; nia.
Qed.

Lemma toString_tenfold (z : Z) : 0 < z -> toString 10 (10 * z) = toString 10 z ++ "0".
Proof.
  intros Hz. unfold toString.
  replace (10 * z <? 0) with false by (symmetry; apply Z.ltb_ge; lia).
  replace (z <? 0) with false by (symmetry; apply Z.ltb_ge; lia).
  rewrite !Z.abs_eq by lia. cbn [digits_of_pos].
  replace (10 * z <? 10) with false by (symmetry; apply Z.ltb_ge; lia).
  replace ((10 * z) mod 10) with 0 by (rewrite Z.mul_comm, Z.mod_mul; lia).
  replace (10 * z / 10) with z by (rewrite Z.mul_comm, Z.div_mul; lia).
  rewrite digits_acc.
  change (String (digit_char 0) "") with "0". f_equal.
  assert (Hlog : Z.log2 z < Z.log2 (10 * z)).
  { assert (Z.log2 (2 * z) <= Z.log2 (10 * z)) by (apply Z.log2_le_mono; lia).
    rewrite Z.log2_double in H by lia. lia. }
  pose proof (Z.log2_nonneg z). pose proof (Z.log2_spec z Hz) as [_ Hup].
  assert (Hz2 : z < 2 ^ Z.log2 (10 * z)).
  { apply Z.lt_le_trans with (2 ^ Z.succ (Z.log2 z)); [exact Hup|].
    apply Z.pow_le_mono_r; lia. }
  rewrite (digits_fuel _ (S (Z.to_nat (Z.log2 z))) 10 z ""); try lia.
  - reflexivity.
  - rewrite Z2Nat.id by lia. lia.
  - rewrite Nat2Z.inj_succ, Z2Nat.id by lia. exact Hup.
Qed.

Lemma toString_millions (z : Z) :
  0 < z -> toString 10 (z * 1000000) = toString 10 z ++ "000000".
Proof.
  intros Hz.
  replace (z * 1000000) with (10 * (10 * (10 * (10 * (10 * (10 * z)))))) by lia.
  rewrite !toString_tenfold by lia. now rewrite !append_assoc.
Qed.

Lemma toString_hundreds (z : Z) : 0 < z -> toString 10 (z * 100) = toString 10 z ++ "00".
Proof.
  intros Hz. replace (z * 100) with (10 * (10 * z)) by lia.
  rewrite !toString_tenfold by lia. now rewrite !append_assoc.
Qed.

(** The ten characters that are decimal digits. *)
Lemma digit_is (c : ascii) (d : Z) :
  JS.digit_of c = Some d ->
  In c ["0"; "1"; "2"; "3"; "4"; "5"; "6"; "7"; "8"; "9"]%char.
Proof.
  intros H. destruct c as [[] [] [] [] [] [] [] []]; try discriminate H; cbn; tauto.
Qed.

Lemma digits_trim_end (s : string) (acc n : Z) :
  read_radix 10 s acc = Some n -> trim_end s = s.
Proof.
  revert acc. induction s as [|c r IH]; intros acc H; [reflexivity|].
  cbn [read_radix] in H. destruct (digit_in 10 c) as [d|] eqn:Hd; [|discriminate H].
  apply decimal_digit in Hd as [Hd _]. apply digit_is in Hd.
  cbn [trim_end]. rewrite (IH _ H). destruct r as [|c' r']; [|reflexivity].
  cbn [In] in Hd.
  repeat (destruct Hd as [<-|Hd]; [reflexivity|]). contradiction.
Qed.

(** What the digits of a positive number start with. *)
Lemma toString_head (z : Z) :
  0 < z ->
  exists c r d, toString 10 z = String c r /\ JS.digit_of c = Some d.
Proof.
  intros Hz. pose proof (read_toString 10 z ltac:(lia) ltac:(lia)) as H.
  destruct (toString 10 z) as [|c r]; [cbn in H; injection H; lia|].
  cbn [read_radix] in H. destruct (digit_in 10 c) as [d|] eqn:Hd; [|discriminate H].
  apply decimal_digit in Hd as [Hd _]. now exists c, r, d.
Qed.

End Decimals.

Section WholeBalances.

Lemma formatUnits_whole (z : Z) :
  0 <= z -> Viem.formatUnits (z * 1000000) 6 = Str.toString 10 z.
Proof.
  intros Hz. destruct (Z.eq_dec z 0) as [->|Hnz]; [reflexivity|].
  assert (Hpos : 0 < z) by lia.
  destruct (toString_head z Hpos) as (c & r & d & Ht & Hc).
  unfold Viem.formatUnits. cbv zeta. rewrite (toString_millions z Hpos), Ht.
  assert (Hneg : JS.starts_with "-" (String c r ++ "000000") = false).
  { apply digit_is in Hc. cbn [In] in Hc. unfold JS.starts_with.
    cbn [String.length append substring].
    repeat (destruct Hc as [<-|Hc]; [reflexivity|]). contradiction. }
  rewrite Hneg, (padStart0_long 6 (String c r) "000000" ltac:(cbn [String.length]; lia)).
  change (String.length (String c r ++ "000000") - 6)%nat
    with (String.length (String c r ++ "000000") - String.length "000000")%nat.
  rewrite (length_tail (String c r) "000000"), take_append, slice_append.
  change (Str.strip_trailing_zeros "000000") with "".
  cbn [append]. now rewrite append_nil_r.
Qed.

Lemma Number_of_digits (s : string) (n : Z) :
  s <> "" -> Str.read_radix 10 s 0 = Some n ->
  Display.Number_of_string s = JS.Number_of_BigInt n.
Proof.
  intros Hs H. destruct s as [|c r]; [now elim Hs|].
  destruct (read_digits_all _ 0 0 n H ltac:(lia)) as [Hread Hn].
  pose proof (digits_trim_end _ _ _ H) as Hend.
  pose proof H as H'.
  cbn [Str.read_radix] in H'. destruct (Str.digit_in 10 c) as [d|] eqn:Hd; [|discriminate H'].
  apply decimal_digit in Hd as [Hd _].
  destruct (head_digit c r d Hd) as (Ht & Hsign & _).
  unfold Display.Number_of_string. rewrite Ht, Hend.
  assert (Hradix : Display.radix_literal (String c r) = None).
  { destruct r as [|c2 r2].
    - apply digit_is in Hd. cbn [In] in Hd.
      repeat (destruct Hd as [<-|Hd]; [reflexivity|]). contradiction.
    - cbn [Str.read_radix] in H'.
      destruct (Str.digit_in 10 c2) as [d2|] eqn:Hd2; [|discriminate H'].
      apply decimal_digit in Hd2 as [Hd2 _]. apply digit_is in Hd, Hd2.
      cbn [In] in Hd, Hd2.
      repeat (destruct Hd as [<-|Hd];
              [repeat (destruct Hd2 as [<-|Hd2]; [reflexivity|]); contradiction|]).
      contradiction. }
  rewrite Hradix. unfold Display.decimal_literal. rewrite Hsign.
  assert (Hinf : String.eqb (String c r) "Infinity" = false).
  { apply digit_is in Hd. cbn [In] in Hd.
    repeat (destruct Hd as [<-|Hd]; [reflexivity|]). contradiction. }
  rewrite Hinf, Hread.
  replace (0 + Z.of_nat (String.length (String c r)) + 0 =? 0) with false
    by (symmetry; apply Z.eqb_neq; cbn [String.length]; lia).
  cbn [Display.exponent_part]. unfold JS.Number_of_decimal, JS.Number_of_BigInt.
  cbn [Z.sub Z.opp Z.add Z.leb Z.compare].
  now rewrite Z.pow_0_r, Z.mul_1_r.
Qed.

Lemma toFixed_whole (z : Z) :
  0 <= z < 2 ^ 53 ->
  Display.toFixed 2 (JS.Number_of_BigInt z) = Ok (Str.toString 10 z ++ ".00").
Proof.
  intros [Hz Hlt]. destruct z as [|p|p]; try lia; [reflexivity|].
  destruct (Number_of_safe p Hlt) as (m & -> & Hm & Hd).
  pose proof (digits_safe p Hlt) as Hdp.
  unfold Display.toFixed. change (100 <? 2)%nat with false. cbv iota. f_equal.
  cbn [append]. unfold JS.exponent_of in *.
  set (e := Zpos (digits2_pos p) - 53) in *.
  assert (He : e <= 0) by lia.
  assert (H2 : 0 < 2 ^ (- e)) by (apply Z.pow_pos_nonneg; lia).
  assert (Hsmall : Display.at_least_1e21 m e = false).
  { unfold Display.at_least_1e21.
    assert (Hm53 : Zpos m < 2 ^ 53).
    { pose proof (digits_bounds m) as [_ Hb]. now rewrite Hd in Hb. }
    destruct (0 <=? e) eqn:E0.
    - apply Z.leb_le in E0. replace e with 0 in * by lia.
      apply Z.leb_gt. rewrite Z.pow_0_r, Z.mul_1_r. lia.
    - apply Z.leb_gt. assert (10 ^ 21 * 1 <= 10 ^ 21 * 2 ^ (- e)) by (apply Z.mul_le_mono_nonneg_l; lia).
      assert (2 ^ 53 < 10 ^ 21) by reflexivity. lia. }
  rewrite Hsmall.
  assert (Hscaled : Display.scaled 2 m e = Zpos p * 100).
  { unfold Display.scaled. cbv zeta. change (10 ^ Z.of_nat 2) with 100. rewrite Hm.
    destruct (0 <=? e) eqn:E0.
    - apply Z.leb_le in E0. replace e with 0 in * by lia. cbn. lia.
    - replace (- e + 1) with (Z.succ (- e)) by lia. rewrite Z.pow_succ_r by lia.
      replace (2 * (Zpos p * 2 ^ (- e) * 100) + 2 ^ (- e))
        with ((200 * Zpos p + 1) * 2 ^ (- e)) by ring.
      rewrite Z.div_mul_cancel_r by lia.
      symmetry. apply Z.div_unique with (r := 1); lia. }
  rewrite Hscaled. unfold Display.fixed. rewrite (toString_hundreds (Zpos p) eq_refl).
  destruct (toString_head (Zpos p) eq_refl) as (c & r & d & Ht & _). rewrite Ht.
  rewrite (padStart0_long 3 (String c r) "00" ltac:(cbn [String.length]; lia)).
  change (String.length (String c r ++ "00") - 2)%nat
    with (String.length (String c r ++ "00") - String.length "00")%nat.
  now rewrite (length_tail (String c r) "00"), take_append, slice_append.
Qed.

(** The rendering of a whole number of USDC. *)
Lemma displayed_whole (z : Z) :
  0 <= z < 2 ^ 53 -> displayed (z * 1000000) = Ok (Str.toString 10 z ++ ".00").
Proof.
  intros Hz. unfold displayed. rewrite formatUnits_whole by lia.
  rewrite (Number_of_digits _ z).
  - now apply toFixed_whole.
  - destruct (Z.eq_dec z 0) as [->|Hnz]; [discriminate|].
    destruct (toString_head z ltac:(lia)) as (c & r & d & -> & _). discriminate.
  - apply read_toString; lia.
Qed.

End WholeBalances.

Section FetchBalance.
Context {W : Type} {env : Environment W}.

(** X19.  When the account holds a whole number [z] of USDC, below
    [2^53], [fetchBalance] reads the balance once and hands
    [setUsdcBalance] the digits of [z] followed by ".00". *)
Theorem whole_balances_are_shown_exactly (st : PageState) (s : System W)
    (info : AccountInfo) (z : Z) :
  account st = Some info ->
  truthy (address info) = true ->
  0 <= z < 2 ^ 53 ->
  fst (answer (BalanceOf (mkContract createPublicClient ARBITRUM_SEPOLIA_USDC balanceOf_abi)
                         (address info)) (world s)) = Ok (z * 1000000) ->
  ended (run (fetchBalance st) s) = Returned (Some (Str.toString 10 z ++ ".00"))
  /\ kinds (trace (run (fetchBalance st) s)) = [KBalance]
  /\ actions (trace (run (fetchBalance st) s)) = [].
Proof.
  intros Ha Ht Hz Hb. unfold fetchBalance. rewrite Ha, Ht.
  cbn [bind await run].
  destruct (answer _ (world s)) as [r w]. cbn [fst] in Hb. subst r.
  cbn [bind].
  change (Display.toFixed 2 (Display.Number_of_string (Viem.formatUnits (z * 1000000) 6)))
    with (displayed (z * 1000000)).
  rewrite (displayed_whole z Hz).
  cbn [lift bind run after ended trace kinds kind_of actions]. repeat split.
Qed.

End FetchBalance.

Section FetchBalanceExample.
Import Testnet.

(** The test account holds 100 USDC. *)
Lemma whole_balances_are_shown_exactly_witness :
  account (page (form "" funded)) = Some credential
  /\ ended (run (fetchBalance (page (form "" funded))) (form "" funded))
     = Returned (Some "100.00").
Proof.
  assert (Ha : account (page (form "" funded)) = Some credential) by reflexivity.
  assert (Hb : fst (answer (BalanceOf (mkContract createPublicClient ARBITRUM_SEPOLIA_USDC
                                                   balanceOf_abi)
                                       (address credential))
                            (world (form "" funded))) = Ok (100 * 1000000))
    by (vm_compute; reflexivity).
  split; [exact Ha|].
  destruct (whole_balances_are_shown_exactly (page (form "" funded)) (form "" funded)
              credential 100 Ha eq_refl ltac:(lia) Hb) as (He & _).
  exact He.
Defined.

End FetchBalanceExample.

(** ** Rounding, within one unit in the last place *)
Section Rounding.
Import JS.

Lemma shr_1_halves (mrs : shr_record) :
  0 <= shr_m mrs -> shr_m (shr_1 mrs) = shr_m mrs / 2 /\ 0 <= shr_m (shr_1 mrs).
Proof.
  destruct mrs as [m r s]. cbn [shr_m shr_1]. intros Hm.
  destruct m as [|[p|p|]|p]; cbn [shr_m].
  - split; [reflexivity|lia].
  - split; [|lia]. rewrite Pos2Z.inj_xI. apply Z.div_unique with (r := 1); lia.
  - split; [|lia]. rewrite Pos2Z.inj_xO. apply Z.div_unique with (r := 0); lia.
  - split; [reflexivity|lia].
  - lia.
Qed.

Lemma iter_shr_1 (n : nat) (mrs : shr_record) :
  0 <= shr_m mrs ->
  shr_m (Nat.iter n shr_1 mrs) = shr_m mrs / 2 ^ Z.of_nat n
  /\ 0 <= shr_m (Nat.iter n shr_1 mrs).
Proof.
  intros Hm. induction n as [|n [IH IH0]].
  - cbn. split; [now rewrite Z.div_1_r|assumption].
  - change (Nat.iter (S n) shr_1 mrs) with (shr_1 (Nat.iter n shr_1 mrs)).
    destruct (shr_1_halves _ IH0) as [H1 H2]. split; [|exact H2].
    rewrite H1, IH, Nat2Z.inj_succ, Z.pow_succ_r, Z.div_div by lia.
    f_equal. lia.
Qed.

Lemma round_nearest_even_cases (mx : Z) (lx : location) :
  round_nearest_even mx lx = mx \/ round_nearest_even mx lx = mx + 1.
Proof.
  destruct lx as [|[]]; cbn [round_nearest_even]; auto.
  destruct (Z.even mx); auto.
Qed.

Lemma digits_of_bounds (p : positive) (n : Z) :
  2 ^ (n - 1) <= Zpos p < 2 ^ n -> Zpos (digits2_pos p) = n.
Proof.
  intros [Hl Hu]. pose proof (digits_bounds p) as [Hl' Hu'].
  assert (Hn : 0 < n).
  { destruct n as [|n|n]; [cbn in Hu; lia|lia|cbn in Hu; lia]. }
  destruct (Z.lt_trichotomy (Zpos (digits2_pos p)) n) as [H|[H|H]]; [exfalso|exact H|exfalso].
  - assert (2 ^ Zpos (digits2_pos p) <= 2 ^ (n - 1)) by (apply Z.pow_le_mono_r; lia). lia.
  - assert (2 ^ n <= 2 ^ (Zpos (digits2_pos p) - 1)) by (apply Z.pow_le_mono_r; lia). lia.
Qed.

(** A mantissa of more than 53 digits is rounded to its leading 53 digits
    or to the next number above them. *)
Lemma round_aux_floor (M : positive) (E : Z) :
  53 < Zpos (digits2_pos M) ->
  -1074 <= Zpos (digits2_pos M) + E - 53 <= 970 ->
  exists m' e',
    binary_round_aux prec emax false (Zpos M) E loc_Exact = S754_finite false m' e'
    /\ Zpos (digits2_pos m') = 53
    /\ Zpos (digits2_pos M) + E - 53 <= e' <= Zpos (digits2_pos M) + E - 52
    /\ (Zpos m' * 2 ^ (e' - (Zpos (digits2_pos M) + E - 53))
        = Zpos M / 2 ^ (Zpos (digits2_pos M) - 53)
        \/ Zpos m' * 2 ^ (e' - (Zpos (digits2_pos M) + E - 53))
           = Zpos M / 2 ^ (Zpos (digits2_pos M) - 53) + 1).
Proof.
  intros HD HE. set (D := Zpos (digits2_pos M)) in *.
  pose proof (digits_bounds M) as [HMl HMu]. fold D in HMl, HMu.
  unfold binary_round_aux, shr_fexp, fexp, emin, prec, emax.
  cbn [Zdigits2 shr_record_of_loc]. fold D.
  replace (Z.max (D + E - 53) (3 - 1024 - 53) - E) with (D - 53) by lia.
  destruct (D - 53) as [|k|k] eqn:Hk; try lia.
  cbn [shr]. rewrite iter_pos_nat.
  destruct (iter_shr_1 (Pos.to_nat k) (Build_shr_record (Zpos M) false false)) as [Hq Hq0];
    [cbn; lia|].
  cbn [shr_m] in Hq. rewrite positive_nat_Z in Hq.
  set (rec := Nat.iter (Pos.to_nat k) shr_1 _) in *.
  set (q := Zpos M / 2 ^ Zpos k) in *.
  assert (Hk2 : 0 < 2 ^ Zpos k) by (apply Z.pow_pos_nonneg; lia).
  assert (Hsplit : 2 ^ D = 2 ^ 53 * 2 ^ Zpos k)
    by (rewrite <- Z.pow_add_r by lia; f_equal; lia).
  assert (Hsplit' : 2 ^ (D - 1) = 2 ^ 52 * 2 ^ Zpos k)
    by (rewrite <- Z.pow_add_r by lia; f_equal; lia).
  assert (Hqb : 2 ^ 52 <= q < 2 ^ 53).
  { unfold q. split.
    - apply Z.div_le_lower_bound; lia.
    - apply Z.div_lt_upper_bound; lia. }
  destruct (round_nearest_even_cases (shr_m rec) (loc_of_shr_record rec)) as [Hc|Hc];
    rewrite Hc, Hq.
  - (* the leading digits *)
    destruct q as [|pq|pq] eqn:Eq; try lia.
    cbn [Zdigits2]. rewrite (digits_of_bounds pq 53) by lia.
    replace (Z.max (53 + (E + Zpos k) - 53) (3 - 1024 - 53) - (E + Zpos k)) with 0 by lia.
    cbn [shr shr_m shr_record_of_loc].
    replace (E + Zpos k <=? 1024 - 53) with true by (symmetry; apply Z.leb_le; lia).
    exists pq, (E + Zpos k). split; [reflexivity|]. split; [apply digits_of_bounds; lia|].
    split; [lia|]. left.
    replace (E + Zpos k - (D + E - 53)) with 0 by lia. lia.
  - (* one above them *)
    destruct (Z.eq_dec (q + 1) (2 ^ 53)) as [Hcarry|Hnc].
    + rewrite Hcarry. cbn [Zdigits2 Z.pow Z.pow_pos Pos.iter Z.mul Pos.mul digits2_pos Pos.succ].
      replace (Z.max (54 + (E + Zpos k) - 53) (3 - 1024 - 53) - (E + Zpos k)) with 1 by lia.
      cbn [shr shr_m shr_record_of_loc iter_pos shr_1].
      replace (E + Zpos k + 1 <=? 1024 - 53) with true by (symmetry; apply Z.leb_le; lia).
      eexists _, (E + Zpos k + 1). split; [reflexivity|]. split; [reflexivity|].
      split; [lia|]. right.
      replace (E + Zpos k + 1 - (D + E - 53)) with 1 by lia.
      reflexivity.
    + destruct (q + 1) as [|pc|pc] eqn:Ec; try lia.
      cbn [Zdigits2]. rewrite (digits_of_bounds pc 53) by lia.
      replace (Z.max (53 + (E + Zpos k) - 53) (3 - 1024 - 53) - (E + Zpos k)) with 0 by lia.
      cbn [shr shr_m shr_record_of_loc].
      replace (E + Zpos k <=? 1024 - 53) with true by (symmetry; apply Z.leb_le; lia).
      exists pc, (E + Zpos k). split; [reflexivity|]. split; [apply digits_of_bounds; lia|].
      split; [lia|]. right.
      replace (E + Zpos k - (D + E - 53)) with 0 by lia. lia.
Qed.

End Rounding.

(** ** Two roundings of an amount *)
Section TwoRoundings.

(** The arithmetic of the conversion: [M0 / TK] is the quotient [m / d]
    cut off, [mx / Tx] is its rounding, and [N] is the rounding of
    [mx / Tx * 1000000], an integer; each rounding is off by at most one
    unit in the last place, [p1] and [p2].  Then [N] is [m / d * 1000000]
    when this is an integer below [2^50]. *)
Lemma two_roundings (V d m TK M0 p1 G Tx mx p2 N : Z) :
  0 < d -> 0 < m -> V * d = 1000000 * m -> V < 2 ^ 50 ->
  2 ^ 100 <= TK ->
  d * M0 - d <= m * TK < d * M0 + 2 * d ->
  0 < p1 -> 2 ^ 52 * p1 <= M0 ->
  0 < G -> 0 < Tx -> G * Tx = TK ->
  mx * G - p1 <= M0 < mx * G + p1 ->
  0 < p2 -> 2 ^ 52 * p2 <= mx * 1000000 ->
  N * Tx - p2 <= mx * 1000000 < N * Tx + p2 ->
  N = V.
Proof.
  intros Hd Hm HV HVb HTK [HM1 HM2] Hp1 Hp1' HG HTx HGT [Hx1 Hx2] Hp2 Hp2' [HN1 HN2].
  assert (H2 : 2 ^ 52 = 4503599627370496) by reflexivity.
  assert (H3 : 2 ^ 50 = 1125899906842624) by reflexivity.
  assert (H4 : 2 ^ 100 = 1267650600228229401496703205376) by reflexivity.
  rewrite H2 in *. rewrite H3 in *. rewrite H4 in *. clear H2 H3 H4.
  assert (HTK0 : 0 < TK) by lia.
  assert (HV0 : 0 < V).
  { destruct (Z_lt_le_dec 0 V) as [|Hle]; [assumption|exfalso].
    pose proof (Z.mul_nonpos_nonneg V d Hle ltac:(lia)). lia. }
  (* the products that occur *)
  assert (HVT : V * d * TK = 1000000 * (m * TK)) by (rewrite HV; ring).
  assert (HW : V * TK <= 1125899906842623 * TK)
    by (apply Z.mul_le_mono_nonneg_r; lia).
  assert (HpG : 4503599627370496 * p2 * G <= mx * 1000000 * G)
    by (apply Z.mul_le_mono_nonneg_r; lia).
  assert (HN1G : (N * Tx - p2) * G <= mx * 1000000 * G)
    by (apply Z.mul_le_mono_nonneg_r; lia).
  assert (HN2G : mx * 1000000 * G < (N * Tx + p2) * G)
    by (apply Z.mul_lt_mono_pos_r; lia).
  assert (HNG : N * TK = N * Tx * G) by (rewrite <- HGT; ring).
  (* the quotient against the amount *)
  assert (HMV1 : 1000000 * M0 <= V * TK + 1000000)
    by (apply Z.mul_le_mono_pos_l with (p := d); [assumption|lia]).
  assert (HMV2 : V * TK - 2000000 < 1000000 * M0)
    by (apply Z.mul_lt_mono_pos_l with (p := d); [assumption|lia]).
  (* the units in the last place *)
  assert (HB : 2000000 + 1000000 * p1 + p2 * G < TK) by lia.
  (* the integer against the amount *)
  assert (Hup : N * TK < (V + 1) * TK) by lia.
  assert (Hlo : (V - 1) * TK < N * TK) by lia.
  apply Z.mul_lt_mono_pos_r in Hup, Hlo; [lia|assumption|assumption].
Qed.

End TwoRoundings.

Section Ratio.
Import JS.

Lemma pow2_split (a b : Z) : 0 <= a -> 0 <= b -> 2 ^ (a + b) = 2 ^ a * 2 ^ b.
Proof. intros. now rewrite Z.pow_add_r. Qed.

Lemma digits_upper (p : positive) (n : Z) : Zpos p < 2 ^ n -> Zpos (digits2_pos p) <= n.
Proof.
  intros H. pose proof (digits_bounds p) as [Hl _].
  destruct (Z_le_gt_dec (Zpos (digits2_pos p)) n) as [|Hgt]; [assumption|exfalso].
  assert (2 ^ n <= 2 ^ (Zpos (digits2_pos p) - 1)) by (apply Z.pow_le_mono_r; lia).
  lia.
Qed.

Lemma digits_lower (p : positive) (n : Z) : 2 ^ n <= Zpos p -> n < Zpos (digits2_pos p).
Proof.
  intros H. pose proof (digits_bounds p) as [_ Hu].
  destruct (Z_lt_le_dec n (Zpos (digits2_pos p))) as [|Hle]; [assumption|exfalso].
  assert (2 ^ Zpos (digits2_pos p) <= 2 ^ n) by (apply Z.pow_le_mono_r; lia).
  lia.
Qed.

(** The quotient [m / d] as [Number_of_ratio] rounds it. *)
Lemma ratio_rounded (m d : Z) :
  0 < m -> 10 <= d <= 1000000 -> 1000000 * m < 2 ^ 50 * d ->
  let K := 1100 + Z.log2 d in
  exists M0 mx ex,
    Number_of_ratio false m d = S754_finite false mx ex
    /\ Zpos (digits2_pos mx) = 53
    /\ d * M0 - d <= m * 2 ^ (K + 1) < d * M0 + 2 * d
    /\ -73 <= ex <= -20
    /\ exists k1, 0 < k1 /\ k1 <= K + 1 + ex
                  /\ 2 ^ 52 * 2 ^ k1 <= M0
                  /\ Zpos mx * 2 ^ (K + 1 + ex) - 2 ^ k1 <= M0
                     < Zpos mx * 2 ^ (K + 1 + ex) + 2 ^ k1.
Proof.
  intros Hm Hd Hbound K.
  pose proof (Z.log2_spec d ltac:(lia)) as [HLl HLu].
  pose proof (Z.log2_nonneg d) as HL0.
  assert (HL19 : Z.log2 d <= 19).
  { destruct (Z_le_gt_dec (Z.log2 d) 19) as [|Hgt]; [assumption|exfalso].
    assert (2 ^ 20 <= 2 ^ Z.log2 d) by (apply Z.pow_le_mono_r; lia).
    change (2 ^ 20) with 1048576 in *. lia. }
  assert (HL3 : 3 <= Z.log2 d).
  { destruct (Z_le_gt_dec 3 (Z.log2 d)) as [|Hgt]; [assumption|exfalso].
    assert (2 ^ Z.succ (Z.log2 d) <= 2 ^ 3) by (apply Z.pow_le_mono_r; lia).
    change (2 ^ 3) with 8 in *. lia. }
  unfold Number_of_ratio. cbv zeta. fold K.
  rewrite Z.shiftl_mul_pow2 by (unfold K; lia).
  set (A := m * 2 ^ K).
  set (q0 := A / d). set (st := if A mod d =? 0 then 0 else 1).
  set (M0 := 2 * q0 + st).
  assert (HK : 2 ^ K = 2 ^ 1099 * 2 ^ Z.succ (Z.log2 d)).
  { rewrite <- Z.pow_add_r by lia. f_equal. unfold K. lia. }
  assert (HK1 : 2 ^ (K + 1) = 2 * 2 ^ K).
  { rewrite Z.pow_add_r by (unfold K; lia). change (2 ^ 1) with 2. ring. }
  assert (H1099 : 0 < 2 ^ 1099) by (apply Z.pow_pos_nonneg; lia).
  assert (HK0 : 0 < 2 ^ K) by (apply Z.pow_pos_nonneg; unfold K; lia).
  assert (HA : d * q0 <= A < d * q0 + d).
  { unfold q0. pose proof (Z.div_mod A d ltac:(lia)) as E.
    pose proof (Z.mod_pos_bound A d ltac:(lia)). lia. }
  assert (Hst : 0 <= st <= 1) by (unfold st; destruct (A mod d =? 0); lia).
  assert (Hq0 : 2 ^ 1099 <= q0).
  { unfold q0. apply Z.div_le_lower_bound; [lia|].
    apply Z.le_trans with (2 ^ K).
    - rewrite HK. rewrite (Z.mul_comm d). apply Z.mul_le_mono_nonneg_l; lia.
    - unfold A. rewrite <- (Z.mul_1_l (2 ^ K)) at 1.
      apply Z.mul_le_mono_nonneg_r; lia. }
  assert (HM0 : d * M0 - d <= m * 2 ^ (K + 1) < d * M0 + 2 * d).
  { rewrite HK1. unfold M0. fold A. replace (m * (2 * 2 ^ K)) with (2 * A) by (unfold A; ring).
    assert (Hds : 0 <= d * st <= d).
    { assert (Hc : st = 0 \/ st = 1) by lia. destruct Hc as [->| ->]; lia. }
    lia. }
  assert (HMlow : 2 ^ 1100 <= M0).
  { assert (E : 2 ^ 1100 = 2 * 2 ^ 1099) by reflexivity. rewrite E. unfold M0. lia. }
  assert (HMup : M0 < 2 ^ (K + 33)).
  { rewrite (Z.add_comm K 33), pow2_split by (unfold K; lia).
    apply Z.mul_lt_mono_pos_l with (p := 1000000 * d); [lia|].
    assert (Hm1 : 1000000 * m * 2 ^ K < 2 ^ 50 * d * 2 ^ K)
      by (apply Z.mul_lt_mono_pos_r; lia).
    assert (Hd1 : 1 * d <= 2 ^ K * d) by (apply Z.mul_le_mono_nonneg_r; lia).
    rewrite HK1 in HM0.
    change (2 ^ 50) with 1125899906842624 in Hm1.
    change (2 ^ 33) with 8589934592. lia. }
  clearbody M0. clear Hq0 Hst HA. clearbody q0 st. clear q0 st A.
  destruct M0 as [|P0|P0]; try lia.
  pose proof (digits_bounds P0) as [HDl HDu].
  pose proof (digits_lower P0 1100 HMlow) as HD1.
  pose proof (digits_upper P0 (K + 33) HMup) as HD2.
  set (D0 := Zpos (digits2_pos P0)) in *.
  destruct (round_aux_floor P0 (- K - 1)) as (mx & ex & Hr & Hdx & Hex & Hc);
    [fold D0; lia|fold D0; unfold K; lia|].
  fold D0 in Hex, Hc.
  exists (Zpos P0), mx, ex. split.
  { cbn [binary_normalize]. unfold binary_round, shl_align, fexp, emin. fold D0.
    replace (Z.max (D0 + (- K - 1) - prec) (3 - emax - prec) - (- K - 1))
      with (D0 - 53) by (unfold prec, emax, K; lia).
    destruct (D0 - 53) as [|k|k] eqn:Hk; try lia. exact Hr. }
  split; [exact Hdx|]. split; [exact HM0|]. split; [unfold K in *; lia|].
  exists (D0 - 53). split; [lia|]. split; [lia|].
  assert (Hk1 : 0 < 2 ^ (D0 - 53)) by (apply Z.pow_pos_nonneg; lia).
  split.
  { rewrite <- pow2_split by lia. replace (52 + (D0 - 53)) with (D0 - 1) by lia. exact HDl. }
  replace (K + 1 + ex) with ((ex - (D0 + (- K - 1) - 53)) + (D0 - 53)) by lia.
  rewrite pow2_split by lia. rewrite Z.mul_assoc.
  set (c1 := Zpos mx * 2 ^ (ex - (D0 + (- K - 1) - 53))) in *.
  pose proof (Z.div_mod (Zpos P0) (2 ^ (D0 - 53)) ltac:(lia)) as Hdm.
  pose proof (Z.mod_pos_bound (Zpos P0) (2 ^ (D0 - 53)) Hk1) as Hmb.
  set (q1 := Zpos P0 / 2 ^ (D0 - 53)) in *.
  destruct Hc as [Hc|Hc]; rewrite Hc; lia.
Qed.

End Ratio.

Section Product.
Import JS.

Lemma million : Number_of_BigInt 1000000 = S754_finite false 8589934592000000 (-33).
Proof. reflexivity. Qed.

(** The product with 1000000 as [mul] rounds it. *)
Lemma product_rounded (mx : positive) (ex : Z) :
  Zpos (digits2_pos mx) = 53 -> -73 <= ex <= -20 ->
  exists my ey k2,
    mul (S754_finite false mx ex) (Number_of_BigInt 1000000) = S754_finite false my ey
    /\ 33 <= k2 /\ ex <= ey
    /\ 2 ^ 52 * 2 ^ (k2 - 33) <= Zpos mx * 1000000
    /\ Zpos my * 2 ^ (ey - ex) - 2 ^ (k2 - 33) <= Zpos mx * 1000000
       < Zpos my * 2 ^ (ey - ex) + 2 ^ (k2 - 33).
Proof.
  intros Hdx Hex. rewrite million. unfold mul, SFmul. cbn [xorb].
  set (P := (mx * 8589934592000000)%positive).
  assert (HP : Zpos P = Zpos mx * 1000000 * 2 ^ 33) by (unfold P; rewrite Pos2Z.inj_mul; lia).
  pose proof (digits_of_product mx 8589934592000000) as HDl. fold P in HDl.
  rewrite Hdx in HDl. change (Zpos (digits2_pos 8589934592000000)) with 53 in HDl.
  pose proof (digits_bounds mx) as [_ Hmx]. rewrite Hdx in Hmx.
  assert (HDu : Zpos (digits2_pos P) <= 106).
  { apply digits_upper. rewrite HP. change (2 ^ 106) with (2 ^ 53 * 2 ^ 53).
    assert (1000000 * 2 ^ 33 < 2 ^ 53) by reflexivity.
    apply Z.le_lt_trans with (Zpos mx * 2 ^ 53); [|apply Z.mul_lt_mono_pos_r; lia].
    rewrite <- Z.mul_assoc. apply Z.mul_le_mono_nonneg_l; lia. }
  pose proof (digits_bounds P) as [HPl HPu].
  set (D2 := Zpos (digits2_pos P)) in *.
  destruct (round_aux_floor P (ex + -33)) as (my & ey & Hr & Hdy & Hey & Hc);
    [fold D2; lia|fold D2; lia|].
  fold D2 in Hey, Hc.
  exists my, ey, (D2 - 53). split; [exact Hr|]. split; [lia|]. split; [lia|].
  assert (H33 : 0 < 2 ^ 33) by reflexivity.
  assert (Hp2 : 0 < 2 ^ (D2 - 53 - 33)) by (apply Z.pow_pos_nonneg; lia).
  assert (Hk2 : 2 ^ (D2 - 53) = 2 ^ (D2 - 53 - 33) * 2 ^ 33)
    by (rewrite <- pow2_split by lia; f_equal; lia).
  split.
  { apply Z.mul_le_mono_pos_r with (p := 2 ^ 33); [exact H33|].
    rewrite <- HP, <- Z.mul_assoc, <- Hk2, <- pow2_split by lia.
    replace (52 + (D2 - 53)) with (D2 - 1) by lia. exact HPl. }
  set (c2 := Zpos my * 2 ^ (ey - (D2 + (ex + -33) - 53))) in *.
  assert (Hc2 : c2 * 2 ^ (D2 - 53) = Zpos my * 2 ^ (ey - ex) * 2 ^ 33).
  { unfold c2. rewrite <- !Z.mul_assoc, <- !pow2_split by lia. do 2 f_equal. lia. }
  pose proof (Z.div_mod (Zpos P) (2 ^ (D2 - 53)) ltac:(lia)) as Hdm.
  pose proof (Z.mod_pos_bound (Zpos P) (2 ^ (D2 - 53)) ltac:(lia)) as Hmb.
  set (q2 := Zpos P / 2 ^ (D2 - 53)) in *.
  set (r2 := Zpos P mod 2 ^ (D2 - 53)) in *.
  set (X := Zpos my * 2 ^ (ey - ex)) in *.
  set (p2 := 2 ^ (D2 - 53 - 33)) in *.
  rewrite Hk2 in Hdm, Hmb, Hc2. rewrite HP in Hdm.
  split.
  - apply Z.mul_le_mono_pos_r with (p := 2 ^ 33); [exact H33|].
    destruct Hc as [Hc|Hc]; rewrite Hc in Hc2; lia.
  - apply Z.mul_lt_mono_pos_r with (p := 2 ^ 33); [exact H33|].
    destruct Hc as [Hc|Hc]; rewrite Hc in Hc2; lia.
Qed.

(** What [BigInt] makes of a number that is an integer. *)
Lemma BigInt_of_finite (my : positive) (ey ex N : Z) :
  ex <= ey -> ex <= 0 ->
  BigInt_of_Number (S754_finite false my ey) = Ok N ->
  N * 2 ^ (- ex) = Zpos my * 2 ^ (ey - ex).
Proof.
  intros He Hx. unfold BigInt_of_Number, cond_Zopp.
  destruct (0 <=? ey) eqn:E0.
  - apply Z.leb_le in E0. intros H.
    apply (f_equal (fun r => match r with Ok z => z | Err _ => 0 end)) in H.
    cbv beta iota in H. subst N.
    rewrite <- Z.mul_assoc, <- pow2_split by lia. f_equal; try f_equal; lia.
  - apply Z.leb_gt in E0.
    destruct (Zpos my mod 2 ^ (- ey) =? 0) eqn:Em; [|discriminate].
    apply Z.eqb_eq in Em. intros H.
    apply (f_equal (fun r => match r with Ok z => z | Err _ => 0 end)) in H.
    cbv beta iota in H. subst N.
    assert (Hp : 0 < 2 ^ (- ey)) by (apply Z.pow_pos_nonneg; lia).
    pose proof (Z.div_mod (Zpos my) (2 ^ (- ey)) ltac:(lia)) as Hdm.
    rewrite Em, Z.add_0_r in Hdm.
    replace (- ex) with ((- ey) + (ey - ex)) by lia.
    rewrite pow2_split by lia. rewrite Z.mul_assoc.
    rewrite (Z.mul_comm (Zpos my / 2 ^ (- ey))), <- Hdm. reflexivity.
Qed.

(** A quotient of at most six decimals, times 1000000: when the result
    is an integer it is the exact one. *)
Lemma ratio_times_million (m f N : Z) :
  0 < m -> 1 <= f <= 6 -> m * 10 ^ (6 - f) < 2 ^ 50 ->
  BigInt_of_Number (mul (Number_of_ratio false m (10 ^ f)) (Number_of_BigInt 1000000)) = Ok N ->
  N = m * 10 ^ (6 - f).
Proof.
  intros Hm Hf Hb HN.
  assert (Hd : 10 <= 10 ^ f <= 1000000).
  { split.
    - change 10 with (10 ^ 1) at 1. apply Z.pow_le_mono_r; lia.
    - change 1000000 with (10 ^ 6). apply Z.pow_le_mono_r; lia. }
  assert (HV : m * 10 ^ (6 - f) * 10 ^ f = 1000000 * m).
  { rewrite <- Z.mul_assoc, <- Z.pow_add_r by lia.
    replace (6 - f + f) with 6 by lia. change (10 ^ 6) with 1000000. ring. }
  assert (Hbound : 1000000 * m < 2 ^ 50 * 10 ^ f).
  { rewrite <- HV. apply Z.mul_lt_mono_pos_r; lia. }
  destruct (ratio_rounded m (10 ^ f) Hm Hd Hbound)
    as (M0 & mx & ex & Hx & Hdx & HM0 & Hex & k1 & Hk1 & Hk1' & Hp1 & Hx1).
  rewrite Hx in HN.
  destruct (product_rounded mx ex Hdx Hex) as (my & ey & k2 & Hy & Hk2 & Hey & Hp2 & Hy1).
  rewrite Hy in HN.
  pose proof (BigInt_of_finite my ey ex N Hey ltac:(lia) HN) as HNx.
  set (K := 1100 + Z.log2 (10 ^ f)) in *.
  pose proof (Z.log2_nonneg (10 ^ f)) as HL.
  apply (two_roundings (m * 10 ^ (6 - f)) (10 ^ f) m (2 ^ (K + 1)) M0 (2 ^ k1)
                       (2 ^ (K + 1 + ex)) (2 ^ (- ex)) (Zpos mx) (2 ^ (k2 - 33)) N);
    try assumption; try lia.
  all: try (apply Z.pow_pos_nonneg; lia).
  - apply Z.pow_le_mono_r; unfold K; lia.
  - rewrite <- pow2_split by lia. f_equal. lia.
Qed.

End Product.

Section DecimalAmounts.
Import JS.

(** Reading digits stops at what is no digit. *)
Lemma read_digits_stop (a rest : string) (acc count n : Z) :
  Str.read_radix 10 a acc = Some n -> 0 <= acc ->
  match rest with
  | String c _ => digit_of c = None
  | EmptyString => True
  end ->
  read_digits (a ++ rest) acc count = (n, count + Z.of_nat (String.length a), rest)
  /\ 0 <= n.
Proof.
  revert acc count. induction a as [|c a IH]; intros acc count H Hacc Hrest.
  - cbn in H. injection H as <-. cbn [append String.length Z.of_nat]. rewrite Z.add_0_r.
    split; [|assumption]. destruct rest as [|c r]; [reflexivity|].
    cbn [read_digits]. now rewrite Hrest.
  - cbn [Str.read_radix append read_digits] in *.
    destruct (Str.digit_in 10 c) as [d|] eqn:Hd; [|discriminate H].
    apply decimal_digit in Hd as [-> Hd0].
    destruct (IH (10 * acc + d) (count + 1) H ltac:(lia) Hrest) as [-> Hn].
    split; [|assumption]. f_equal. f_equal. cbn [String.length]. lia.
Qed.

(** [parseFloat] of digits, a point and digits. *)
Lemma parseFloat_decimal (a b : string) (ia m : Z) :
  a <> "" -> Str.read_radix 10 a 0 = Some ia -> Str.read_radix 10 b ia = Some m ->
  parseFloat (a ++ "." ++ b) = Number_of_decimal false m (- Z.of_nat (String.length b))
  /\ 0 <= m.
Proof.
  intros Ha Hia Hm. destruct a as [|c ra]; [now elim Ha|].
  destruct (read_digits_stop (String c ra) ("." ++ b) 0 0 ia Hia ltac:(lia) eq_refl)
    as [Hread Hia0].
  destruct (read_digits_all b ia 0 m Hm Hia0) as [Hfrac Hm0].
  pose proof Hia as H'. cbn [Str.read_radix] in H'.
  destruct (Str.digit_in 10 c) as [d|] eqn:Hd; [|discriminate H'].
  apply decimal_digit in Hd as [Hd _].
  destruct (head_digit c (ra ++ "." ++ b) d Hd) as (Ht & Hsign & Hinf).
  split; [|assumption].
  unfold parseFloat. cbn [append] in *. rewrite Ht, Hsign, Hinf, Hread, Hfrac.
  replace (0 + Z.of_nat (String.length (String c ra)) + (0 + Z.of_nat (String.length b)) =? 0)
    with false by (symmetry; apply Z.eqb_neq; cbn [String.length]; lia).
  cbn [read_exponent]. f_equal; lia.
Qed.

(** The conversion of digits, a point and at most six digits. *)
Lemma decimal_amount_exact (a b : string) (ia m N : Z) :
  a <> "" -> Str.read_radix 10 a 0 = Some ia -> Str.read_radix 10 b ia = Some m ->
  (String.length b <= 6)%nat ->
  m * 10 ^ (6 - Z.of_nat (String.length b)) < 2 ^ 50 ->
  amountInWei (a ++ "." ++ b) = Ok N ->
  N = m * 10 ^ (6 - Z.of_nat (String.length b)).
Proof.
  intros Ha Hia Hm Hlen Hb HN.
  destruct (parseFloat_decimal a b ia m Ha Hia Hm) as [Hp Hm0].
  unfold amountInWei in HN. rewrite Hp in HN. unfold Number_of_decimal in HN.
  destruct (String.length b) as [|n] eqn:El.
  - (* no digit behind the point *)
    cbn [Z.of_nat Z.opp Z.leb Z.compare] in HN. rewrite Z.pow_0_r, Z.mul_1_r in HN.
    change (binary_normalize prec emax m 0 false) with (Number_of_BigInt m) in HN.
    cbn [Z.of_nat] in Hb. rewrite Z.sub_0_r in *. change (10 ^ 6) with 1000000 in *.
    rewrite mul_of_safe in HN by (change (2 ^ 53) with 9007199254740992;
                                  change (2 ^ 50) with 1125899906842624 in Hb; lia).
    rewrite BigInt_of_Number_of_safe in HN
      by (change (2 ^ 53) with 9007199254740992;
          change (2 ^ 50) with 1125899906842624 in Hb; lia).
    now injection HN.
  - replace (0 <=? - Z.of_nat (S n)) with false in HN by (symmetry; apply Z.leb_gt; lia).
    rewrite Z.opp_involutive in HN.
    destruct (Z.eq_dec m 0) as [->|Hnz].
    + unfold Number_of_ratio in HN. cbv zeta in HN.
      rewrite Z.shiftl_0_l, Z.div_0_l, Z.mod_0_l in HN
        by (apply Z.pow_nonzero; lia).
      cbn in HN. injection HN as <-. reflexivity.
    + apply ratio_times_million; try assumption; lia.
Qed.

End DecimalAmounts.

Section HandlerAmounts.
Context {lib : Library} {W : Type} {env : Environment W}.

Lemma submissions_app (t u : list entry) :
  submissions (t ++ u) = (submissions t ++ submissions u)%list.
Proof.
  induction t as [|[a|q r] t IH]; cbn [app submissions]; [reflexivity|exact IH|].
  destruct q; cbn [app]; now rewrite ?IH.
Qed.

(** What [transfer] submits is a transfer of the converted amount to the
    recipient in the form. *)
Lemma transfer_submits (st : PageState) (s : System W) (op : UserOperation) :
  In op (submissions (trace (run (transfer st) s))) ->
  exists N,
    amountInWei (amount st) = Ok N
    /\ map call_args (uo_calls op) = [(recipientAddress st, N)].
Proof.
  unfold transfer. rewrite run_try_finally, run_try_catch.
  destruct (amountInWei (amount st)) as [a|e];
    [destruct (account_privateKey (account st)) as [k|e]|];
    cbn [bind perform lift run]; unfold after.
  2,3: unfold or_else, at_last;
       cbn [bind perform run after ended final trace app submissions]; intros [].
  rewrite run_bind.
  pose proof (fun s1 => transferUSDC_submitted k (recipientAddress st) a s1 op) as Hsub.
  match goal with |- context [run (transferUSDC ?k ?r ?a) ?s1] =>
    specialize (Hsub s1); revert Hsub; generalize (run (transferUSDC k r a) s1)
  end.
  intros [[[[] used cost rcpt]|e] fs tr] Hsub;
    unfold and_then; cbn [ended final trace run bind perform after app success];
    unfold or_else; cbn [ended final trace run bind perform after app];
    unfold at_last; cbn [ended final trace run bind perform after app apply_action page];
    cbn [submissions]; rewrite !submissions_app; cbn [submissions]; rewrite ?app_nil_r;
    intros Hin; exists a; (split; [reflexivity|]);
    cbn [trace] in Hsub; destruct (Hsub Hin); subst op; reflexivity.
Qed.

(** X20.  For an amount written as digits, a point and at most six
    digits, whose value in units is below [2^50]: when the conversion
    [BigInt(parseFloat(amount) * 1000000)] yields an integer at all, it is
    the exact number of units, and so a user operation that [transfer]
    submits for such an amount transfers exactly that number of units.
    The two roundings can make the conversion throw; they cannot make it
    yield a wrong amount. *)
Theorem decimal_amounts_are_exact_or_refused (a b : string) (ia m : Z) :
  a <> "" -> Str.read_radix 10 a 0 = Some ia -> Str.read_radix 10 b ia = Some m ->
  (String.length b <= 6)%nat ->
  m * 10 ^ (6 - Z.of_nat (String.length b)) < 2 ^ 50 ->
  (forall N, amountInWei (a ++ "." ++ b) = Ok N ->
             N = m * 10 ^ (6 - Z.of_nat (String.length b)))
  /\ forall (st : PageState) (s : System W) (op : UserOperation),
       amount st = a ++ "." ++ b ->
       In op (submissions (trace (run (transfer st) s))) ->
       map call_args (uo_calls op)
       = [(recipientAddress st, m * 10 ^ (6 - Z.of_nat (String.length b)))].
Proof.
  intros Ha Hia Hm Hlen Hb.
  pose proof (fun N => decimal_amount_exact a b ia m N Ha Hia Hm Hlen Hb) as Hexact.
  split; [exact Hexact|].
  intros st s op Hst Hin. destruct (transfer_submits st s op Hin) as (N & HN & Hargs).
  rewrite Hst in HN. now rewrite <- (Hexact N HN).
Qed.

End HandlerAmounts.


(** Ten and a half USDC; and an amount above the bound, which comes out
    one unit too high. *)
Lemma decimal_amounts_are_exact_or_refused_witness :
  amountInWei ("10" ++ "." ++ "5") = Ok 10500000
  /\ 10500000 = 105 * 10 ^ (6 - Z.of_nat (String.length "5")).
Proof.
  assert (H : amountInWei ("10" ++ "." ++ "5") = Ok 10500000) by (vm_compute; reflexivity).
  split; [exact H|].
  destruct (@decimal_amounts_are_exact_or_refused Testnet.library Testnet.Chain
              Testnet.environment "10" "5" 10 105) as [Hexact _];
    [discriminate|reflexivity|reflexivity|cbn; lia|reflexivity|].
  exact (Hexact 10500000 H).
Defined.

Example wrong_amount_above_the_bound :
  amountInWei "9716564109.958959" = Ok 9716564109958960
  /\ 2 ^ 50 < 9716564109958959 < 2 ^ 54.
Proof. vm_compute. repeat split. Qed.

(** ** The balance to the cent *)
Section Digits10.
Import Str.

Lemma take_slice (k : nat) (s : string) : take k s ++ slice k s = s.
Proof.
  revert s. induction k as [|k IH]; intros s; [reflexivity|].
  destruct s as [|c s]; [reflexivity|]. cbn [take slice append]. now rewrite IH.
Qed.

Lemma length_slice (k : nat) (s : string) :
  String.length (slice k s) = (String.length s - k)%nat.
Proof.
  revert s. induction k as [|k IH]; intros s; cbn [slice].
  - lia.
  - destruct s as [|c s]; [reflexivity|]. cbn [String.length]. now rewrite IH.
Qed.

Lemma length_repeat0 (n : nat) : String.length (repeat0 n) = n.
Proof. induction n as [|n IH]; cbn; now rewrite ?IH. Qed.

Lemma read_radix_app (u v : string) (acc : Z) :
  read_radix 10 (u ++ v) acc
  = match read_radix 10 u acc with
    | Some x => read_radix 10 v x
    | None => None
    end.
Proof.
  revert acc. induction u as [|c u IH]; intros acc; [reflexivity|].
  cbn [append read_radix]. destruct (digit_in 10 c); [apply IH|reflexivity].
Qed.

Lemma read_radix_zeros (n : nat) (x : Z) :
  read_radix 10 (repeat0 n) x = Some (x * 10 ^ Z.of_nat n).
Proof.
  revert x. induction n as [|n IH]; intros x.
  - cbn. f_equal. lia.
  - cbn [repeat0 read_radix]. change (digit_in 10 "0") with (Some 0). cbv iota.
    rewrite IH, Nat2Z.inj_succ, Z.pow_succ_r by lia. f_equal. lia.
Qed.

(** What [strip_trailing_zeros] drops is a run of zeros. *)
Lemma strip_zeros (s : string) : exists k, s = strip_trailing_zeros s ++ repeat0 k.
Proof.
  induction s as [|c s [k IH]].
  - now exists 0%nat.
  - cbn [strip_trailing_zeros]. destruct (strip_trailing_zeros s) as [|c' s'] eqn:E.
    + cbn [append] in IH. destruct (Ascii.eqb c "0") eqn:Ec.
      * apply Ascii.eqb_eq in Ec. subst c. exists (S k). cbn [append repeat0]. now rewrite IH.
      * exists k. cbn [append]. now rewrite IH.
    + exists k. cbn [append]. now rewrite IH at 1.
Qed.

Lemma trim_end_app (u v : string) : v <> "" -> trim_end v = v -> trim_end (u ++ v) = u ++ v.
Proof.
  intros Hv Ht. induction u as [|c u IH]; [exact Ht|].
  cbn [append trim_end]. rewrite IH.
  destruct (u ++ v) eqn:E; [|reflexivity].
  destruct u; [now elim Hv|discriminate E].
Qed.

End Digits10.

Section Cents.

(** [formatUnits] of units that are no whole number of USDC: the digits
    before the point, and up to six digits behind it that end in no
    zero. *)
Lemma formatUnits_decimal (b : Z) :
  0 < b -> b mod 1000000 <> 0 ->
  exists I F vi m,
    Viem.formatUnits b 6 = I ++ "." ++ F
    /\ I <> "" /\ F <> "" /\ (String.length F <= 6)%nat
    /\ Str.read_radix 10 I 0 = Some vi
    /\ Str.read_radix 10 F vi = Some m
    /\ m * 10 ^ (6 - Z.of_nat (String.length F)) = b.
Proof.
  intros Hb Hmod.
  destruct (toString_head b Hb) as (c & r & d & Ht & Hc).
  pose proof (read_toString 10 b ltac:(lia) ltac:(lia)) as Hval.
  unfold Viem.formatUnits. cbv zeta.
  assert (Hneg : JS.starts_with "-" (Str.toString 10 b) = false).
  { rewrite Ht. apply digit_is in Hc. cbn [In] in Hc. unfold JS.starts_with.
    cbn [String.length substring].
    repeat (destruct Hc as [<-|Hc]; [now destruct r|]). contradiction. }
  rewrite Hneg. clear Hneg Ht Hc c r d.
  set (t := Str.toString 10 b) in *.
  set (s := Str.padStart0 6 t).
  assert (Hs : Str.read_radix 10 s 0 = Some b).
  { unfold s, Str.padStart0. rewrite read_radix_app, read_radix_zeros. exact Hval. }
  assert (Hlen : (6 <= String.length s)%nat).
  { unfold s, Str.padStart0. rewrite length_append, length_repeat0. lia. }
  set (k0 := (String.length s - 6)%nat).
  set (I0 := Str.take k0 s). set (F0 := Str.slice k0 s).
  assert (HF0 : String.length F0 = 6%nat)
    by (unfold F0; rewrite length_slice; unfold k0; lia).
  assert (Hsplit : s = I0 ++ F0) by (symmetry; apply take_slice).
  rewrite Hsplit, read_radix_app in Hs.
  destruct (Str.read_radix 10 I0 0) as [vi|] eqn:HI; [|discriminate Hs].
  destruct (strip_zeros F0) as [k HF].
  set (F' := Str.strip_trailing_zeros F0) in *.
  rewrite HF, read_radix_app in Hs.
  destruct (Str.read_radix 10 F' vi) as [m|] eqn:HFm; [|discriminate Hs].
  rewrite read_radix_zeros in Hs. injection Hs as Hbm.
  assert (Hk : (String.length F' + k = 6)%nat).
  { rewrite <- HF0. rewrite HF. now rewrite length_append, length_repeat0. }
  assert (HFne : F' <> "").
  { intros E. rewrite E in *. cbn in HFm. injection HFm as <-.
    cbn [String.length] in Hk. replace k with 6%nat in Hbm by lia.
    apply Hmod. rewrite <- Hbm. change (10 ^ Z.of_nat 6) with 1000000.
    apply Z.mod_mul. lia. }
  exists (match I0 with EmptyString => "0" | _ => I0 end), F', vi, m.
  split.
  { cbn [append]. destruct F' as [|cf rf]; [now elim HFne|]. reflexivity. }
  split; [now destruct I0|]. split; [exact HFne|]. split; [lia|].
  split.
  { destruct I0; [|exact HI]. cbn in HI. injection HI as <-. reflexivity. }
  split; [exact HFm|].
  rewrite <- Hbm. f_equal. f_equal. lia.
Qed.

(** A number of cents [c] next to [200 mx / 2T], where [mx L2] is next to
    [M0] and [M0] next to [m P / d], is within half a cent of
    [b = 10^6 m / d]. *)
Lemma half_a_cent (b d m T L2 X M0 mx c : Z) :
  0 < d -> 0 < m -> b * d = 1000000 * m -> 1000000 * m < 2 ^ 50 * d ->
  0 < L2 -> 0 < T -> 0 < X -> 8388608 <= L2 * T ->
  d * M0 - d <= m * (L2 * T) < d * M0 + 2 * d ->
  2 ^ 52 * X <= M0 ->
  mx * L2 - X <= M0 < mx * L2 + X ->
  2 * T * c <= 200 * mx + T < 2 * T * c + 2 * T ->
  b - 5000 <= 10000 * c <= b + 5000.
Proof.
  intros Hd Hm Hbd Hb HL2 HT HX HP [H1a H1b] H2 [H3a H3b] [H4a H4b].
  change (2 ^ 50) with 1125899906842624 in Hb.
  change (2 ^ 52) with 4503599627370496 in H2.
  assert (HLT : 0 < L2 * T) by (apply Z.mul_pos_pos; assumption).
  assert (HLTd : 0 < L2 * T * d) by (apply Z.mul_pos_pos; assumption).
  assert (A3 : (b * d) * (L2 * T) = (1000000 * m) * (L2 * T)) by now rewrite Hbd.
  assert (A5 : (4503599627370496 * X) * d <= M0 * d)
    by (apply Z.mul_le_mono_nonneg_r; lia).
  assert (A6 : (1000000 * m) * (L2 * T) < (1125899906842624 * d) * (L2 * T))
    by (apply Z.mul_lt_mono_pos_r; assumption).
  assert (A7 : 8388608 * d <= (L2 * T) * d)
    by (apply Z.mul_le_mono_nonneg_r; lia).
  assert (A1 : (2 * T * c) * L2 <= (200 * mx + T) * L2)
    by (apply Z.mul_le_mono_nonneg_r; lia).
  assert (A1' : (200 * mx + T) * L2 < (2 * T * c + 2 * T) * L2)
    by (apply Z.mul_lt_mono_pos_r; lia).
  assert (A2 : ((2 * T * c) * L2) * d <= (200 * (M0 + X) + T * L2) * d)
    by (apply Z.mul_le_mono_nonneg_r; lia).
  assert (A2' : (200 * (M0 - X)) * d <= ((2 * T * c + T) * L2) * d)
    by (apply Z.mul_le_mono_nonneg_r; lia).
  split.
  - destruct (Z_le_gt_dec (b - 5000) (10000 * c)) as [|Hgt]; [assumption|exfalso].
    assert (A4 : (10000 * c + 5001) * (L2 * T * d) <= b * (L2 * T * d))
      by (apply Z.mul_le_mono_nonneg_r; lia).
    lia.
  - destruct (Z_le_gt_dec (10000 * c) (b + 5000)) as [|Hgt]; [assumption|exfalso].
    assert (A4 : (b + 5001) * (L2 * T * d) <= (10000 * c) * (L2 * T * d))
      by (apply Z.mul_le_mono_nonneg_r; lia).
    lia.
Qed.

(** [Number] of digits, a point and digits. *)
Lemma Number_of_decimal_string (a b : string) (ia m : Z) :
  a <> "" -> b <> "" ->
  Str.read_radix 10 a 0 = Some ia -> Str.read_radix 10 b ia = Some m ->
  Display.Number_of_string (a ++ "." ++ b)
  = JS.Number_of_decimal false m (- Z.of_nat (String.length b)).
Proof.
  intros Ha Hb Hia Hm. destruct a as [|c ra]; [now elim Ha|].
  destruct (read_digits_stop (String c ra) ("." ++ b) 0 0 ia Hia ltac:(lia) eq_refl)
    as [Hread Hia0].
  destruct (read_digits_all b ia 0 m Hm Hia0) as [Hfrac Hm0].
  pose proof Hia as H'. cbn [Str.read_radix] in H'.
  destruct (Str.digit_in 10 c) as [d|] eqn:Hd; [|discriminate H'].
  apply decimal_digit in Hd as [Hd _].
  destruct (head_digit c (ra ++ "." ++ b) d Hd) as (Ht & Hsign & _).
  assert (Hend : Str.trim_end (String c ra ++ "." ++ b) = String c ra ++ "." ++ b).
  { apply trim_end_app; [discriminate|].
    apply (trim_end_app "." b Hb). exact (digits_trim_end _ _ _ Hm). }
  unfold Display.Number_of_string. cbn [append] in *. rewrite Ht, Hend.
  assert (Hradix : Display.radix_literal (String c (ra ++ String "." b)) = None).
  { destruct ra as [|c2 r2].
    - apply digit_is in Hd. cbn [In] in Hd.
      repeat (destruct Hd as [<-|Hd]; [reflexivity|]). contradiction.
    - cbn [Str.read_radix] in H'.
      destruct (Str.digit_in 10 c2) as [d2|] eqn:Hd2; [|discriminate H'].
      apply decimal_digit in Hd2 as [Hd2 _]. apply digit_is in Hd, Hd2.
      cbn [In] in Hd, Hd2.
      repeat (destruct Hd as [<-|Hd];
              [repeat (destruct Hd2 as [<-|Hd2]; [reflexivity|]); contradiction|]).
      contradiction. }
  rewrite Hradix. unfold Display.decimal_literal. rewrite Hsign.
  assert (Hinf : String.eqb (String c (ra ++ String "." b)) "Infinity" = false).
  { apply digit_is in Hd. cbn [In] in Hd.
    repeat (destruct Hd as [<-|Hd]; [reflexivity|]). contradiction. }
  rewrite Hinf, Hread, Hfrac.
  replace (0 + Z.of_nat (String.length (String c ra)) + (0 + Z.of_nat (String.length b)) =? 0)
    with false by (symmetry; apply Z.eqb_neq; cbn [String.length]; lia).
  cbn [Display.exponent_part]. f_equal; lia.
Qed.

(** The digits of a whole number of cents that ends in two zeros. *)
Lemma fixed_hundreds (z : Z) :
  0 <= z -> Display.fixed 2 (z * 100) = Str.toString 10 z ++ ".00".
Proof.
  intros Hz. destruct (Z.eq_dec z 0) as [->|Hnz]; [reflexivity|].
  unfold Display.fixed. rewrite (toString_hundreds z ltac:(lia)).
  destruct (toString_head z ltac:(lia)) as (c & r & d & Ht & _). rewrite Ht.
  rewrite (padStart0_long 3 (String c r) "00" ltac:(cbn [String.length]; lia)).
  change (String.length (String c r ++ "00") - 2)%nat
    with (String.length (String c r ++ "00") - String.length "00")%nat.
  now rewrite (length_tail (String c r) "00"), take_append, slice_append.
Qed.

(** The rendering of a balance below [2^50] units: the digits of a number
    of cents within half a cent of the balance. *)
Lemma displayed_cents (b : Z) :
  0 <= b < 2 ^ 50 ->
  exists c, 0 <= c /\ b - 5000 <= 10000 * c <= b + 5000
            /\ displayed b = Ok (Display.fixed 2 c).
Proof.
  intros [Hb0 Hb].
  destruct (Z.eq_dec (b mod 1000000) 0) as [Hw|Hw].
  { (* a whole number of USDC *)
    apply Z.mod_divide in Hw; [|lia]. destruct Hw as [z ->].
    assert (Hz : 0 <= z < 2 ^ 53).
    { change (2 ^ 50) with 1125899906842624 in Hb.
      change (2 ^ 53) with 9007199254740992. lia. }
    exists (z * 100). split; [lia|]. split; [lia|].
    rewrite (displayed_whole z Hz). f_equal. symmetry. apply fixed_hundreds. lia. }
  assert (Hpos : 0 < b).
  { destruct (Z.eq_dec b 0) as [->|]; [now elim Hw|lia]. }
  destruct (formatUnits_decimal b Hpos Hw)
    as (I & F & vi & m & Hf & HI & HF & Hlen & Hvi & Hm & Hbm).
  unfold displayed. rewrite Hf, (Number_of_decimal_string I F vi m HI HF Hvi Hm).
  set (n := Z.of_nat (String.length F)) in *.
  assert (Hn : 1 <= n <= 6).
  { unfold n. destruct F; [now elim HF|]. cbn [String.length] in *. lia. }
  unfold JS.Number_of_decimal.
  replace (0 <=? - n) with false by (symmetry; apply Z.leb_gt; lia).
  rewrite Z.opp_involutive.
  set (d := 10 ^ n).
  assert (Hd : 10 <= d <= 1000000).
  { unfold d. split.
    - change 10 with (10 ^ 1) at 1. apply Z.pow_le_mono_r; lia.
    - change 1000000 with (10 ^ 6). apply Z.pow_le_mono_r; lia. }
  assert (Hbd : b * d = 1000000 * m).
  { rewrite <- Hbm. unfold d. rewrite <- Z.mul_assoc, <- Z.pow_add_r by lia.
    replace (6 - n + n) with 6 by lia. change (10 ^ 6) with 1000000. ring. }
  assert (Hm0 : 0 < m).
  { destruct (Z_lt_le_dec 0 m) as [|Hle]; [assumption|exfalso].
    assert (0 <= 10 ^ (6 - n)) by (apply Z.pow_nonneg; lia).
    assert (m * 10 ^ (6 - n) <= 0 * 10 ^ (6 - n))
      by (apply Z.mul_le_mono_nonneg_r; lia).
    lia. }
  assert (Hmd : 1000000 * m < 2 ^ 50 * d).
  { rewrite <- Hbd. apply Z.mul_lt_mono_pos_r; lia. }
  destruct (ratio_rounded m d Hm0 Hd Hmd)
    as (M0 & mx & ex & Hr & Hdx & HM0 & Hex & k1 & Hk1 & Hk1L & HMk & HMx).
  rewrite Hr. clear Hr.
  set (K := 1100 + Z.log2 d) in *.
  pose proof (Z.log2_nonneg d) as HL0.
  assert (Hsmall : Display.at_least_1e21 mx ex = false).
  { unfold Display.at_least_1e21.
    replace (0 <=? ex) with false by (symmetry; apply Z.leb_gt; lia).
    apply Z.leb_gt.
    pose proof (digits_bounds mx) as [_ Hmx]. rewrite Hdx in Hmx.
    assert (0 < 2 ^ (- ex)) by (apply Z.pow_pos_nonneg; lia).
    assert (10 ^ 21 * 1 <= 10 ^ 21 * 2 ^ (- ex)) by (apply Z.mul_le_mono_nonneg_l; lia).
    assert (2 ^ 53 < 10 ^ 21) by reflexivity. lia. }
  unfold Display.toFixed. change (100 <? 2)%nat with false. cbv iota.
  rewrite Hsmall. cbn [append].
  set (T := 2 ^ (- ex)).
  assert (HT : 0 < T) by (apply Z.pow_pos_nonneg; lia).
  assert (Hc : Display.scaled 2 mx ex = (200 * Zpos mx + T) / (2 * T)).
  { unfold Display.scaled. cbv zeta.
    replace (0 <=? ex) with false by (symmetry; apply Z.leb_gt; lia).
    change (10 ^ Z.of_nat 2) with 100.
    replace (- ex + 1) with (Z.succ (- ex)) by lia. rewrite Z.pow_succ_r by lia.
    fold T. f_equal. lia. }
  rewrite Hc. set (c := (200 * Zpos mx + T) / (2 * T)).
  pose proof (Z.div_mod (200 * Zpos mx + T) (2 * T) ltac:(lia)) as Hdm.
  pose proof (Z.mod_pos_bound (200 * Zpos mx + T) (2 * T) ltac:(lia)) as Hmb.
  fold c in Hdm.
  set (L2 := 2 ^ (K + 1 + ex)) in *.
  assert (HL2 : 0 < L2) by (apply Z.pow_pos_nonneg; lia).
  assert (HP : 2 ^ (K + 1) = L2 * T).
  { unfold L2, T. rewrite <- pow2_split by lia. f_equal. lia. }
  assert (Hbig : 8388608 <= L2 * T).
  { rewrite <- HP. change 8388608 with (2 ^ 23). apply Z.pow_le_mono_r; unfold K; lia. }
  rewrite HP in HM0.
  assert (HX : 0 < 2 ^ k1) by (apply Z.pow_pos_nonneg; lia).
  assert (Hc0 : 0 <= c) by (apply Z.div_pos; lia).
  exists c. split; [exact Hc0|]. split; [|reflexivity].
  apply (half_a_cent b d m T L2 (2 ^ k1) M0 (Zpos mx) c); try assumption; lia.
Qed.

End Cents.

Section BalanceToTheCent.
Context {W : Type} {env : Environment W}.

(** X21.  Whatever balance below [2^50] units the token contract
    reports, [fetchBalance] hands [setUsdcBalance] the digits, with two
    behind the point, of a number of cents that is within half a cent of
    that balance; it reads the balance once and does nothing else. *)
Theorem balance_is_shown_to_the_cent (st : PageState) (s : System W)
    (info : AccountInfo) (b : Z) :
  account st = Some info ->
  truthy (address info) = true ->
  0 <= b < 2 ^ 50 ->
  fst (answer (BalanceOf (mkContract createPublicClient ARBITRUM_SEPOLIA_USDC balanceOf_abi)
                         (address info)) (world s)) = Ok b ->
  exists c,
    0 <= c /\ b - 5000 <= 10000 * c <= b + 5000
    /\ ended (run (fetchBalance st) s) = Returned (Some (Display.fixed 2 c))
    /\ kinds (trace (run (fetchBalance st) s)) = [KBalance]
    /\ actions (trace (run (fetchBalance st) s)) = [].
Proof.
  intros Ha Ht Hz Hb. destruct (displayed_cents b Hz) as (c & Hc0 & Hc & Hd).
  exists c. split; [exact Hc0|]. split; [exact Hc|].
  unfold fetchBalance. rewrite Ha, Ht.
  cbn [bind await run].
  destruct (answer _ (world s)) as [r w]. cbn [fst] in Hb. subst r.
  cbn [bind].
  change (Display.toFixed 2 (Display.Number_of_string (Viem.formatUnits b 6)))
    with (displayed b).
  rewrite Hd.
  cbn [lift bind run after ended trace kinds kind_of actions]. repeat split.
Qed.

End BalanceToTheCent.

Section BalanceToTheCentExample.
Import Testnet.

(** The account after a transfer of 10.5 USDC holds 89.376544 USDC. *)
Lemma balance_is_shown_to_the_cent_witness :
  account (page (form "" (world (final transfer_run)))) = Some credential
  /\ exists c,
       0 <= c /\ 89376544 - 5000 <= 10000 * c <= 89376544 + 5000
       /\ ended (run (fetchBalance (page (form "" (world (final transfer_run)))))
                     (form "" (world (final transfer_run))))
          = Returned (Some (Display.fixed 2 c)).
Proof.
  assert (Ha : account (page (form "" (world (final transfer_run)))) = Some credential)
    by reflexivity.
  assert (Hb : fst (answer (BalanceOf (mkContract createPublicClient ARBITRUM_SEPOLIA_USDC
                                                   balanceOf_abi)
                                       (address credential))
                            (world (form "" (world (final transfer_run))))) = Ok 89376544)
    by (vm_compute; reflexivity).
  split; [exact Ha|].
  destruct (balance_is_shown_to_the_cent (page (form "" (world (final transfer_run))))
              (form "" (world (final transfer_run)))
              credential 89376544 Ha eq_refl ltac:(lia) Hb) as (c & Hc0 & Hc & He & _).
  exists c. split; [exact Hc0|]. split; [exact Hc|exact He].
Defined.

End BalanceToTheCentExample.

(** ** The derivation is a request to the network *)
Section Rederivation.
Import Testnet.


End Rederivation.
